(** * TelegramSupportBot: the mapping store and the lifecycle coordinator

    A shallow embedding of [modules/database.py], [modules/bot_runner.py]
    and the [main] coroutine of [main.py], and the properties of the
    specification that were checked against it.

    The store is modelled as a state-and-exception monad over a [World]
    holding the [DatabaseManager] object, the contents of the database
    file, the number of open physical connections, the trace of I/O
    effects and the calls made to the loggers.  What the code cannot
    decide by itself (whether a connection opens in time, whether the
    driver fails in the block or when the connection is closed, the
    clock) is an explicit [Env] argument of each operation.  The SQL
    statements are given the meaning the engine gives them under the
    schema [initialize] creates.  A task is not cancelled while it is
    inside an operation of the store.

    Operations that overlap in time are modelled by tasks that the event
    loop resumes from one [await] of [_get_connection] to the next, in
    any order. *)

From Stdlib Require Import ZArith List String Bool Lia DecimalString QArith.
Import ListNotations.
Local Close Scope Q_scope.
Local Open Scope string_scope.
Local Open Scope list_scope.
Local Open Scope Z_scope.

(** ** Python values and exceptions *)

(** The values a caller can pass where the signature says [int].  A
    float is carried by its printed form: the code never computes with
    one. *)
Inductive PyVal : Type :=
| PyInt (z : Z)
| PyBool (b : bool)
| PyFloat (repr : string)
| PyStr (s : string)
| PyNone.

(** [isinstance(v, int)]: [bool] is a subclass of [int]. *)
Definition isinstance_int (v : PyVal) : bool :=
  match v with
  | PyInt _ | PyBool _ => true
  | PyFloat _ | PyStr _ | PyNone => false
  end.

(** The integer an [int] instance stands for ([True] is 1, [False] is 0). *)
Definition int_value (v : PyVal) : Z :=
  match v with
  | PyInt z => z
  | PyBool true => 1
  | _ => 0
  end.

Definition str_of_Z (z : Z) : string := NilZero.string_of_int (Z.to_int z).

(** [str(v)], as an f-string prints it. *)
Definition py_str (v : PyVal) : string :=
  match v with
  | PyInt z => str_of_Z z
  | PyBool true => "True"
  | PyBool false => "False"
  | PyFloat repr => repr
  | PyStr s => s
  | PyNone => "None"
  end.

(** Exception classes.  [DatabaseError] is the only class [database.py]
    declares; [DriverError] stands for whatever the driver raises
    ([sqlite3.Error] and the like); [CancelledError] derives from
    [BaseException], so [except Exception] does not catch it. *)
Inductive ExcClass : Type :=
| ValueError
| DatabaseError
| TimeoutError
| DriverError
| RuntimeError
| CancelledError.

Definition ExcClass_eqb (a b : ExcClass) : bool :=
  match a, b with
  | ValueError, ValueError | DatabaseError, DatabaseError
  | TimeoutError, TimeoutError | DriverError, DriverError
  | RuntimeError, RuntimeError | CancelledError, CancelledError => true
  | _, _ => false
  end.

Definition is_Exception (c : ExcClass) : bool :=
  match c with
  | CancelledError => false
  | _ => true
  end.

Record Exc : Type := mkExc { exc_class : ExcClass; exc_msg : string }.

(** ** The database file *)

(** A row of table [users]. *)
Record Row : Type := mkRow {
  user_id : Z;
  topic_id : Z;
  created_at : Z;
  updated_at : Z
}.

(** What [initialize] creates in the file: the journal mode, the table
    ([None] while it does not exist), the index and the trigger. *)
Record Database : Type := mkDatabase {
  journal_mode_wal : bool;
  users : option (list Row);
  idx_topic_id : bool;
  update_users_timestamp : bool
}.

Definition empty_database : Database := mkDatabase false None false false.

(** The statements the code sends. *)
Inductive Stmt : Type :=
| PragmaJournalWal
| PragmaForeignKeys
| CreateTableUsers
| CreateIndexTopic
| CreateTriggerTimestamp
| SelectTopicByUser (u : Z)
| InsertOrReplace (u t : Z)
| SelectUserByTopic (t : Z)
| DeleteByUser (u : Z).

(** [INSERT OR REPLACE INTO users (user_id, topic_id)]: [user_id] is the
    primary key and [topic_id] is [UNIQUE], and the REPLACE resolution
    deletes every row that conflicts on either before it inserts; the
    two timestamps take their default, the current time. *)
Definition conflicts (u t : Z) (r : Row) : bool :=
  (user_id r =? u) || (topic_id r =? t).

Definition insert_or_replace (u t now : Z) (rows : list Row) : list Row :=
  filter (fun r => negb (conflicts u t r)) rows ++ [mkRow u t now now].

(** [DELETE FROM users WHERE user_id = ?]: the rows left, and the row
    count the cursor reports. *)
Definition delete_by_user (u : Z) (rows : list Row) : list Row :=
  filter (fun r => negb (user_id r =? u)) rows.

Definition rowcount_delete (u : Z) (rows : list Row) : Z :=
  Z.of_nat (List.length (filter (fun r => user_id r =? u) rows)).

(** What [SELECT ... WHERE col = ?] followed by [fetchone()] yields:
    the first matching row. *)
Definition select_by_user (u : Z) (rows : list Row) : option Row :=
  find (fun r => user_id r =? u) rows.

Definition select_by_topic (t : Z) (rows : list Row) : option Row :=
  find (fun r => topic_id r =? t) rows.

(** ** The manager object, the world and the environment *)

Record DatabaseManager : Type := mkManager {
  db_path : string;
  max_connections : Z;
  timeout : Q;
  _pool : list nat;
  _semaphore : option Z;      (* [None], or the semaphore's value *)
  _initialized : bool
}.

Inductive Event : Type :=
| EvAcquire
| EvConnect
| EvConnectFailed
| EvExecute (s : Stmt)
| EvFetchone
| EvCommit
| EvClose
| EvCloseFailed
| EvRelease
| EvCancel (task : string)
| EvSessionClose
| EvSessionCloseFailed.

Inductive Level : Type := INFO | ERROR.

(** A call of [logger.info] or [logger.error]: its level and its text.
    Whether a handler keeps it is decided by the logging configuration,
    which is not part of the world. *)
Record LogRecord : Type := mkLog { level : Level; message : string }.

Record World : Type := mkWorld {
  manager : DatabaseManager;
  database : Database;
  open_connections : nat;
  trace : list Event;
  log : list LogRecord
}.

(** How [aiosqlite.connect] under [asyncio.wait_for] ends. *)
Inductive ConnectOutcome : Type :=
| Connected
| ConnectTimeout
| ConnectFails (msg : string).

(** The environment of one operation: the outcome of the connection
    attempt, the driver call of the body that fails (its position among
    the awaited driver calls, and the message), the clock, and the
    message of the error [conn.close()] raises when it does.  A value
    the driver cannot bind is one of the driver failures. *)
Record Env : Type := mkEnv {
  connect : ConnectOutcome;
  driver_fails_at : option (nat * string);
  now : Z;
  close_fails : option string
}.

Definition env_ok (e : Env) : Prop :=
  connect e = Connected /\ driver_fails_at e = None /\ close_fails e = None.

(** ** The monad *)

(** A coroutine returns, raises, or stays suspended at an [await]. *)
Inductive Result (A : Type) : Type :=
| Return (a : A)
| Raise (e : Exc)
| Pending.

Arguments Return {A} a.
Arguments Raise {A} e.
Arguments Pending {A}.

Definition M (A : Type) : Type := World -> Result A * World.

Definition ret {A} (a : A) : M A := fun w => (Return a, w).

Definition bind {A B} (m : M A) (k : A -> M B) : M B :=
  fun w =>
    match m w with
    | (Return a, w1) => k a w1
    | (Raise e, w1) => (Raise e, w1)
    | (Pending, w1) => (Pending, w1)
    end.

Definition raise {A} (e : Exc) : M A := fun w => (Raise e, w).

Declare Scope store_scope.
Delimit Scope store_scope with store.
Notation "x <- m ;; k" := (bind m (fun x => k))
  (at level 61, m at next level, right associativity) : store_scope.
Notation "m ;; k" := (bind m (fun _ => k))
  (at level 61, right associativity) : store_scope.
Local Open Scope store_scope.

(** [try: body finally: fin]; nothing runs after a suspension. *)
Definition try_finally {A} (body : M A) (fin : M unit) : M A :=
  fun w =>
    match body w with
    | (Pending, w1) => (Pending, w1)
    | (r, w1) =>
        match fin w1 with
        | (Return _, w2) => (r, w2)
        | (Raise e, w2) => (Raise e, w2)
        | (Pending, w2) => (Pending, w2)
        end
    end.

(** [try: body except asyncio.TimeoutError: h1 except Exception as e: h2]. *)
Definition try_except {A} (body : M A) (on_timeout : M A)
    (on_exception : Exc -> M A) : M A :=
  fun w =>
    match body w with
    | (Raise e, w1) =>
        if ExcClass_eqb (exc_class e) TimeoutError then on_timeout w1
        else if is_Exception (exc_class e) then on_exception e w1
        else (Raise e, w1)
    | other => other
    end.

Definition get_manager : M DatabaseManager := fun w => (Return (manager w), w).

Definition set_manager (m : DatabaseManager) : M unit :=
  fun w => (Return tt,
            mkWorld m (database w) (open_connections w) (trace w) (log w)).

Definition get_database : M Database := fun w => (Return (database w), w).

Definition set_database (d : Database) : M unit :=
  fun w => (Return tt,
            mkWorld (manager w) d (open_connections w) (trace w) (log w)).

Definition set_open_connections (n : nat) : M unit :=
  fun w => (Return tt, mkWorld (manager w) (database w) n (trace w) (log w)).

Definition emit (ev : Event) : M unit :=
  fun w => (Return tt,
            mkWorld (manager w) (database w) (open_connections w)
                    (trace w ++ [ev]) (log w)).

Definition logger (lv : Level) (msg : string) : M unit :=
  fun w => (Return tt,
            mkWorld (manager w) (database w) (open_connections w)
                    (trace w) (log w ++ [mkLog lv msg])).

Definition suspend {A} : M A := fun w => (Pending, w).

Infix "+++" := String.append (at level 60, right associativity).

(** ** The admission gate and the physical connection *)

Definition set_semaphore (s : option Z) : M unit :=
  m <- get_manager ;;
  set_manager (mkManager (db_path m) (max_connections m) (timeout m)
                         (_pool m) s (_initialized m)).

Definition set_initialized (b : bool) : M unit :=
  m <- get_manager ;;
  set_manager (mkManager (db_path m) (max_connections m) (timeout m)
                         (_pool m) (_semaphore m) b).

Definition set_pool (p : list nat) : M unit :=
  m <- get_manager ;;
  set_manager (mkManager (db_path m) (max_connections m) (timeout m)
                         p (_semaphore m) (_initialized m)).

(** [asyncio.Semaphore(value)] refuses a negative value. *)
Definition new_semaphore (value : Z) : M unit :=
  if value <? 0
  then raise (mkExc ValueError "Semaphore initial value must be >= 0")
  else set_semaphore (Some value).

(** [await semaphore.acquire()]: takes a slot, or suspends the caller
    while none is free. *)
Definition semaphore_acquire (value : Z) : M unit :=
  if 0 <? value
  then set_semaphore (Some (value - 1)) ;; emit EvAcquire
  else suspend.

(** [semaphore.release()]. *)
Definition semaphore_release : M unit :=
  m <- get_manager ;;
  set_semaphore (option_map Z.succ (_semaphore m)) ;;
  emit EvRelease.

(** [await asyncio.wait_for(aiosqlite.connect(db_path), timeout)]. *)
Definition wait_for_connect (env : Env) : M unit :=
  match connect env with
  | Connected =>
      (fun w => set_open_connections (S (open_connections w)) w) ;;
      emit EvConnect
  | ConnectTimeout =>
      emit EvConnectFailed ;; raise (mkExc TimeoutError "")
  | ConnectFails msg =>
      emit EvConnectFailed ;; raise (mkExc DriverError msg)
  end.

(** [await conn.close()]: the connection is closed, or the driver
    raises and the connection is not counted as closed. *)
Definition conn_close (fails : option string) : M unit :=
  match fails with
  | None =>
      (fun w => set_open_connections (Nat.pred (open_connections w)) w) ;;
      emit EvClose
  | Some msg =>
      emit EvCloseFailed ;; raise (mkExc DriverError msg)
  end.

(** [_get_connection], with the [async with] block as [body]:
    the guard, the acquire, then [try: connect; yield finally: close
    (when [conn] was bound); release].  The release is the statement
    after [await conn.close()] in the [finally] block, so an exception
    of the close leaves the block before it. *)
Definition _get_connection {A} (env : Env) (body : M A) : M A :=
  m <- get_manager ;;
  match _semaphore m with
  | None =>
      raise (mkExc DatabaseError "DatabaseManager не инициализирован")
  | Some value =>
      semaphore_acquire value ;;
      fun w =>
        match wait_for_connect env w with
        | (Return _, w1) =>
            try_finally body
              (conn_close (close_fails env) ;; semaphore_release) w1
        | (Raise e, w1) =>
            (semaphore_release ;; raise e) w1
        | (Pending, w1) => (Pending, w1)
        end
  end.

(** ** The driver calls of the bodies *)

(** The [i]-th awaited driver call of a body: it raises when the
    environment makes this one fail. *)
Definition driver_call {A} (env : Env) (i : nat) (call : M A) : M A :=
  match driver_fails_at env with
  | Some (j, msg) =>
      if Nat.eqb i j then raise (mkExc DriverError msg) else call
  | None => call
  end.

Definition no_such_table {A} : M A :=
  raise (mkExc DriverError "no such table: users").

Definition with_users (d : Database) (rows : option (list Row)) : Database :=
  mkDatabase (journal_mode_wal d) rows (idx_topic_id d)
             (update_users_timestamp d).

(** [conn.execute] of a pragma or a schema statement: these take effect
    at once, no transaction is opened for them. *)
Definition conn_execute_schema (s : Stmt) : M unit :=
  emit (EvExecute s) ;;
  d <- get_database ;;
  match s with
  | PragmaJournalWal =>
      set_database (mkDatabase true (users d) (idx_topic_id d)
                               (update_users_timestamp d))
  | CreateTableUsers =>
      match users d with
      | None => set_database (with_users d (Some []))
      | Some _ => ret tt
      end
  | CreateIndexTopic =>
      match users d with
      | None => no_such_table
      | Some _ =>
          set_database (mkDatabase (journal_mode_wal d) (users d) true
                                   (update_users_timestamp d))
      end
  | CreateTriggerTimestamp =>
      match users d with
      | None => no_such_table
      | Some _ =>
          set_database (mkDatabase (journal_mode_wal d) (users d)
                                   (idx_topic_id d) true)
      end
  | _ => ret tt
  end.

(** [conn.execute] of a SELECT: the cursor over the matching rows. *)
Definition conn_execute_query (s : Stmt) : M (list Row) :=
  emit (EvExecute s) ;;
  d <- get_database ;;
  match users d with
  | None => no_such_table
  | Some rows =>
      match s with
      | SelectTopicByUser u => ret (filter (fun r => user_id r =? u) rows)
      | SelectUserByTopic t => ret (filter (fun r => topic_id r =? t) rows)
      | _ => ret []
      end
  end.

(** [cursor.fetchone()]. *)
Definition fetchone (cursor : list Row) : M (option Row) :=
  emit EvFetchone ;; ret (hd_error cursor).

(** [conn.execute] of an INSERT or DELETE: the statement runs inside the
    transaction the driver opens for it, so the file keeps its contents
    until [commit]; the result is the table as the transaction sees it
    and the cursor's row count. *)
Definition conn_execute_write (s : Stmt) (clock : Z) : M (list Row * Z) :=
  emit (EvExecute s) ;;
  d <- get_database ;;
  match users d with
  | None => no_such_table
  | Some rows =>
      match s with
      | InsertOrReplace u t => ret (insert_or_replace u t clock rows, 1)
      | DeleteByUser u => ret (delete_by_user u rows, rowcount_delete u rows)
      | _ => ret (rows, 0)
      end
  end.

(** [conn.commit()]: the transaction's table, when there is one, becomes
    the file's. *)
Definition conn_commit (txn : option (list Row)) : M unit :=
  emit EvCommit ;;
  match txn with
  | None => ret tt
  | Some rows => d <- get_database ;; set_database (with_users d (Some rows))
  end.

(** ** [DatabaseManager] *)

(** [DatabaseManager(db_path, max_connections, timeout)]. *)
Definition new_manager (path : string) (max_conn : Z) (tmo : Q)
  : DatabaseManager :=
  mkManager path max_conn tmo [] None false.

(** [initialize]; the lock of [async with self._lock] is free whenever
    a call starts in a sequential run. *)
Definition initialize (env : Env) : M unit :=
  m <- get_manager ;;
  if _initialized m then ret tt
  else
    new_semaphore (max_connections m) ;;
    _get_connection env (
      driver_call env 0 (conn_execute_schema PragmaJournalWal) ;;
      driver_call env 1 (conn_execute_schema PragmaForeignKeys) ;;
      driver_call env 2 (conn_execute_schema CreateTableUsers) ;;
      driver_call env 3 (conn_execute_schema CreateIndexTopic) ;;
      driver_call env 4 (conn_execute_schema CreateTriggerTimestamp) ;;
      driver_call env 5 (conn_commit None)) ;;
    set_initialized true ;;
    logger INFO "База данных инициализирована".

(** The test every operation starts with:
    [not isinstance(x, int) or x <= 0]. *)
Definition invalid_id (v : PyVal) : bool :=
  negb (isinstance_int v) || (int_value v <=? 0).

Definition timeout_error : Exc := mkExc DatabaseError "Таймаут операции БД".

Definition wrapped_error (e : Exc) : Exc :=
  mkExc DatabaseError ("Ошибка БД: " +++ exc_msg e).

(** The blocks under [async with self._get_connection() as conn]. *)
Definition get_user_topic_body (uid : PyVal) (env : Env) : M (option Z) :=
  cursor <- driver_call env 0
              (conn_execute_query (SelectTopicByUser (int_value uid))) ;;
  result <- driver_call env 1 (fetchone cursor) ;;
  ret (option_map topic_id result).

Definition create_user_topic_body (uid tid : PyVal) (env : Env) : M unit :=
  txn <- driver_call env 0
           (conn_execute_write
              (InsertOrReplace (int_value uid) (int_value tid)) (now env)) ;;
  driver_call env 1 (conn_commit (Some (fst txn))) ;;
  logger INFO ("Создан топик " +++ py_str tid +++ " для user_id="
               +++ py_str uid).

Definition get_user_by_topic_body (tid : PyVal) (env : Env) : M (option Z) :=
  cursor <- driver_call env 0
              (conn_execute_query (SelectUserByTopic (int_value tid))) ;;
  result <- driver_call env 1 (fetchone cursor) ;;
  ret (option_map user_id result).

Definition delete_user_topic_body (uid : PyVal) (env : Env) : M bool :=
  txn <- driver_call env 0
           (conn_execute_write (DeleteByUser (int_value uid)) (now env)) ;;
  driver_call env 1 (conn_commit (Some (fst txn))) ;;
  let deleted := 0 <? snd txn in
  (if deleted
   then logger INFO ("Удален топик для user_id=" +++ py_str uid)
   else ret tt) ;;
  ret deleted.

Definition get_user_topic (uid : PyVal) (env : Env) : M (option Z) :=
  if invalid_id uid
  then raise (mkExc ValueError ("Некорректный user_id: " +++ py_str uid))
  else
    try_except
      (_get_connection env (get_user_topic_body uid env))
      (logger ERROR ("Таймаут получения топика для user_id=" +++ py_str uid) ;;
       raise timeout_error)
      (fun e =>
         logger ERROR ("Ошибка получения топика для user_id=" +++ py_str uid
                       +++ ": " +++ exc_msg e) ;;
         raise (wrapped_error e)).

Definition create_user_topic (uid tid : PyVal) (env : Env) : M unit :=
  if invalid_id uid
  then raise (mkExc ValueError ("Некорректный user_id: " +++ py_str uid))
  else if invalid_id tid
  then raise (mkExc ValueError ("Некорректный topic_id: " +++ py_str tid))
  else
    try_except
      (_get_connection env (create_user_topic_body uid tid env))
      (logger ERROR ("Таймаут создания топика для user_id=" +++ py_str uid) ;;
       raise timeout_error)
      (fun e =>
         logger ERROR ("Ошибка создания топика для user_id=" +++ py_str uid
                       +++ ": " +++ exc_msg e) ;;
         raise (wrapped_error e)).

Definition get_user_by_topic (tid : PyVal) (env : Env) : M (option Z) :=
  if invalid_id tid
  then raise (mkExc ValueError ("Некорректный topic_id: " +++ py_str tid))
  else
    try_except
      (_get_connection env (get_user_by_topic_body tid env))
      (logger ERROR ("Таймаут поиска пользователя по topic_id=" +++ py_str tid) ;;
       raise timeout_error)
      (fun e =>
         logger ERROR ("Ошибка поиска пользователя по topic_id=" +++ py_str tid
                       +++ ": " +++ exc_msg e) ;;
         raise (wrapped_error e)).

Definition delete_user_topic (uid : PyVal) (env : Env) : M bool :=
  if invalid_id uid
  then raise (mkExc ValueError ("Некорректный user_id: " +++ py_str uid))
  else
    try_except
      (_get_connection env (delete_user_topic_body uid env))
      (logger ERROR ("Таймаут удаления топика для user_id=" +++ py_str uid) ;;
       raise timeout_error)
      (fun e =>
         logger ERROR ("Ошибка удаления топика для user_id=" +++ py_str uid
                       +++ ": " +++ exc_msg e) ;;
         raise (wrapped_error e)).

(** [close]: closes what the pool holds, empties it and clears the
    flag; the semaphore is left as it is.  [_pool] is created empty and
    no statement of the class adds to it, so in a run of the program the
    loop has no connection to close; the connections of a pool that is
    not empty are taken to close. *)
Fixpoint close_pool (pool : list nat) : M unit :=
  match pool with
  | [] => ret tt
  | _ :: rest => conn_close None ;; close_pool rest
  end.

Definition close : M unit :=
  m <- get_manager ;;
  close_pool (_pool m) ;;
  set_pool [] ;;
  set_initialized false ;;
  logger INFO "База данных закрыта".

(** A process starts with a manager, a database file, no connection and
    empty trace and log. *)
Definition start_world (m : DatabaseManager) (d : Database) : World :=
  mkWorld m d 0 [] [].

(** ** The lifecycle coordinator ([bot_runner.py]) and [main] *)

Record Config : Type := mkConfig {
  bot_token : string;
  support_group_id : Z;
  data_dir : string;
  db_name : string;
  max_db_connections : Z;
  db_timeout : Q
}.

(** A task as [asyncio.wait] finds it: still pending, or done with a
    result or with an exception. *)
Inductive TaskState : Type :=
| StillPending
| DoneReturned
| DoneRaised (e : Exc).

(** What the coordinator cannot decide: what its first statements
    raise, if anything ([get_config()], [Bot(...)], [Dispatcher()] and
    [handlers.register_handlers], whose module is not part of this
    development); the state of the polling task and of the shutdown
    event when [asyncio.wait] returns; what awaiting the polling task
    gives after it was cancelled ([None]: it returns; normally it
    raises [CancelledError]); and what [bot.session.close()] raises, if
    anything. *)
Record RunEnv : Type := mkRunEnv {
  setup_raises : option Exc;
  polling_task : TaskState;
  shutdown_set : bool;
  cancelled_polling : option Exc;
  session_close_raises : option Exc
}.

(** [task.cancel(); try: await task except asyncio.CancelledError: pass]. *)
Definition cancel_and_await (task : string) (outcome : option Exc) : M unit :=
  emit (EvCancel task) ;;
  match outcome with
  | None => ret tt
  | Some e =>
      if ExcClass_eqb (exc_class e) CancelledError then ret tt else raise e
  end.

(** [await bot.session.close()]. *)
Definition session_close (raises : option Exc) : M unit :=
  match raises with
  | None => emit EvSessionClose
  | Some e => emit EvSessionCloseFailed ;; raise e
  end.

(** [run_bot]: the bot and the dispatcher are built and the handlers
    registered; then the log line, the two tasks and [asyncio.wait].
    The tasks in [done] are not looked at again after [asyncio.wait];
    a task still pending is cancelled and awaited; then the session is
    closed, outside any [finally]. *)
Definition run_bot (renv : RunEnv) : M unit :=
  match setup_raises renv with
  | Some e => raise e
  | None =>
      logger INFO "Бот запущен и готов к работе" ;;
      match polling_task renv, shutdown_set renv with
      | StillPending, false => suspend
      | _, _ =>
          (match polling_task renv with
           | StillPending =>
               cancel_and_await "polling_task" (cancelled_polling renv)
           | _ => ret tt
           end) ;;
          (if shutdown_set renv then ret tt
           else cancel_and_await "shutdown_task"
                  (Some (mkExc CancelledError ""))) ;;
          session_close (session_close_raises renv) ;;
          logger INFO "Бот корректно завершил работу"
      end
  end.

(** [try: body except Exception as e: handler]. *)
Definition try_except_Exception {A} (body : M A) (handler : Exc -> M A)
  : M A :=
  fun w =>
    match body w with
    | (Raise e, w1) =>
        if is_Exception (exc_class e) then handler e w1 else (Raise e, w1)
    | other => other
    end.

(** The separator of [posixpath], and [s.startswith(sep)] and
    [s.endswith(sep)]. *)
Definition sep : string := "/".

Definition startswith_sep (s : string) : bool := String.prefix sep s.

Fixpoint endswith_sep (s : string) : bool :=
  match s with
  | EmptyString => false
  | String c EmptyString => String.eqb (String c EmptyString) sep
  | String _ rest => endswith_sep rest
  end.

(** [os.path.join(dir, name)] as [posixpath] computes it: a name that
    starts with the separator stands alone; after an empty directory or
    one that ends with the separator the name follows at once;
    otherwise a separator comes between the two. *)
Definition os_path_join (dir name : string) : string :=
  if startswith_sep name then name
  else if String.eqb dir "" || endswith_sep dir then dir +++ name
  else dir +++ sep +++ name.

Definition default_max_connections : Z := 5.
Definition default_timeout : Q := (10 # 1)%Q.

(** [main], once [setup_logging()] and [get_config()] have returned:
    the manager is built from the path alone, so it gets the defaults of
    the constructor. *)
Definition main (cfg : Config) (init_env : Env) (renv : RunEnv) : M unit :=
  set_manager (new_manager (os_path_join (data_dir cfg) (db_name cfg))
                           default_max_connections default_timeout) ;;
  initialize init_env ;;
  logger INFO "Запуск бота технической поддержки..." ;;
  try_finally
    (try_except_Exception (run_bot renv)
       (fun e => logger ERROR ("Критическая ошибка: " +++ exc_msg e) ;;
                 raise e))
    (close ;; logger INFO "Бот остановлен").

(** The status the process exits with once [asyncio.run(main())] is
    over: an exception that leaves [main] ends the process with 1. *)
Definition exit_status {A} (r : Result A) : option Z :=
  match r with
  | Return _ => Some 0
  | Raise _ => Some 1
  | Pending => None
  end.

(** ** The calls of the handler layer *)

Inductive Call : Type :=
| CallGetUserTopic (uid : PyVal)
| CallCreateUserTopic (uid tid : PyVal)
| CallGetUserByTopic (tid : PyVal)
| CallDeleteUserTopic (uid : PyVal).

(** The outcome of a call, without its value. *)
Definition outcome_of {A} (r : Result A) : Result unit :=
  match r with
  | Return _ => Return tt
  | Raise e => Raise e
  | Pending => Pending
  end.

Definition run_call (c : Call) (env : Env) (w : World)
  : Result unit * World :=
  match c with
  | CallGetUserTopic uid =>
      let (r, w') := get_user_topic uid env w in (outcome_of r, w')
  | CallCreateUserTopic uid tid =>
      let (r, w') := create_user_topic uid tid env w in (outcome_of r, w')
  | CallGetUserByTopic tid =>
      let (r, w') := get_user_by_topic tid env w in (outcome_of r, w')
  | CallDeleteUserTopic uid =>
      let (r, w') := delete_user_topic uid env w in (outcome_of r, w')
  end.

(** The identifiers of a call pass the test of the operation. *)
Definition valid_call (c : Call) : bool :=
  match c with
  | CallGetUserTopic uid => negb (invalid_id uid)
  | CallCreateUserTopic uid tid => negb (invalid_id uid) && negb (invalid_id tid)
  | CallGetUserByTopic tid => negb (invalid_id tid)
  | CallDeleteUserTopic uid => negb (invalid_id uid)
  end.

(** The block under [async with self._get_connection()] of a call,
    without its value. *)
Definition discard {A} (m : M A) : M unit := _ <- m ;; ret tt.

Definition call_body (c : Call) (env : Env) : M unit :=
  match c with
  | CallGetUserTopic uid => discard (get_user_topic_body uid env)
  | CallCreateUserTopic uid tid => create_user_topic_body uid tid env
  | CallGetUserByTopic tid => discard (get_user_by_topic_body tid env)
  | CallDeleteUserTopic uid => discard (delete_user_topic_body uid env)
  end.

(** ** Interleaved operations on one manager *)

(** Where an operation is suspended on its way through
    [_get_connection]. *)
Inductive Phase : Type :=
| AtAcquire      (* called; at, or before, [await self._semaphore.acquire()] *)
| AtConnect      (* at [await asyncio.wait_for(aiosqlite.connect ...)] *)
| InBody         (* inside the [async with] block *)
| AtClose        (* at [await conn.close()] in the [finally] *)
| Finished       (* ended, its slot given back if it had one *)
| Leaked.        (* ended by an exception of [conn.close()], before the
                    release: its slot stays taken *)

Record Task : Type := mkTask {
  task_call : Call;
  task_env : Env;
  phase : Phase
}.

Definition at_phase (t : Task) (p : Phase) : Task :=
  mkTask (task_call t) (task_env t) p.

(** One resumption of a task by the event loop: the code from one
    [await] of [_get_connection] to the next.  A call with an invalid
    identifier ends before the gate; a task that finds no free slot
    stays where it is; a task whose [conn.close()] raises ends there,
    before the release.  The block under [async with] runs in one
    piece: its statements are one transaction for the engine.  The
    [except] clauses around the block only log and re-raise, and are
    left out. *)
Definition resume (t : Task) (w : World) : Task * World :=
  match phase t with
  | AtAcquire =>
      if valid_call (task_call t) then
        match _semaphore (manager w) with
        | None => (at_phase t Finished, w)
        | Some value =>
            match semaphore_acquire value w with
            | (Return _, w1) => (at_phase t AtConnect, w1)
            | (_, _) => (t, w)
            end
        end
      else (at_phase t Finished, w)
  | AtConnect =>
      match wait_for_connect (task_env t) w with
      | (Return _, w1) => (at_phase t InBody, w1)
      | (_, w1) => (at_phase t Finished, snd (semaphore_release w1))
      end
  | InBody =>
      match call_body (task_call t) (task_env t) w with
      | (Pending, _) => (t, w)
      | (_, w1) => (at_phase t AtClose, w1)
      end
  | AtClose =>
      match conn_close (close_fails (task_env t)) w with
      | (Return _, w1) => (at_phase t Finished, snd (semaphore_release w1))
      | (_, w1) => (at_phase t Leaked, w1)
      end
  | Finished | Leaked => (t, w)
  end.

Record System : Type := mkSystem {
  world : World;
  tasks : list Task
}.

Fixpoint set_nth {A} (i : nat) (x : A) (l : list A) : list A :=
  match l, i with
  | [], _ => []
  | _ :: rest, O => x :: rest
  | y :: rest, S j => y :: set_nth j x rest
  end.

(** The event loop resumes task [i]. *)
Definition step (i : nat) (s : System) : System :=
  match nth_error (tasks s) i with
  | None => s
  | Some t =>
      let (t', w') := resume t (world s) in
      mkSystem w' (set_nth i t' (tasks s))
  end.

(** A schedule is the list of the tasks resumed, in order. *)
Definition exec (schedule : list nat) (s : System) : System :=
  fold_left (fun s i => step i s) schedule s.

(** The schedule that resumes tasks [0 .. n-1] in turn, [k] times. *)
Fixpoint round_robin (k n : nat) : list nat :=
  match k with
  | O => []
  | S k' => seq 0 n ++ round_robin k' n
  end.

(** The slot of the task is taken: it is between the acquire and the
    release, or it ended without the release. *)
Definition holds_slot (t : Task) : bool :=
  match phase t with
  | AtConnect | InBody | AtClose | Leaked => true
  | _ => false
  end.

(** The connection of the task is open. *)
Definition holds_connection (t : Task) : bool :=
  match phase t with
  | InBody | AtClose | Leaked => true
  | _ => false
  end.

(** The operation has ended, by a return or by an exception. *)
Definition is_finished (t : Task) : bool :=
  match phase t with
  | Finished | Leaked => true
  | _ => false
  end.

Definition count_tasks (p : Task -> bool) (ts : list Task) : nat :=
  List.length (filter p ts).

(** The resumptions a task needs at most before it is finished. *)
Definition remaining (t : Task) : nat :=
  match phase t with
  | AtAcquire => 4
  | AtConnect => 3
  | InBody => 2
  | AtClose => 1
  | Finished | Leaked => 0
  end.

Definition work_left (ts : list Task) : nat :=
  fold_right (fun t n => (remaining t + n)%nat) 0%nat ts.

(** The operations just called, none of them resumed yet. *)
Definition start_system (w : World) (calls : list (Call * Env)) : System :=
  mkSystem w (map (fun c => mkTask (fst c) (snd c) AtAcquire) calls).

(** ** The notions the properties are stated with *)

(** The store accepts operations: [initialize] has completed, a slot is
    free and the table exists. *)
Definition Ready (w : World) : Prop :=
  _initialized (manager w) = true /\
  (exists value, _semaphore (manager w) = Some value /\ 0 < value) /\
  (exists rows, users (database w) = Some rows).

Definition rows_of (w : World) : list Row :=
  match users (database w) with
  | Some rows => rows
  | None => []
  end.

(** Both columns hold pairwise distinct values. *)
Definition bijective (rows : list Row) : Prop :=
  NoDup (map user_id rows) /\ NoDup (map topic_id rows).

Definition rows_for_user (u : Z) (rows : list Row) : nat :=
  List.length (filter (fun r => user_id r =? u) rows).

Definition rows_for_topic (t : Z) (rows : list Row) : nat :=
  List.length (filter (fun r => topic_id r =? t) rows).

Definition user_mapped (u : Z) (w : World) : bool :=
  existsb (fun r => user_id r =? u) (rows_of w).

(** Runs of calls. *)
Fixpoint run_calls (cs : list (Call * Env)) (w : World) : World :=
  match cs with
  | [] => w
  | (c, env) :: rest => run_calls rest (snd (run_call c env w))
  end.

(** [delete_user_topic(u)] called once per environment of the list, one
    call after the other: the values returned. *)
Fixpoint delete_repeatedly (uid : PyVal) (envs : list Env) (w : World)
  : list (Result bool) :=
  match envs with
  | [] => []
  | env :: rest =>
      let (r, w') := delete_user_topic uid env w in
      r :: delete_repeatedly uid rest w'
  end.

(** Two upserts for one user as the specification words their outcome:
    both return, [u] has one row, [u] is mapped to [t2] and no user is
    found for [t1]. *)
Definition upsert_replaces (w : World) (u t1 t2 : Z) (e1 e2 e3 e4 : Env)
  : Prop :=
  let (r1, w1) := create_user_topic (PyInt u) (PyInt t1) e1 w in
  let (r2, w2) := create_user_topic (PyInt u) (PyInt t2) e2 w1 in
  r1 = Return tt /\
  r2 = Return tt /\
  rows_for_user u (rows_of w2) = 1%nat /\
  fst (get_user_topic (PyInt u) e3 w2) = Return (Some t2) /\
  fst (get_user_by_topic (PyInt t1) e4 w2) = Return None.

(** The class of the exception an outcome carries. *)
Definition error_kind {A} (r : Result A) : option ExcClass :=
  match r with
  | Raise e => Some (exc_class e)
  | _ => None
  end.

(** An identifier the specification calls invalid: not an integer, or
    an integer that is not strictly positive.  Integers are the
    instances of [int], so [True] counts as the integer 1. *)
Definition non_integer_or_non_positive (v : PyVal) : Prop :=
  isinstance_int v = false \/ int_value v <= 0.

(** A call with this identifier in one of its argument places. *)
Definition call_mentions (c : Call) (v : PyVal) : Prop :=
  match c with
  | CallGetUserTopic uid => uid = v
  | CallCreateUserTopic uid tid => uid = v \/ tid = v
  | CallGetUserByTopic tid => tid = v
  | CallDeleteUserTopic uid => uid = v
  end.

(** What holds of the gate in every state of an interleaved run: the
    free slots and the slots held add up to the capacity, and the open
    connections are those of the tasks past the connect. *)
Definition gate_invariant (capacity : Z) (s : System) : Prop :=
  exists value,
    _semaphore (manager (world s)) = Some value /\
    0 <= value /\
    value + Z.of_nat (count_tasks holds_slot (tasks s)) = capacity /\
    open_connections (world s) = count_tasks holds_connection (tasks s).

Definition all_finished (s : System) : bool := forallb is_finished (tasks s).

(** The task is between the acquire and the end of its operation. *)
Definition in_flight (t : Task) : bool :=
  match phase t with
  | AtConnect | InBody | AtClose => true
  | _ => false
  end.

Definition is_leaked (t : Task) : bool :=
  match phase t with
  | Leaked => true
  | _ => false
  end.

Definition at_acquire (t : Task) : bool :=
  match phase t with
  | AtAcquire => true
  | _ => false
  end.

(** The environment of the task makes [conn.close()] raise. *)
Definition close_can_fail (t : Task) : bool :=
  match close_fails (task_env t) with
  | Some _ => true
  | None => false
  end.

(** The call of the task is valid and the task is past the acquire:
    on a manager that has a semaphore, it has taken a slot. *)
Definition passed_gate (t : Task) : bool :=
  valid_call (task_call t) && negb (at_acquire t).

(** The call of the task is valid and the task ended with the
    release behind it: on a manager that has a semaphore, it has taken
    a slot and given it back. *)
Definition gave_back (t : Task) : bool :=
  valid_call (task_call t) &&
  match phase t with
  | Finished => true
  | _ => false
  end.

(** What holds of each task of a run, whatever the other tasks do: a
    task past the acquire has a valid call, and one that ended without
    the release has an environment in which the close fails. *)
Definition well_formed (t : Task) : bool :=
  implb (holds_slot t) (valid_call (task_call t)) &&
  implb (is_leaked t) (close_can_fail t).

Definition is_acquire (ev : Event) : bool :=
  match ev with
  | EvAcquire => true
  | _ => false
  end.

Definition is_release (ev : Event) : bool :=
  match ev with
  | EvRelease => true
  | _ => false
  end.

(** How often a slot was taken, and given back, in the trace. *)
Definition acquires (w : World) : nat :=
  List.length (filter is_acquire (trace w)).

Definition releases (w : World) : nat :=
  List.length (filter is_release (trace w)).

(** The tasks of a system that ended without the release. *)
Definition leaked_tasks (s : System) : nat :=
  count_tasks is_leaked (tasks s).

(** What holds of the trace in every state of an interleaved run that
    started from world [w0]: a slot was taken once for each task past
    the acquire and given back once for each task that ended after a
    release. *)
Definition trace_invariant (w0 : World) (s : System) : Prop :=
  acquires (world s) = (acquires w0 + count_tasks passed_gate (tasks s))%nat /\
  releases (world s) = (releases w0 + count_tasks gave_back (tasks s))%nat /\
  forallb well_formed (tasks s) = true.

(** The calls of a list with valid identifiers, and those whose
    [conn.close()] would fail. *)
Definition valid_calls (calls : list (Call * Env)) : nat :=
  List.length (filter (fun c => valid_call (fst c)) calls).

Definition closing_failures (calls : list (Call * Env)) : nat :=
  List.length
    (filter (fun c => match close_fails (snd c) with
                      | Some _ => true
                      | None => false
                      end) calls).

(** The connection opens and its [conn.close()] fails. *)
Definition closing_fails (env : Env) : bool :=
  match connect env, close_fails env with
  | Connected, Some _ => true
  | _, _ => false
  end.

(** The call is let through to a connection whose [conn.close()]
    fails: its identifiers are valid and the connection opens. *)
Definition close_will_fail (c : Call) (env : Env) : bool :=
  valid_call c && closing_fails env.

(** ** Sample inputs *)

Definition sample_env : Env := mkEnv Connected None 1700000000 None.

Definition sample_manager : DatabaseManager :=
  new_manager "data/database.db" default_max_connections default_timeout.

(** The world once [initialize] has run on a new file. *)
Definition sample_world : World :=
  snd (initialize sample_env (start_world sample_manager empty_database)).

Definition sample_config : Config :=
  mkConfig "123456:token" (-1001234567890) "data" "database.db" 5 (10 # 1)%Q.

(** The sample world with a row for user 42. *)
Definition sample_world_with_row : World :=
  snd (create_user_topic (PyInt 42) (PyInt 1001) sample_env sample_world).

(** The message loop fails while no shutdown was asked for. *)
Definition polling_failure : RunEnv :=
  mkRunEnv None (DoneRaised (mkExc RuntimeError "polling failed")) false
           (Some (mkExc CancelledError "")) None.

(** What a caller gets from a manager that was never initialized. *)
Definition not_initialized_error : Exc :=
  mkExc DatabaseError "Ошибка БД: DatabaseManager не инициализирован".

(** Seven operations for a gate of five slots. *)
Definition sample_calls : list (Call * Env) :=
  [ (CallCreateUserTopic (PyInt 1) (PyInt 11), sample_env);
    (CallCreateUserTopic (PyInt 2) (PyInt 12), sample_env);
    (CallGetUserTopic (PyInt 1), sample_env);
    (CallGetUserByTopic (PyInt 12), mkEnv ConnectTimeout None 0 None);
    (CallDeleteUserTopic (PyInt 2), sample_env);
    (CallGetUserTopic (PyInt 3), mkEnv Connected (Some (0%nat, "disk I/O error")) 0 None);
    (CallCreateUserTopic (PyInt 4) (PyInt 14), sample_env) ].

(** The sample world with the rows (42, 1001) and (7, 1007). *)
Definition sample_world_two_rows : World :=
  snd (create_user_topic (PyInt 7) (PyInt 1007) sample_env
         sample_world_with_row).


Definition close_failure : Env :=
  mkEnv Connected None 1700000000
        (Some "unable to close due to unfinalized statements or unfinished backups").



(** The seven operations and an eighth, which ends in a failing close. *)
Definition sample_calls_leaking : list (Call * Env) :=
  sample_calls ++ [ (CallGetUserTopic (PyInt 1), close_failure) ].

(** The calls that write. *)
Definition is_write (c : Call) : bool :=
  match c with
  | CallCreateUserTopic _ _ | CallDeleteUserTopic _ => true
  | CallGetUserTopic _ | CallGetUserByTopic _ => false
  end.

(** The polling task is still running when it is cancelled, and
    awaiting it then raises something else than [CancelledError]. *)
Definition cancellation_fails (renv : RunEnv) : bool :=
  match polling_task renv, cancelled_polling renv with
  | StillPending, Some e => negb (ExcClass_eqb (exc_class e) CancelledError)
  | _, _ => false
  end.

(** Neither task is done: [asyncio.wait] does not return. *)
Definition nothing_happens (renv : RunEnv) : bool :=
  match polling_task renv, shutdown_set renv with
  | StillPending, false => true
  | _, _ => false
  end.

(** [run_bot] stays at [asyncio.wait]: it got there, and neither task
    is done. *)
Definition run_bot_waits (renv : RunEnv) : bool :=
  match setup_raises renv with
  | Some _ => false
  | None => nothing_happens renv
  end.

(** [run_bot] raises: its first statements do, or awaiting the
    cancelled polling task raises something else than
    [CancelledError], or closing the session raises. *)
Definition run_bot_raises (renv : RunEnv) : bool :=
  match setup_raises renv with
  | Some _ => true
  | None =>
      negb (nothing_happens renv) &&
      (cancellation_fails renv ||
       match session_close_raises renv with
       | Some _ => true
       | None => false
       end)
  end.

(** The [try ... except Exception ... finally] of [main]. *)
Definition guarded_run (renv : RunEnv) : M unit :=
  try_finally
    (try_except_Exception (run_bot renv)
       (fun e => logger ERROR ("Критическая ошибка: " +++ exc_msg e) ;;
                 raise e))
    (close ;; logger INFO "Бот остановлен").

(** The world in which [main] calls [initialize]. *)
Definition main_start (cfg : Config) (w : World) : World :=
  mkWorld (new_manager (os_path_join (data_dir cfg) (db_name cfg))
                       default_max_connections default_timeout)
          (database w) (open_connections w) (trace w) (log w).

(** ** The configuration loader ([config.py]) *)

Inductive ConfigError : Type := mkConfigError (msg : string).

(** The process environment once [load_dotenv()] has run: the variables
    that are set, with their values. *)
Definition Environ : Type := list (string * string).

(** [os.getenv(key)]. *)
Fixpoint getenv (environ : Environ) (key : string) : option string :=
  match environ with
  | [] => None
  | (k, v) :: rest => if String.eqb k key then Some v else getenv rest key
  end.

Section ConfigLoader.

(** [int(value)] and [float(value)] on a string: the number read, or
    [None] where Python raises [ValueError]. *)
Variable py_int : string -> option Z.
Variable py_float : string -> option Q.

(** [_get_required_env]: a variable that is unset or empty is missing. *)
Definition _get_required_env (environ : Environ) (key : string)
  : ConfigError + string :=
  match getenv environ key with
  | Some (String c s) => inr (String c s)
  | _ => inl (mkConfigError (key +++ " не найден в переменных окружения"))
  end.

(** [_get_optional_env]: [os.getenv(key, default)]. *)
Definition _get_optional_env (environ : Environ) (key default : string)
  : string :=
  match getenv environ key with
  | Some value => value
  | None => default
  end.

Definition _parse_int (value key : string) : ConfigError + Z :=
  match py_int value with
  | Some z => inr z
  | None =>
      inl (mkConfigError (key +++ " должен быть числом, получено: " +++ value))
  end.

Definition _parse_float (value key : string) : ConfigError + Q :=
  match py_float value with
  | Some q => inr q
  | None =>
      inl (mkConfigError (key +++ " должен быть числом, получено: " +++ value))
  end.

(** Reading the six settings, in the order of [get_config]. *)
Definition load_config (environ : Environ) : ConfigError + Config :=
  match _get_required_env environ "BOT_TOKEN" with
  | inl e => inl e
  | inr token =>
  match _get_required_env environ "SUPPORT_GROUP_ID" with
  | inl e => inl e
  | inr group_str =>
  match _parse_int group_str "SUPPORT_GROUP_ID" with
  | inl e => inl e
  | inr group =>
  let dir := _get_optional_env environ "DATA_DIR" "data" in
  let name := _get_optional_env environ "DB_NAME" "database.db" in
  let max_str := _get_optional_env environ "MAX_DB_CONNECTIONS" "5" in
  match _parse_int max_str "MAX_DB_CONNECTIONS" with
  | inl e => inl e
  | inr max_conn =>
  let timeout_str := _get_optional_env environ "DB_TIMEOUT" "10.0" in
  match _parse_float timeout_str "DB_TIMEOUT" with
  | inl e => inl e
  | inr tmo => inr (mkConfig token group dir name max_conn tmo)
  end end end end end.

(** [get_config], with the module's [_config_instance] as state: the
    instance that is there is returned; otherwise the settings are read
    and, when that succeeds, kept. *)
Definition get_config (_config_instance : option Config) (environ : Environ)
  : (ConfigError + Config) * option Config :=
  match _config_instance with
  | Some config => (inr config, _config_instance)
  | None =>
      match load_config environ with
      | inl e => (inl e, None)
      | inr config => (inr config, Some config)
      end
  end.

End ConfigLoader.

(** A reader of plain decimal numerals (a sign and digits): what [int]
    reads from such strings.  Used for sample inputs. *)
Definition digit_of (c : Ascii.ascii) : option Z :=
  let n := Z.of_nat (Ascii.nat_of_ascii c) in
  if (48 <=? n) && (n <=? 57) then Some (n - 48) else None.

Fixpoint read_digits (acc : Z) (s : string) : option Z :=
  match s with
  | EmptyString => Some acc
  | String c rest =>
      match digit_of c with
      | Some d => read_digits (10 * acc + d) rest
      | None => None
      end
  end.

Definition read_decimal (s : string) : option Z :=
  match s with
  | EmptyString => None
  | String c rest =>
      if Ascii.eqb c (Ascii.ascii_of_nat 45)       (* the minus sign *)
      then match rest with
           | EmptyString => None
           | _ => option_map Z.opp (read_digits 0 rest)
           end
      else read_digits 0 s
  end.

(** What [float] reads from the sample strings: a decimal numeral, with
    ["10.0"] for ten. *)
Definition read_float (s : string) : option Q :=
  if String.eqb s "10.0" then Some (10 # 1)%Q
  else option_map (fun z => (z # 1)%Q) (read_decimal s).

Definition sample_environ : Environ :=
  [ ("BOT_TOKEN", "123456:token");
    ("SUPPORT_GROUP_ID", "-1001234567890") ].

(** * Properties *)

(** ** Facts about the table *)

Section TableFacts.

Variables (u t clock : Z) (rows : list Row).

Lemma find_app_split (p : Row -> bool) (l1 l2 : list Row) :
  find p (l1 ++ l2) =
  match find p l1 with
  | Some r => Some r
  | None => find p l2
  end.
Proof.
  induction l1 as [|r l1 IH]; simpl; [reflexivity|].
  destruct (p r); [reflexivity | exact IH].
Qed.

Lemma hd_error_filter (p : Row -> bool) (l : list Row) :
  hd_error (filter p l) = find p l.
Proof.
  induction l as [|r l IH]; simpl; [reflexivity|].
  destruct (p r); [reflexivity | exact IH].
Qed.

Lemma find_filter_excluded (p q : Row -> bool) (l : list Row) :
  (forall r, p r = true -> q r = false) ->
  find p (filter q l) = None.
Proof.
  intros Hpq. induction l as [|r l IH]; simpl; [reflexivity|].
  destruct (q r) eqn:Hq; [|exact IH].
  simpl. destruct (p r) eqn:Hp; [|exact IH].
  rewrite (Hpq r Hp) in Hq. discriminate.
Qed.

Lemma filter_filter_excluded (p q : Row -> bool) (l : list Row) :
  (forall r, p r = true -> q r = false) ->
  filter p (filter q l) = [].
Proof.
  intros Hpq. induction l as [|r l IH]; simpl; [reflexivity|].
  destruct (q r) eqn:Hq; [|exact IH].
  simpl. destruct (p r) eqn:Hp; [|exact IH].
  rewrite (Hpq r Hp) in Hq. discriminate.
Qed.

Lemma user_conflicts (r : Row) :
  (user_id r =? u) = true -> negb (conflicts u t r) = false.
Proof. unfold conflicts. intros ->. reflexivity. Qed.

Lemma topic_conflicts (r : Row) :
  (topic_id r =? t) = true -> negb (conflicts u t r) = false.
Proof. unfold conflicts. intros ->. rewrite orb_true_r. reflexivity. Qed.

(** After the upsert the row of [u] is the new one. *)
Lemma select_user_after_insert :
  find (fun r => user_id r =? u) (insert_or_replace u t clock rows)
  = Some (mkRow u t clock clock).
Proof.
  unfold insert_or_replace. rewrite find_app_split.
  rewrite find_filter_excluded by apply user_conflicts.
  simpl. rewrite Z.eqb_refl. reflexivity.
Qed.

(** After the upsert the row of [t] is the new one. *)
Lemma select_topic_after_insert :
  find (fun r => topic_id r =? t) (insert_or_replace u t clock rows)
  = Some (mkRow u t clock clock).
Proof.
  unfold insert_or_replace. rewrite find_app_split.
  rewrite find_filter_excluded by apply topic_conflicts.
  simpl. rewrite Z.eqb_refl. reflexivity.
Qed.

Lemma rows_for_user_after_insert :
  rows_for_user u (insert_or_replace u t clock rows) = 1%nat.
Proof.
  unfold rows_for_user, insert_or_replace. rewrite filter_app.
  rewrite filter_filter_excluded by apply user_conflicts.
  simpl. rewrite Z.eqb_refl. reflexivity.
Qed.

Lemma rows_for_topic_after_insert :
  rows_for_topic t (insert_or_replace u t clock rows) = 1%nat.
Proof.
  unfold rows_for_topic, insert_or_replace. rewrite filter_app.
  rewrite filter_filter_excluded by apply topic_conflicts.
  simpl. rewrite Z.eqb_refl. reflexivity.
Qed.

(** A row of another user and another topic survives the upsert. *)
Lemma In_insert_or_replace (r : Row) :
  In r (insert_or_replace u t clock rows) <->
  (In r rows /\ user_id r <> u /\ topic_id r <> t) \/
  r = mkRow u t clock clock.
Proof.
  unfold insert_or_replace. rewrite in_app_iff, filter_In. simpl.
  unfold conflicts. rewrite negb_true_iff, orb_false_iff, !Z.eqb_neq.
  intuition.
Qed.

Lemma select_user_after_delete :
  find (fun r => user_id r =? u) (delete_by_user u rows) = None.
Proof.
  unfold delete_by_user. apply find_filter_excluded.
  intros r ->. reflexivity.
Qed.

Lemma rowcount_delete_positive :
  (0 <? rowcount_delete u rows) = existsb (fun r => user_id r =? u) rows.
Proof.
  unfold rowcount_delete. induction rows as [|r l IH]; simpl; [reflexivity|].
  destruct (user_id r =? u); simpl; [|exact IH].
  apply Z.ltb_lt. lia.
Qed.

Lemma existsb_user_after_delete :
  existsb (fun r => user_id r =? u) (delete_by_user u rows) = false.
Proof.
  unfold delete_by_user. induction rows as [|r l IH]; simpl; [reflexivity|].
  destruct (user_id r =? u) eqn:E; simpl; [exact IH|].
  rewrite E. exact IH.
Qed.

Lemma delete_by_user_absent :
  existsb (fun r => user_id r =? u) rows = false ->
  delete_by_user u rows = rows.
Proof.
  unfold delete_by_user. induction rows as [|r l IH]; simpl; [reflexivity|].
  destruct (user_id r =? u); simpl; [discriminate|].
  intros H. rewrite (IH H). reflexivity.
Qed.

End TableFacts.

(** The columns of a filtered table are sublists of the columns. *)
Lemma NoDup_map_filter {B} (f : Row -> B) (p : Row -> bool) (l : list Row) :
  NoDup (map f l) -> NoDup (map f (filter p l)).
Proof.
  induction l as [|r l IH]; simpl; intros H; [constructor|].
  inversion H as [|x xs Hnotin Hnodup]; subst.
  destruct (p r); simpl; [|auto].
  constructor; [|auto].
  intros Hin. apply Hnotin.
  apply in_map_iff in Hin. destruct Hin as (r' & Heq & Hr').
  apply filter_In in Hr'. apply in_map_iff. exists r'. tauto.
Qed.

Lemma NoDup_snoc {B} (x : B) (l : list B) :
  NoDup l -> ~ In x l -> NoDup (l ++ [x]).
Proof.
  intros Hl Hx. apply NoDup_app; repeat split.
  - exact Hl.
  - constructor; [intros [] | constructor].
  - intros a Ha [Hax|[]]. subst. contradiction.
Qed.

Lemma bijective_insert_or_replace u t clock rows :
  bijective rows -> bijective (insert_or_replace u t clock rows).
Proof.
  intros [Hu Ht]. unfold bijective, insert_or_replace.
  rewrite !map_app. simpl. split; apply NoDup_snoc.
  - apply NoDup_map_filter. exact Hu.
  - intros Hin. apply in_map_iff in Hin. destruct Hin as (r & Heq & Hr).
    apply filter_In in Hr. destruct Hr as [_ Hr].
    rewrite (user_conflicts u t r) in Hr; [discriminate|].
    apply Z.eqb_eq. exact Heq.
  - apply NoDup_map_filter. exact Ht.
  - intros Hin. apply in_map_iff in Hin. destruct Hin as (r & Heq & Hr).
    apply filter_In in Hr. destruct Hr as [_ Hr].
    rewrite (topic_conflicts u t r) in Hr; [discriminate|].
    apply Z.eqb_eq. exact Heq.
Qed.

Lemma bijective_delete_by_user u rows :
  bijective rows -> bijective (delete_by_user u rows).
Proof.
  intros [Hu Ht]. split; apply NoDup_map_filter; assumption.
Qed.

(** ** The operations on a store that is [Ready] *)

Lemma succ_pred_slot (v : Z) : Z.succ (v - 1) = v.
Proof. lia. Qed.

Ltac open_world w :=
  destruct w as [[path cap tmo pool sem ini] [wal tbl idx trg] conns tr lg].

(** Unfolds an operation on a world whose semaphore has a free slot,
    in an environment that lets the operation through. *)
Ltac run_ready Hslot Hconn Hdrv Hcls :=
  unfold try_except, _get_connection, bind, get_manager, semaphore_acquire,
    wait_for_connect, driver_call;
  cbn [manager _semaphore];
  rewrite ?(proj2 (Z.ltb_lt _ _) Hslot), ?Hconn, ?Hdrv, ?Hcls;
  cbn;
  rewrite ?succ_pred_slot.

Section ReadyStore.

Variables (w : World) (env : Env).
Hypothesis w_ready : Ready w.
Hypothesis env_fine : env_ok env.

Lemma get_user_topic_ready uid :
  invalid_id uid = false ->
  fst (get_user_topic uid env w)
  = Return (option_map topic_id
              (select_by_user (int_value uid) (rows_of w))) /\
  Ready (snd (get_user_topic uid env w)) /\
  rows_of (snd (get_user_topic uid env w)) = rows_of w.
Proof.
  intros Hid. destruct w_ready as (Hi & (v & Hs & Hv) & (rows & Hr)).
  destruct env_fine as (Hc & Hd & Hx). clear w_ready.
  open_world w. cbn in Hi, Hs, Hr. subst.
  unfold get_user_topic. rewrite Hid.
  unfold get_user_topic_body. run_ready Hv Hc Hd Hx.
  rewrite hd_error_filter.
  repeat split; cbn; eauto.
Qed.

Lemma get_user_by_topic_ready tid :
  invalid_id tid = false ->
  fst (get_user_by_topic tid env w)
  = Return (option_map user_id
              (select_by_topic (int_value tid) (rows_of w))) /\
  Ready (snd (get_user_by_topic tid env w)) /\
  rows_of (snd (get_user_by_topic tid env w)) = rows_of w.
Proof.
  intros Hid. destruct w_ready as (Hi & (v & Hs & Hv) & (rows & Hr)).
  destruct env_fine as (Hc & Hd & Hx). clear w_ready.
  open_world w. cbn in Hi, Hs, Hr. subst.
  unfold get_user_by_topic. rewrite Hid.
  unfold get_user_by_topic_body. run_ready Hv Hc Hd Hx.
  rewrite hd_error_filter.
  repeat split; cbn; eauto.
Qed.

Lemma create_user_topic_ready uid tid :
  invalid_id uid = false ->
  invalid_id tid = false ->
  fst (create_user_topic uid tid env w) = Return tt /\
  Ready (snd (create_user_topic uid tid env w)) /\
  rows_of (snd (create_user_topic uid tid env w))
  = insert_or_replace (int_value uid) (int_value tid) (now env) (rows_of w).
Proof.
  intros Hu Ht. destruct w_ready as (Hi & (v & Hs & Hv) & (rows & Hr)).
  destruct env_fine as (Hc & Hd & Hx). clear w_ready.
  open_world w. cbn in Hi, Hs, Hr. subst.
  unfold create_user_topic. rewrite Hu, Ht.
  unfold create_user_topic_body. run_ready Hv Hc Hd Hx.
  repeat split; cbn; eauto.
Qed.

Lemma delete_user_topic_ready uid :
  invalid_id uid = false ->
  fst (delete_user_topic uid env w)
  = Return (existsb (fun r => user_id r =? int_value uid) (rows_of w)) /\
  Ready (snd (delete_user_topic uid env w)) /\
  rows_of (snd (delete_user_topic uid env w))
  = delete_by_user (int_value uid) (rows_of w).
Proof.
  intros Hid. destruct w_ready as (Hi & (v & Hs & Hv) & (rows & Hr)).
  destruct env_fine as (Hc & Hd & Hx). clear w_ready.
  open_world w. cbn in Hi, Hs, Hr. subst.
  unfold delete_user_topic. rewrite Hid.
  unfold delete_user_topic_body. run_ready Hv Hc Hd Hx.
  unfold try_finally, conn_execute_write, conn_commit, bind, emit,
    get_database, set_database, ret.
  cbn. rewrite rowcount_delete_positive.
  destruct (existsb _ rows); cbn; rewrite ?succ_pred_slot;
    repeat split; cbn; eauto.
Qed.

End ReadyStore.

Lemma positive_id_valid (z : Z) : 0 < z -> invalid_id (PyInt z) = false.
Proof.
  intros Hz. unfold invalid_id. simpl. apply Z.leb_gt. exact Hz.
Qed.

(** [initialize] on a new manager with room for a connection, over any
    file whose table, if there is one, is intact, makes the store ready
    and keeps the rows. *)
Lemma initialize_ready path max_conn tmo d env :
  0 < max_conn -> env_ok env ->
  let w := start_world (new_manager path max_conn tmo) d in
  fst (initialize env w) = Return tt /\
  Ready (snd (initialize env w)) /\
  rows_of (snd (initialize env w)) = rows_of w /\
  _semaphore (manager (snd (initialize env w))) = Some max_conn /\
  open_connections (snd (initialize env w)) = 0%nat.
Proof.
  intros Hn (Hc & Hd & Hx). destruct d as [jm us ix tg].
  unfold initialize, start_world, new_manager, new_semaphore.
  unfold bind at 1. cbn [get_manager manager _initialized].
  assert (Hneg : (max_conn <? 0) = false) by (apply Z.ltb_ge; lia).
  unfold bind at 1. unfold get_manager, set_semaphore.
  cbn. rewrite Hneg. cbn.
  run_ready Hn Hc Hd Hx.
  destruct us as [rows|]; cbn; rewrite ?succ_pred_slot;
    repeat split; cbn; eauto.
Qed.

(** Settles a closed side condition about the sample inputs by
    evaluating the definitions. *)
Ltac by_evaluation :=
  first
    [ lia
    | reflexivity
    | discriminate
    | repeat split; reflexivity
    | unfold Ready; cbn; repeat split;
      solve [ eexists; split; [reflexivity | lia] | eexists; reflexivity ] ].

(** ** Writes are visible through both lookups *)

(** C1.  On a ready store, for strictly positive [u] and [t], when the
    connections open and the driver does not fail:
    [create_user_topic(u, t)] returns, after it [get_user_topic(u)]
    returns [t], and [get_user_by_topic(t)] returns [u], whether it is
    asked right after the write or after the first lookup. *)
Theorem create_then_lookup (w : World) (u t : Z) (e1 e2 e3 : Env) :
  Ready w -> 0 < u -> 0 < t ->
  env_ok e1 -> env_ok e2 -> env_ok e3 ->
  let (r1, w1) := create_user_topic (PyInt u) (PyInt t) e1 w in
  let (r2, w2) := get_user_topic (PyInt u) e2 w1 in
  r1 = Return tt /\
  r2 = Return (Some t) /\
  fst (get_user_by_topic (PyInt t) e3 w1) = Return (Some u) /\
  fst (get_user_by_topic (PyInt t) e3 w2) = Return (Some u).
Proof.
  intros Hw Hu Ht H1 H2 H3.
  pose proof (positive_id_valid u Hu) as Vu.
  pose proof (positive_id_valid t Ht) as Vt.
  destruct (create_user_topic_ready w e1 Hw H1 _ _ Vu Vt) as (Hr1 & Hw1 & Hrows1).
  destruct (create_user_topic (PyInt u) (PyInt t) e1 w) as [r1 w1].
  cbn [fst snd] in *.
  destruct (get_user_topic_ready w1 e2 Hw1 H2 _ Vu) as (Hr2 & Hw2 & Hrows2).
  destruct (get_user_topic (PyInt u) e2 w1) as [r2 w2].
  cbn [fst snd] in *.
  destruct (get_user_by_topic_ready w1 e3 Hw1 H3 _ Vt) as (Hr3 & _).
  destruct (get_user_by_topic_ready w2 e3 Hw2 H3 _ Vt) as (Hr4 & _).
  rewrite Hr2, Hr3, Hr4, Hrows2, Hrows1. cbn [int_value].
  unfold select_by_user, select_by_topic.
  rewrite select_user_after_insert, select_topic_after_insert.
  repeat split; [exact Hr1].
Qed.

Lemma create_then_lookup_witness :
  Ready sample_world /\
  let (r1, w1) :=
    create_user_topic (PyInt 42) (PyInt 1001) sample_env sample_world in
  let (r2, w2) := get_user_topic (PyInt 42) sample_env w1 in
  r1 = Return tt /\
  r2 = Return (Some 1001) /\
  fst (get_user_by_topic (PyInt 1001) sample_env w1) = Return (Some 42) /\
  fst (get_user_by_topic (PyInt 1001) sample_env w2) = Return (Some 42).
Proof.
  split; [by_evaluation|].
  apply (create_then_lookup sample_world 42 1001
           sample_env sample_env sample_env); by_evaluation.
Defined.

(** ** The upsert *)

Lemma find_none_all (p : Row -> bool) (l : list Row) :
  (forall r, In r l -> p r = false) -> find p l = None.
Proof.
  induction l as [|r l IH]; simpl; intros H; [reflexivity|].
  rewrite (H r (or_introl eq_refl)). apply IH. intros r' Hr'. apply H. now right.
Qed.

(** After [u] went from [t1] to another topic [t2], no row has [t1]. *)
Lemma select_old_topic_after_upserts u t1 t2 c1 c2 rows :
  t1 <> t2 ->
  select_by_topic t1
    (insert_or_replace u t2 c2 (insert_or_replace u t1 c1 rows)) = None.
Proof.
  intros Hne. apply find_none_all. intros r Hr. apply Z.eqb_neq.
  apply In_insert_or_replace in Hr. destruct Hr as [(Hr & Hu & _) | ->].
  - apply In_insert_or_replace in Hr. destruct Hr as [(_ & _ & Ht) | ->].
    + exact Ht.
    + simpl in Hu. contradiction.
  - simpl. congruence.
Qed.

(** C2, amended.  On a ready store, for strictly positive [u], [t1],
    [t2], when the connections open and the driver does not fail:
    [create_user_topic(u, t1)] then [create_user_topic(u, t2)] both
    return and leave exactly one row for [u]; then [get_user_topic(u)]
    returns [t2], and [get_user_by_topic(t1)] returns none when [t1] and
    [t2] differ, and [u] when they are the same topic. *)
Theorem upsert_twice (w : World) (u t1 t2 : Z) (e1 e2 e3 e4 : Env) :
  Ready w -> 0 < u -> 0 < t1 -> 0 < t2 ->
  env_ok e1 -> env_ok e2 -> env_ok e3 -> env_ok e4 ->
  let (r1, w1) := create_user_topic (PyInt u) (PyInt t1) e1 w in
  let (r2, w2) := create_user_topic (PyInt u) (PyInt t2) e2 w1 in
  r1 = Return tt /\
  r2 = Return tt /\
  rows_for_user u (rows_of w2) = 1%nat /\
  fst (get_user_topic (PyInt u) e3 w2) = Return (Some t2) /\
  fst (get_user_by_topic (PyInt t1) e4 w2)
  = Return (if t1 =? t2 then Some u else None).
Proof.
  intros Hw Hu Ht1 Ht2 H1 H2 H3 H4.
  pose proof (positive_id_valid u Hu) as Vu.
  pose proof (positive_id_valid t1 Ht1) as V1.
  pose proof (positive_id_valid t2 Ht2) as V2.
  destruct (create_user_topic_ready w e1 Hw H1 _ _ Vu V1) as (Hr1 & Hw1 & Hrows1).
  destruct (create_user_topic (PyInt u) (PyInt t1) e1 w) as [r1 w1].
  cbn [fst snd] in *.
  destruct (create_user_topic_ready w1 e2 Hw1 H2 _ _ Vu V2) as (Hr2 & Hw2 & Hrows2).
  destruct (create_user_topic (PyInt u) (PyInt t2) e2 w1) as [r2 w2].
  cbn [fst snd int_value] in *.
  destruct (get_user_topic_ready w2 e3 Hw2 H3 _ Vu) as (Hr3 & _).
  destruct (get_user_by_topic_ready w2 e4 Hw2 H4 _ V1) as (Hr4 & _).
  rewrite Hr3, Hr4, Hrows2, Hrows1. cbn [int_value].
  repeat split; try assumption.
  - apply rows_for_user_after_insert.
  - unfold select_by_user. rewrite select_user_after_insert. reflexivity.
  - destruct (Z.eqb_spec t1 t2) as [->|Hne].
    + unfold select_by_topic. rewrite select_topic_after_insert. reflexivity.
    + rewrite select_old_topic_after_upserts by exact Hne. reflexivity.
Qed.

Lemma upsert_twice_witness :
  Ready sample_world /\
  let (r1, w1) :=
    create_user_topic (PyInt 42) (PyInt 1001) sample_env sample_world in
  let (r2, w2) := create_user_topic (PyInt 42) (PyInt 1002) sample_env w1 in
  r1 = Return tt /\
  r2 = Return tt /\
  rows_for_user 42 (rows_of w2) = 1%nat /\
  fst (get_user_topic (PyInt 42) sample_env w2) = Return (Some 1002) /\
  fst (get_user_by_topic (PyInt 1001) sample_env w2)
  = Return (if 1001 =? 1002 then Some 42 else None).
Proof.
  split; [by_evaluation|].
  apply (upsert_twice sample_world 42 1001 1002
           sample_env sample_env sample_env sample_env); by_evaluation.
Defined.

(** C2 as stated fails when the two calls name the same topic: the
    lookup of [t1] then finds [u]. *)
Lemma upsert_same_topic_counterexample :
  Ready sample_world /\ env_ok sample_env /\
  fst (get_user_by_topic (PyInt 5) sample_env
         (snd (create_user_topic (PyInt 1) (PyInt 5) sample_env
                 (snd (create_user_topic (PyInt 1) (PyInt 5) sample_env
                         sample_world)))))
  = Return (Some 1) /\
  ~ upsert_replaces sample_world 1 5 5
      sample_env sample_env sample_env sample_env.
Proof.
  split; [by_evaluation|]. split; [by_evaluation|].
  assert (E : fst (get_user_by_topic (PyInt 5) sample_env
                (snd (create_user_topic (PyInt 1) (PyInt 5) sample_env
                   (snd (create_user_topic (PyInt 1) (PyInt 5) sample_env
                           sample_world)))))
              = Return (Some 1))
    by (vm_compute; reflexivity).
  split; [exact E|].
  unfold upsert_replaces.
  destruct (create_user_topic (PyInt 1) (PyInt 5) sample_env sample_world)
    as [r1 w1].
  cbn [snd] in E.
  destruct (create_user_topic (PyInt 1) (PyInt 5) sample_env w1) as [r2 w2].
  cbn [snd] in E.
  intros (_ & _ & _ & _ & H). rewrite E in H. discriminate H.
Qed.

(** ** Deletion *)

(** Deleting a user that has no row returns false and changes no row. *)
Lemma delete_unmapped (w : World) (u : Z) (env : Env) :
  Ready w -> 0 < u -> env_ok env -> user_mapped u w = false ->
  fst (delete_user_topic (PyInt u) env w) = Return false /\
  Ready (snd (delete_user_topic (PyInt u) env w)) /\
  user_mapped u (snd (delete_user_topic (PyInt u) env w)) = false.
Proof.
  intros Hw Hu He Hno.
  destruct (delete_user_topic_ready w env Hw He _ (positive_id_valid u Hu))
    as (Hr & Hw' & Hrows).
  cbn [int_value] in *. unfold user_mapped in *.
  rewrite Hr, Hrows, Hno, existsb_user_after_delete. auto.
Qed.

Lemma delete_repeatedly_unmapped (u : Z) (envs : list Env) :
  forall w,
    Ready w -> 0 < u -> Forall env_ok envs -> user_mapped u w = false ->
    Forall (fun r => r = Return false) (delete_repeatedly (PyInt u) envs w).
Proof.
  induction envs as [|env envs IH]; intros w Hw Hu Hall Hno; simpl.
  - constructor.
  - inversion Hall as [|e es He Hes]; subst.
    destruct (delete_unmapped w u env Hw Hu He Hno) as (Hr & Hw' & Hno').
    destruct (delete_user_topic (PyInt u) env w) as [r w'].
    cbn [fst snd] in *. constructor; [exact Hr|].
    apply IH; assumption.
Qed.

(** C4.  On a ready store, for strictly positive [u], when the
    connections open and the driver does not fail:
    [delete_user_topic(u)] returns true when [u] has a row and false, not
    an error, when it has none; every later call, however many follow,
    returns false; and after the delete [get_user_topic(u)] returns
    none. *)
Theorem delete_once (w : World) (u : Z) (e1 e2 : Env) (later : list Env) :
  Ready w -> 0 < u ->
  env_ok e1 -> env_ok e2 -> Forall env_ok later ->
  let (r1, w1) := delete_user_topic (PyInt u) e1 w in
  r1 = Return (user_mapped u w) /\
  Forall (fun r => r = Return false) (delete_repeatedly (PyInt u) later w1) /\
  fst (get_user_topic (PyInt u) e2 w1) = Return None.
Proof.
  intros Hw Hu H1 H2 Hlater.
  pose proof (positive_id_valid u Hu) as Vu.
  destruct (delete_user_topic_ready w e1 Hw H1 _ Vu) as (Hr1 & Hw1 & Hrows1).
  destruct (delete_user_topic (PyInt u) e1 w) as [r1 w1].
  cbn [fst snd int_value] in *.
  assert (Hno : user_mapped u w1 = false).
  { unfold user_mapped. rewrite Hrows1. apply existsb_user_after_delete. }
  repeat split.
  - exact Hr1.
  - apply delete_repeatedly_unmapped; assumption.
  - destruct (get_user_topic_ready w1 e2 Hw1 H2 _ Vu) as (Hr2 & _).
    rewrite Hr2, Hrows1. cbn [int_value]. unfold select_by_user.
    rewrite select_user_after_delete. reflexivity.
Qed.

Lemma delete_once_witness :
  let w := snd (create_user_topic (PyInt 42) (PyInt 1001) sample_env
                  sample_world) in
  Ready w /\ user_mapped 42 w = true /\
  let (r1, w1) := delete_user_topic (PyInt 42) sample_env w in
  r1 = Return (user_mapped 42 w) /\
  Forall (fun r => r = Return false)
         (delete_repeatedly (PyInt 42) [sample_env; sample_env] w1) /\
  fst (get_user_topic (PyInt 42) sample_env w1) = Return None.
Proof.
  split; [by_evaluation|]. split; [by_evaluation|].
  apply (delete_once
           (snd (create_user_topic (PyInt 42) (PyInt 1001) sample_env
                   sample_world))
           42 sample_env sample_env [sample_env; sample_env]);
    try by_evaluation.
  repeat constructor.
Defined.

(** ** The table after any run of calls *)

(** Unfolds an operation on an arbitrary world and environment down to
    the case analysis on the gate, the connection and the driver. *)
Ltac run_any :=
  unfold try_except, _get_connection, bind, get_manager, semaphore_acquire,
    wait_for_connect, driver_call;
  cbn [manager _semaphore].

Ltac split_gate sem env :=
  destruct sem as [?value|]; [|cbn; auto];
  try (destruct (0 <? value); [|cbn; auto];
       destruct (connect env); cbn; auto).

Lemma create_user_topic_rows uid tid env w :
  rows_of (snd (create_user_topic uid tid env w)) = rows_of w \/
  rows_of (snd (create_user_topic uid tid env w))
  = insert_or_replace (int_value uid) (int_value tid) (now env) (rows_of w).
Proof.
  open_world w. unfold create_user_topic.
  destruct (invalid_id uid); [left; reflexivity|].
  destruct (invalid_id tid); [left; reflexivity|].
  unfold create_user_topic_body. run_any.
  split_gate sem env.
  destruct (close_fails env) as [closing|];
  destruct (driver_fails_at env) as [[[|[|j]] msg]|]; cbn; auto;
    destruct tbl; cbn; auto.
Qed.

Lemma delete_user_topic_rows uid env w :
  rows_of (snd (delete_user_topic uid env w)) = rows_of w \/
  rows_of (snd (delete_user_topic uid env w))
  = delete_by_user (int_value uid) (rows_of w).
Proof.
  open_world w. unfold delete_user_topic.
  destruct (invalid_id uid); [left; reflexivity|].
  unfold delete_user_topic_body. run_any.
  split_gate sem env.
  destruct (close_fails env) as [closing|];
  destruct (driver_fails_at env) as [[[|[|j]] msg]|]; cbn; auto;
    destruct tbl as [rows|]; cbn; auto;
    unfold try_finally, bind; cbn;
    destruct (0 <? rowcount_delete (int_value uid) rows); cbn; auto.
Qed.

Lemma get_user_topic_database uid env w :
  database (snd (get_user_topic uid env w)) = database w.
Proof.
  open_world w. unfold get_user_topic.
  destruct (invalid_id uid); [reflexivity|].
  unfold get_user_topic_body. run_any.
  split_gate sem env.
  destruct (close_fails env) as [closing|];
  destruct (driver_fails_at env) as [[[|[|j]] msg]|]; cbn; auto;
    destruct tbl; cbn; auto.
Qed.

Lemma get_user_by_topic_database tid env w :
  database (snd (get_user_by_topic tid env w)) = database w.
Proof.
  open_world w. unfold get_user_by_topic.
  destruct (invalid_id tid); [reflexivity|].
  unfold get_user_by_topic_body. run_any.
  split_gate sem env.
  destruct (close_fails env) as [closing|];
  destruct (driver_fails_at env) as [[[|[|j]] msg]|]; cbn; auto;
    destruct tbl; cbn; auto.
Qed.

Lemma run_call_bijective c env w :
  bijective (rows_of w) -> bijective (rows_of (snd (run_call c env w))).
Proof.
  intros Hb. destruct c as [uid|uid tid|tid|uid]; unfold run_call.
  - pose proof (get_user_topic_database uid env w) as H.
    destruct (get_user_topic uid env w) as [r w']. cbn [snd] in *.
    unfold rows_of. rewrite H. exact Hb.
  - destruct (create_user_topic_rows uid tid env w) as [H|H];
      destruct (create_user_topic uid tid env w) as [r w']; cbn [snd] in *;
      rewrite H; [exact Hb | apply bijective_insert_or_replace; exact Hb].
  - pose proof (get_user_by_topic_database tid env w) as H.
    destruct (get_user_by_topic tid env w) as [r w']. cbn [snd] in *.
    unfold rows_of. rewrite H. exact Hb.
  - destruct (delete_user_topic_rows uid env w) as [H|H];
      destruct (delete_user_topic uid env w) as [r w']; cbn [snd] in *;
      rewrite H; [exact Hb | apply bijective_delete_by_user; exact Hb].
Qed.

(** A column without repetition has at most one row per value. *)
Lemma at_most_one_row (f : Row -> Z) (x : Z) (rows : list Row) :
  NoDup (map f rows) ->
  (List.length (filter (fun r => (f r =? x)%Z) rows) <= 1)%nat.
Proof.
  induction rows as [|r rows IH]; simpl; intros H; [lia|].
  inversion H as [|y ys Hnotin Hnodup]; subst.
  destruct (Z.eqb_spec (f r) x) as [Heq|Hne]; [|auto].
  simpl. replace (filter (fun r0 => f r0 =? x) rows) with (@nil Row);
    [simpl; lia|].
  symmetry. clear IH H Hnodup.
  induction rows as [|r' rows IH']; simpl; [reflexivity|].
  destruct (Z.eqb_spec (f r') x) as [Heq'|Hne'].
  - exfalso. apply Hnotin. simpl. left. congruence.
  - apply IH'. intros Hin. apply Hnotin. simpl. right. exact Hin.
Qed.

(** However [initialize] ends on a new file, the table it leaves has no
    row, so a new store starts from a bijection. *)
Lemma initialize_new_file_rows (m : DatabaseManager) (env : Env) :
  rows_of (snd (initialize env (start_world m empty_database))) = [].
Proof.
  destruct m as [path cap tmo pool sem ini].
  unfold initialize, start_world, empty_database, new_semaphore.
  unfold bind at 1. cbn [get_manager manager _initialized].
  destruct ini; [reflexivity|].
  unfold bind at 1. cbn [max_connections].
  destruct (cap <? 0); [reflexivity|].
  unfold set_semaphore, bind at 1. cbn.
  run_any. cbn.
  destruct (0 <? cap); [|reflexivity].
  destruct (connect env); cbn; try reflexivity.
  destruct (close_fails env) as [closing|];
  destruct (driver_fails_at env) as [[[|[|[|[|[|[|j]]]]]] msg]|]; reflexivity.
Qed.

Lemma empty_table_bijective : bijective [].
Proof. split; constructor. Qed.

(** C3.  Whatever calls follow one another on the store, with whatever
    arguments and whatever the connections and the driver do, a table
    whose two columns hold no value twice stays so: every [user_id] and
    every [topic_id] is in at most one row.  The table of a new store
    is empty ([initialize_new_file_rows]), so it starts as one. *)
Theorem table_stays_bijective (w : World) (calls : list (Call * Env)) :
  bijective (rows_of w) ->
  bijective (rows_of (run_calls calls w)) /\
  (forall u, (rows_for_user u (rows_of (run_calls calls w)) <= 1)%nat) /\
  (forall t, (rows_for_topic t (rows_of (run_calls calls w)) <= 1)%nat).
Proof.
  intros Hb.
  assert (Hfinal : bijective (rows_of (run_calls calls w))).
  { revert w Hb. induction calls as [|[c env] calls IH]; intros w Hb; simpl.
    - exact Hb.
    - apply IH. apply run_call_bijective. exact Hb. }
  split; [exact Hfinal|]. destruct Hfinal as [Hu Ht].
  split; intros x; [apply (at_most_one_row user_id) | apply (at_most_one_row topic_id)];
    assumption.
Qed.

Lemma table_stays_bijective_witness :
  let calls := [ (CallCreateUserTopic (PyInt 1) (PyInt 5), sample_env);
                 (CallCreateUserTopic (PyInt 2) (PyInt 5), sample_env);
                 (CallDeleteUserTopic (PyInt 1), sample_env);
                 (CallCreateUserTopic (PyInt 2) (PyInt 7), sample_env) ] in
  bijective (rows_of sample_world) /\
  bijective (rows_of (run_calls calls sample_world)) /\
  (forall u, (rows_for_user u (rows_of (run_calls calls sample_world)) <= 1)%nat) /\
  (forall t, (rows_for_topic t (rows_of (run_calls calls sample_world)) <= 1)%nat).
Proof.
  assert (H0 : bijective (rows_of sample_world))
    by (cbn; split; constructor).
  split; [exact H0|].
  apply (table_stays_bijective sample_world). exact H0.
Defined.

(** ** A topic that changes hands *)

Lemma same_key_same_row (f : Row -> Z) (rows : list Row) (a b : Row) :
  NoDup (map f rows) -> In a rows -> In b rows -> f a = f b -> a = b.
Proof.
  induction rows as [|r rows IH]; simpl; intros H Ha Hb Hab; [contradiction|].
  inversion H as [|y ys Hnotin Hnodup]; subst.
  destruct Ha as [->|Ha], Hb as [->|Hb].
  - reflexivity.
  - exfalso. apply Hnotin. rewrite Hab. apply in_map. exact Hb.
  - exfalso. apply Hnotin. rewrite <- Hab. apply in_map. exact Ha.
  - apply IH; assumption.
Qed.

(** C10.  On a ready store whose table is a bijection, when topic [t]
    belongs to [u1] and the connections open and the driver does not
    fail: [create_user_topic(u2, t)] for another user [u2] returns
    normally, the row of [u1] is gone ([get_user_topic(u1)] returns
    none) and [get_user_by_topic(t)] returns [u2]. *)
Theorem create_takes_topic_over (w : World) (u1 u2 t : Z) (e1 e2 e3 : Env) :
  Ready w -> bijective (rows_of w) ->
  0 < u1 -> 0 < u2 -> 0 < t -> u1 <> u2 ->
  (exists r, In r (rows_of w) /\ user_id r = u1 /\ topic_id r = t) ->
  env_ok e1 -> env_ok e2 -> env_ok e3 ->
  let (r1, w1) := create_user_topic (PyInt u2) (PyInt t) e1 w in
  r1 = Return tt /\
  fst (get_user_topic (PyInt u1) e2 w1) = Return None /\
  fst (get_user_by_topic (PyInt t) e3 w1) = Return (Some u2).
Proof.
  intros Hw [Hnd _] Hu1 Hu2 Ht Hne (r & Hin & Hru & Hrt) H1 H2 H3.
  pose proof (positive_id_valid u1 Hu1) as V1.
  pose proof (positive_id_valid u2 Hu2) as V2.
  pose proof (positive_id_valid t Ht) as Vt.
  destruct (create_user_topic_ready w e1 Hw H1 _ _ V2 Vt) as (Hr1 & Hw1 & Hrows1).
  destruct (create_user_topic (PyInt u2) (PyInt t) e1 w) as [r1 w1].
  cbn [fst snd int_value] in *.
  destruct (get_user_topic_ready w1 e2 Hw1 H2 _ V1) as (Hr2 & _).
  destruct (get_user_by_topic_ready w1 e3 Hw1 H3 _ Vt) as (Hr3 & _).
  rewrite Hr2, Hr3, Hrows1. cbn [int_value].
  repeat split; [exact Hr1 | | ].
  - unfold select_by_user. rewrite find_none_all; [reflexivity|].
    intros r' Hr'. apply Z.eqb_neq.
    apply In_insert_or_replace in Hr'.
    destruct Hr' as [(Hin' & _ & Htopic) | ->]; [|simpl; congruence].
    intros Huser. apply Htopic.
    rewrite (same_key_same_row user_id (rows_of w) r' r Hnd Hin' Hin);
      congruence.
  - unfold select_by_topic. rewrite select_topic_after_insert. reflexivity.
Qed.

Lemma create_takes_topic_over_witness :
  let w := snd (create_user_topic (PyInt 1) (PyInt 5) sample_env
                  sample_world) in
  fst (get_user_by_topic (PyInt 5) sample_env w) = Return (Some 1) /\
  let (r1, w1) := create_user_topic (PyInt 2) (PyInt 5) sample_env w in
  r1 = Return tt /\
  fst (get_user_topic (PyInt 1) sample_env w1) = Return None /\
  fst (get_user_by_topic (PyInt 5) sample_env w1) = Return (Some 2).
Proof.
  split; [by_evaluation|].
  apply (create_takes_topic_over
           (snd (create_user_topic (PyInt 1) (PyInt 5) sample_env
                   sample_world))
           1 2 5 sample_env sample_env sample_env);
    try by_evaluation.
  - cbn. split; repeat constructor; simpl; tauto.
  - cbn. eexists. split; [left; reflexivity|]. split; reflexivity.
Defined.

(** ** Validation *)

Lemma invalid_id_iff (v : PyVal) :
  non_integer_or_non_positive v <-> invalid_id v = true.
Proof.
  unfold non_integer_or_non_positive, invalid_id.
  rewrite orb_true_iff, negb_true_iff, Z.leb_le. reflexivity.
Qed.

(** C8.  A call of any of the four operations with an identifier that
    is not an integer or is not strictly positive raises [ValueError],
    a class other than [DatabaseError], and leaves the whole world as it
    was: the semaphore, the connection count, the database, the trace of
    gate and driver effects, and the log. *)
Theorem invalid_identifier_rejected
    (c : Call) (bad : PyVal) (env : Env) (w : World) :
  non_integer_or_non_positive bad ->
  call_mentions c bad ->
  error_kind (fst (run_call c env w)) = Some ValueError /\
  ValueError <> DatabaseError /\
  snd (run_call c env w) = w.
Proof.
  intros Hbad Hc. apply invalid_id_iff in Hbad.
  split; [|split; [discriminate|]];
    destruct c as [uid|uid tid|tid|uid]; cbn in Hc; unfold run_call.
  - subst. unfold get_user_topic. rewrite Hbad. reflexivity.
  - unfold create_user_topic. destruct Hc as [->| ->].
    + rewrite Hbad. reflexivity.
    + destruct (invalid_id uid); [reflexivity|]. rewrite Hbad. reflexivity.
  - subst. unfold get_user_by_topic. rewrite Hbad. reflexivity.
  - subst. unfold delete_user_topic. rewrite Hbad. reflexivity.
  - subst. unfold get_user_topic. rewrite Hbad. reflexivity.
  - unfold create_user_topic. destruct Hc as [->| ->].
    + rewrite Hbad. reflexivity.
    + destruct (invalid_id uid); [reflexivity|]. rewrite Hbad. reflexivity.
  - subst. unfold get_user_by_topic. rewrite Hbad. reflexivity.
  - subst. unfold delete_user_topic. rewrite Hbad. reflexivity.
Qed.

Lemma invalid_identifier_rejected_witness :
  non_integer_or_non_positive (PyInt (-3)) /\
  error_kind (fst (run_call (CallCreateUserTopic (PyInt 7) (PyInt (-3)))
                            sample_env sample_world))
  = Some ValueError /\
  ValueError <> DatabaseError /\
  snd (run_call (CallCreateUserTopic (PyInt 7) (PyInt (-3)))
                sample_env sample_world) = sample_world.
Proof.
  split; [right; simpl; lia|].
  apply (invalid_identifier_rejected
           (CallCreateUserTopic (PyInt 7) (PyInt (-3))) (PyInt (-3))).
  - right. simpl. lia.
  - simpl. right. reflexivity.
Defined.

(** X24.  The error of a rejected identifier names the argument and
    prints the value: "Некорректный user_id: " or
    "Некорректный topic_id: " followed by the value; in
    [create_user_topic] the user identifier is checked first. *)
Lemma invalid_identifier_messages (bad other : PyVal) (env : Env) (w : World) :
  invalid_id bad = true ->
  get_user_topic bad env w
  = (Raise (mkExc ValueError ("Некорректный user_id: " +++ py_str bad)), w) /\
  delete_user_topic bad env w
  = (Raise (mkExc ValueError ("Некорректный user_id: " +++ py_str bad)), w) /\
  get_user_by_topic bad env w
  = (Raise (mkExc ValueError ("Некорректный topic_id: " +++ py_str bad)), w) /\
  create_user_topic bad other env w
  = (Raise (mkExc ValueError ("Некорректный user_id: " +++ py_str bad)), w) /\
  (invalid_id other = false ->
   create_user_topic other bad env w
   = (Raise (mkExc ValueError ("Некорректный topic_id: " +++ py_str bad)), w)).
Proof.
  intros Hbad.
  unfold get_user_topic, delete_user_topic, get_user_by_topic,
    create_user_topic.
  rewrite Hbad. repeat split. intros ->. reflexivity.
Qed.

(** ** Error kinds *)

Ltac split_driver env :=
  destruct (close_fails env) as [closing|];
  destruct (driver_fails_at env) as [[[|[|?j]] ?msg]|]; cbn; auto.

(** On a ready store a call with valid identifiers surfaces a
    connection timeout as [timeout_error] and any other failure of the
    connection or of the driver as [wrapped_error]; an error of
    [conn.close()] takes the place of the error of the block, if there
    was one. *)
Lemma run_call_failures (w : World) (c : Call) (env : Env) :
  Ready w -> valid_call c = true ->
  (connect env = ConnectTimeout ->
   fst (run_call c env w) = Raise timeout_error) /\
  (forall msg,
     connect env = ConnectFails msg ->
     fst (run_call c env w) = Raise (wrapped_error (mkExc DriverError msg))) /\
  (forall i msg,
     connect env = Connected ->
     driver_fails_at env = Some (i, msg) -> (i < 2)%nat ->
     close_fails env = None ->
     fst (run_call c env w) = Raise (wrapped_error (mkExc DriverError msg))) /\
  (forall msg,
     connect env = Connected ->
     close_fails env = Some msg ->
     fst (run_call c env w) = Raise (wrapped_error (mkExc DriverError msg))).
Proof.
  intros (Hi & (v & Hs & Hv) & (rows & Hr)) Hvalid.
  open_world w. cbn in Hi, Hs, Hr. subst.
  apply Z.ltb_lt in Hv.
  destruct c as [uid|uid tid|tid|uid]; cbn in Hvalid;
    [ apply negb_true_iff in Hvalid
    | apply andb_true_iff in Hvalid;
      rewrite !negb_true_iff in Hvalid
    | apply negb_true_iff in Hvalid
    | apply negb_true_iff in Hvalid ];
    unfold run_call, get_user_topic, create_user_topic, get_user_by_topic,
      delete_user_topic;
    match type of Hvalid with
    | _ /\ _ => destruct Hvalid as [Hu Ht]; rewrite Hu, Ht
    | _ => rewrite Hvalid
    end;
    unfold get_user_topic_body, create_user_topic_body,
      get_user_by_topic_body, delete_user_topic_body;
    run_any; rewrite Hv;
    (split; [intros ->; reflexivity|]);
    (split; [intros msg ->; reflexivity|]);
    (split;
     [ intros i msg -> -> Hlt ->;
       destruct i as [|[|i]]; [reflexivity | reflexivity | lia] |]);
    intros msg -> ->;
    destruct (driver_fails_at env) as [[[|[|j]] m]|]; cbn; try reflexivity;
    unfold try_finally, bind; cbn;
    match goal with
    | |- context [0 <? rowcount_delete ?a ?b] =>
        destruct (0 <? rowcount_delete a b)
    end; reflexivity.
Qed.

(** The claim as stated: the error of a connection timeout is of
    another kind than the error that wraps a failed connection. *)
Lemma timeout_kind_counterexample :
  Ready sample_world /\
  error_kind (fst (get_user_topic (PyInt 42) (mkEnv ConnectTimeout None 0 None)
                     sample_world))
  = Some DatabaseError /\
  error_kind (fst (get_user_topic (PyInt 42)
                     (mkEnv (ConnectFails "unable to open database file")
                            None 0 None)
                     sample_world))
  = Some DatabaseError /\
  ~ (error_kind (fst (get_user_topic (PyInt 42) (mkEnv ConnectTimeout None 0 None)
                        sample_world))
     <> error_kind (fst (get_user_topic (PyInt 42)
                           (mkEnv (ConnectFails "unable to open database file")
                                  None 0 None)
                           sample_world))).
Proof.
  split; [by_evaluation|].
  assert (E1 : error_kind (fst (get_user_topic (PyInt 42)
                                  (mkEnv ConnectTimeout None 0 None) sample_world))
               = Some DatabaseError) by (vm_compute; reflexivity).
  assert (E2 : error_kind (fst (get_user_topic (PyInt 42)
                                  (mkEnv (ConnectFails
                                            "unable to open database file")
                                         None 0 None)
                                  sample_world))
               = Some DatabaseError) by (vm_compute; reflexivity).
  rewrite E1, E2. repeat split. intros H. apply H. reflexivity.
Qed.

Lemma wrapped_message_differs (e : Exc) :
  exc_msg (wrapped_error e) <> exc_msg timeout_error.
Proof. cbn. intros H. discriminate H. Qed.

(** C7, amended.  On a ready store, for a call of any of the four
    operations with valid identifiers: a connection that does not open
    within the timeout surfaces as a [DatabaseError] whose message is
    "Таймаут операции БД"; a connection or driver failure surfaces as a
    [DatabaseError] too, with the message "Ошибка БД: " followed by the
    cause: the failure to connect, the failure of a driver call of the
    block when the connection then closes, or the failure of
    [conn.close()], whatever the block did.  The two have the same
    class and never the same message. *)
Theorem timeout_surfaces_as_database_error
    (w : World) (c : Call) (env : Env) :
  Ready w -> valid_call c = true ->
  (connect env = ConnectTimeout ->
   fst (run_call c env w)
   = Raise (mkExc DatabaseError "Таймаут операции БД")) /\
  (forall msg,
     connect env = ConnectFails msg ->
     fst (run_call c env w)
     = Raise (mkExc DatabaseError ("Ошибка БД: " +++ msg))) /\
  (forall i msg,
     connect env = Connected ->
     driver_fails_at env = Some (i, msg) -> (i < 2)%nat ->
     close_fails env = None ->
     fst (run_call c env w)
     = Raise (mkExc DatabaseError ("Ошибка БД: " +++ msg))) /\
  (forall msg,
     connect env = Connected ->
     close_fails env = Some msg ->
     fst (run_call c env w)
     = Raise (mkExc DatabaseError ("Ошибка БД: " +++ msg))) /\
  (forall cause,
     exc_class (wrapped_error cause) = exc_class timeout_error /\
     exc_msg (wrapped_error cause) <> exc_msg timeout_error).
Proof.
  intros Hw Hc.
  destruct (run_call_failures w c env Hw Hc) as (H1 & H2 & H3 & H4).
  repeat split; try assumption.
  apply wrapped_message_differs.
Qed.

Lemma timeout_surfaces_as_database_error_witness :
  Ready sample_world /\
  fst (run_call (CallDeleteUserTopic (PyInt 42))
                (mkEnv ConnectTimeout None 0 None) sample_world)
  = Raise (mkExc DatabaseError "Таймаут операции БД").
Proof.
  split; [by_evaluation|].
  apply (timeout_surfaces_as_database_error sample_world
           (CallDeleteUserTopic (PyInt 42)) (mkEnv ConnectTimeout None 0 None));
    by_evaluation.
Defined.

(** ** Operations outside the ready state *)

(** X25.  Before [initialize], a call with valid identifiers is
    refused: the guard of [_get_connection] raises, the operation wraps
    and logs the error, and neither the gate, the driver nor the
    database is touched. *)
Lemma uninitialized_store_refuses (w : World) (c : Call) (env : Env) :
  _semaphore (manager w) = None -> valid_call c = true ->
  fst (run_call c env w) = Raise not_initialized_error /\
  manager (snd (run_call c env w)) = manager w /\
  database (snd (run_call c env w)) = database w /\
  trace (snd (run_call c env w)) = trace w.
Proof.
  intros Hs Hvalid. open_world w. cbn in Hs. subst.
  destruct c as [uid|uid tid|tid|uid]; cbn in Hvalid;
    [ apply negb_true_iff in Hvalid
    | apply andb_true_iff in Hvalid;
      rewrite !negb_true_iff in Hvalid
    | apply negb_true_iff in Hvalid
    | apply negb_true_iff in Hvalid ];
    unfold run_call, get_user_topic, create_user_topic, get_user_by_topic,
      delete_user_topic;
    match type of Hvalid with
    | _ /\ _ => destruct Hvalid as [Hu Ht]; rewrite Hu, Ht
    | _ => rewrite Hvalid
    end;
    run_any; cbn; auto.
Qed.

(** [close] clears the flag and leaves the semaphore in place. *)
Lemma close_keeps_semaphore (w : World) :
  _pool (manager w) = [] ->
  fst (close w) = Return tt /\
  _initialized (manager (snd (close w))) = false /\
  _semaphore (manager (snd (close w))) = _semaphore (manager w) /\
  database (snd (close w)) = database w /\
  open_connections (snd (close w)) = open_connections w.
Proof.
  intros Hp. open_world w. cbn in Hp. subst. cbn. auto.
Qed.

(** After [close] the operations still run: on a store that was ready,
    a write and the lookup after it succeed. *)
Lemma closed_store_still_serves (w : World) (u t : Z) (e1 e2 : Env) :
  Ready w -> _pool (manager w) = [] -> 0 < u -> 0 < t ->
  env_ok e1 -> env_ok e2 ->
  let wc := snd (close w) in
  _initialized (manager wc) = false /\
  fst (create_user_topic (PyInt u) (PyInt t) e1 wc) = Return tt /\
  fst (get_user_topic (PyInt u) e2
         (snd (create_user_topic (PyInt u) (PyInt t) e1 wc)))
  = Return (Some t).
Proof.
  intros (Hi & (v & Hs & Hv) & (rows & Hr)) Hp Hu Ht (Hc1 & Hd1 & Hx1) (Hc2 & Hd2 & Hx2).
  pose proof (positive_id_valid u Hu) as Vu.
  pose proof (positive_id_valid t Ht) as Vt.
  open_world w. cbn in Hi, Hs, Hr, Hp. subst.
  cbn [close]. unfold close. cbn.
  split; [reflexivity|].
  unfold create_user_topic. rewrite Vu, Vt.
  unfold create_user_topic_body. run_ready Hv Hc1 Hd1 Hx1.
  split; [reflexivity|].
  unfold get_user_topic. rewrite Vu.
  unfold get_user_topic_body. run_ready Hv Hc2 Hd2 Hx2.
  rewrite hd_error_filter.
  fold (insert_or_replace u t (now e1) rows).
  rewrite select_user_after_insert. reflexivity.
Qed.

(** C6, at the failing input.  Once [close] has run on the sample store
    that holds the row (42, 1001), the flag says the manager is not
    initialized, and yet [get_user_topic(42)] executes and returns 1001,
    [delete_user_topic(42)] executes and returns true; only a manager
    that never was initialized refuses the call. *)
Theorem operations_run_after_close :
  let closed := snd (close sample_world_with_row) in
  _initialized (manager closed) = false /\
  fst (get_user_topic (PyInt 42) sample_env closed) = Return (Some 1001) /\
  fst (delete_user_topic (PyInt 42) sample_env closed) = Return true /\
  fst (get_user_topic (PyInt 42) sample_env
         (start_world sample_manager empty_database))
  = Raise not_initialized_error.
Proof.
  cbv zeta. repeat split; vm_compute; reflexivity.
Qed.

(** ** The lifecycle *)

(** When the polling task is done with an exception, [run_bot] does
    not raise it: having built the bot, it closes the session and
    returns. *)
Lemma run_bot_swallows_polling_failure
    (e : Exc) (stop : bool) (after_cancel : option Exc) (w : World) :
  let renv := mkRunEnv None (DoneRaised e) stop after_cancel None in
  fst (run_bot renv w) = Return tt /\
  In EvSessionClose (trace (snd (run_bot renv w))) /\
  log (snd (run_bot renv w))
  = log w ++ [mkLog INFO "Бот запущен и готов к работе";
              mkLog INFO "Бот корректно завершил работу"].
Proof.
  destruct w as [m d oc tr lg]. cbv zeta.
  destruct stop; cbn; rewrite <- ?app_assoc; cbn;
    (split; [reflexivity|]); (split; [|reflexivity]);
    rewrite !in_app_iff; cbn; tauto.
Qed.

(** C9, at the failing input.  The message loop fails with
    "polling failed" while no shutdown was asked for; the bot was built
    and the session closes.  [run_bot] returns
    normally whatever the failure is; [main], run on the sample
    configuration, returns normally as well, so the process exits with
    status 0; the session is closed, then the store; no record of the
    failure is logged, the log holds the lines of an orderly stop. *)
Theorem polling_failure_does_not_propagate :
  (forall e stop after_cancel w,
     fst (run_bot (mkRunEnv None (DoneRaised e) stop after_cancel None) w) = Return tt) /\
  let run := main sample_config sample_env polling_failure
               (start_world sample_manager empty_database) in
  fst run = Return tt /\
  exit_status (fst run) = Some 0 /\
  Forall (fun record => level record = INFO) (log (snd run)) /\
  map message (log (snd run))
  = [ "База данных инициализирована";
      "Запуск бота технической поддержки...";
      "Бот запущен и готов к работе";
      "Бот корректно завершил работу";
      "База данных закрыта";
      "Бот остановлен" ] /\
  skipn 10 (trace (snd run)) = [EvCancel "shutdown_task"; EvSessionClose].
Proof.
  split.
  - intros e stop after_cancel w.
    apply (run_bot_swallows_polling_failure e stop after_cancel w).
  - cbv zeta. repeat split; try (vm_compute; reflexivity).
    vm_compute. repeat constructor.
Qed.

(** ** The admission gate under interleaving *)

Lemma call_body_gate_neutral (c : Call) (env : Env) (w : World) :
  fst (call_body c env w) <> Pending /\
  manager (snd (call_body c env w)) = manager w /\
  open_connections (snd (call_body c env w)) = open_connections w.
Proof.
  open_world w.
  destruct c as [uid|uid tid|tid|uid]; unfold call_body, discard,
    get_user_topic_body, create_user_topic_body, get_user_by_topic_body,
    delete_user_topic_body, driver_call, bind;
    destruct (driver_fails_at env) as [[[|[|j]] msg]|]; cbn;
    try (repeat split; discriminate);
    destruct tbl as [rows|]; cbn; try (repeat split; discriminate).
  all: destruct (0 <? rowcount_delete (int_value uid) rows); cbn; repeat split; discriminate.
Qed.

(** Settles a goal about the acquires and releases of a trace that was
    extended by known events. *)
Ltac count_events :=
  unfold acquires, releases; cbn [trace];
  rewrite ?filter_app; cbn; rewrite ?app_nil_r, ?length_app; cbn;
  try lia; auto.

(** The block of a call neither takes nor gives back a slot. *)
Lemma call_body_trace (c : Call) (env : Env) (w : World) :
  acquires (snd (call_body c env w)) = acquires w /\
  releases (snd (call_body c env w)) = releases w.
Proof.
  open_world w.
  destruct c as [uid|uid tid|tid|uid]; unfold call_body, discard,
    get_user_topic_body, create_user_topic_body, get_user_by_topic_body,
    delete_user_topic_body, driver_call, bind;
    destruct (driver_fails_at env) as [[[|[|j]] msg]|]; cbn;
    try solve [split; count_events];
    destruct tbl as [rows|]; cbn; try solve [split; count_events].
  all: destruct (0 <? rowcount_delete (int_value uid) rows); cbn; solve [split; count_events].
Qed.

(** Updates of the task list. *)
Lemma set_nth_same {A} (l : list A) : forall i x,
  nth_error l i = Some x -> set_nth i x l = l.
Proof.
  induction l as [|y l IH]; intros [|i] x H; simpl in *; try discriminate.
  - congruence.
  - rewrite (IH i x H). reflexivity.
Qed.

Lemma count_set_nth (p : Task -> bool) (ts : list Task) : forall i t t',
  nth_error ts i = Some t ->
  (count_tasks p (set_nth i t' ts) + Nat.b2n (p t)
   = count_tasks p ts + Nat.b2n (p t'))%nat.
Proof.
  unfold count_tasks.
  induction ts as [|y ts IH]; intros [|i] t t' H; simpl in *; try discriminate.
  - injection H as ->. destruct (p t), (p t'); simpl; lia.
  - specialize (IH i t t' H). destruct (p y); simpl; lia.
Qed.

Lemma work_left_set_nth (ts : list Task) : forall i t t',
  nth_error ts i = Some t ->
  (work_left (set_nth i t' ts) + remaining t
   = work_left ts + remaining t')%nat.
Proof.
  induction ts as [|y ts IH]; intros [|i] t t' H; simpl in *; try discriminate.
  - injection H as ->. lia.
  - specialize (IH i t t' H). lia.
Qed.

Lemma length_set_nth {A} (l : list A) : forall i x,
  List.length (set_nth i x l) = List.length l.
Proof.
  induction l as [|y l IH]; intros [|i] x; simpl; auto.
Qed.

(** What a resumption does to the gate. *)
Lemma resume_gate (t : Task) (w : World) (value : Z) :
  _semaphore (manager w) = Some value -> 0 <= value ->
  (Nat.b2n (holds_connection t) <= open_connections w)%nat ->
  exists value',
    _semaphore (manager (snd (resume t w))) = Some value' /\
    0 <= value' /\
    value' + Z.of_nat (Nat.b2n (holds_slot (fst (resume t w))))
    = value + Z.of_nat (Nat.b2n (holds_slot t)) /\
    (open_connections (snd (resume t w)) + Nat.b2n (holds_connection t)
     = open_connections w + Nat.b2n (holds_connection (fst (resume t w))))%nat.
Proof.
  intros Hs Hv Ho. destruct t as [c env ph].
  destruct ph; unfold resume, holds_slot, holds_connection in *; cbn [phase task_call task_env at_phase] in *.
  - (* AtAcquire *)
    destruct (valid_call c); [|exists value; cbn; repeat split; auto; lia].
    rewrite Hs. unfold semaphore_acquire.
    destruct (Z.ltb_spec 0 value).
    + open_world w. cbn in *. subst. exists (value - 1). repeat split; cbn; lia.
    + exists value; cbn; repeat split; auto; lia.
  - (* AtConnect *)
    open_world w. cbn in *. subst. unfold wait_for_connect.
    destruct (connect env); cbn; eexists; (split; [reflexivity|]); cbn; repeat split; lia.
  - (* InBody *)
    destruct (call_body_gate_neutral c env w) as (Hnp & Hm & Hoc).
    destruct (call_body c env w) as [[a|e|] w1]; cbn in *; try congruence;
      exists value; rewrite ?Hm, ?Hoc; repeat split; auto; lia.
  - (* AtClose *)
    open_world w. cbn in *. subst.
    destruct (close_fails env); cbn;
      eexists; (split; [reflexivity|]); cbn; repeat split; lia.
  - exists value; cbn; repeat split; auto; lia.
  - exists value; cbn; repeat split; auto; lia.
Qed.

Lemma count_member (p : Task -> bool) (ts : list Task) : forall i t,
  nth_error ts i = Some t -> (Nat.b2n (p t) <= count_tasks p ts)%nat.
Proof.
  unfold count_tasks.
  induction ts as [|y ts IH]; intros [|i] t H; simpl in *; try discriminate.
  - injection H as ->. destruct (p t); simpl; lia.
  - specialize (IH i t H). destruct (p y); simpl; lia.
Qed.

Lemma step_invariant (capacity : Z) (i : nat) (s : System) :
  gate_invariant capacity s -> gate_invariant capacity (step i s).
Proof.
  intros (v & Hs & Hv & Hsum & Hopen). unfold step.
  destruct (nth_error (tasks s) i) as [t|] eqn:Hi;
    [|exists v; auto].
  pose proof (count_member holds_connection _ _ _ Hi) as Hmem.
  rewrite <- Hopen in Hmem.
  destruct (resume_gate t (world s) v Hs Hv Hmem) as (v' & Hs' & Hv' & Hslot & Hconn).
  pose proof (count_set_nth holds_slot _ i t (fst (resume t (world s))) Hi) as C1.
  pose proof (count_set_nth holds_connection _ i t (fst (resume t (world s))) Hi) as C2.
  destruct (resume t (world s)) as [t' w']. cbn [fst snd world tasks] in *.
  exists v'. cbn [world tasks]. repeat split; try assumption; lia.
Qed.

Lemma exec_cons (i : nat) (schedule : list nat) (s : System) :
  exec (i :: schedule) s = exec schedule (step i s).
Proof. reflexivity. Qed.

Lemma exec_app (l1 l2 : list nat) (s : System) :
  exec (l1 ++ l2) s = exec l2 (exec l1 s).
Proof. unfold exec. apply fold_left_app. Qed.

Lemma exec_invariant (capacity : Z) (schedule : list nat) :
  forall s, gate_invariant capacity s ->
            gate_invariant capacity (exec schedule s).
Proof.
  induction schedule as [|i l IH]; intros s H; [exact H|].
  rewrite exec_cons. apply IH. apply step_invariant. exact H.
Qed.

Lemma count_holds_connection_le (ts : list Task) :
  (count_tasks holds_connection ts <= count_tasks holds_slot ts)%nat.
Proof.
  unfold count_tasks, holds_connection, holds_slot.
  induction ts as [|t ts IH]; simpl; [lia|].
  destruct (phase t); simpl; lia.
Qed.

Lemma invariant_bounds_connections (capacity : Z) (s : System) :
  gate_invariant capacity s ->
  Z.of_nat (open_connections (world s)) <= capacity.
Proof.
  intros (v & Hs & Hv & Hsum & Hopen).
  pose proof (count_holds_connection_le (tasks s)). lia.
Qed.

Lemma start_system_invariant (capacity : Z) (w : World) calls :
  _semaphore (manager w) = Some capacity -> 0 <= capacity ->
  open_connections w = 0%nat ->
  gate_invariant capacity (start_system w calls).
Proof.
  intros Hs Hc Ho. exists capacity. cbn [world tasks start_system].
  assert (H : forall p, (forall t, phase t = AtAcquire -> p t = false) ->
              count_tasks p (map (fun c => mkTask (fst c) (snd c) AtAcquire) calls) = 0%nat).
  { intros p Hp. unfold count_tasks. induction calls as [|c cs IH]; simpl; [reflexivity|].
    rewrite Hp by reflexivity. exact IH. }
  rewrite !H; [repeat split; try assumption; lia | |];
    intros t Ht; unfold holds_connection, holds_slot; rewrite Ht; reflexivity.
Qed.

(** A resumption never adds work, and one that removes none changes
    nothing. *)
Lemma resume_measure (t : Task) (w : World) :
  (remaining (fst (resume t w)) <= remaining t)%nat /\
  (remaining (fst (resume t w)) = remaining t -> resume t w = (t, w)).
Proof.
  destruct t as [c env ph].
  destruct ph; unfold resume, remaining; cbn [phase task_call task_env at_phase].
  - destruct (valid_call c); [|cbn; split; [lia|discriminate]].
    destruct (_semaphore (manager w)) as [v|]; [|cbn; split; [lia|discriminate]].
    unfold semaphore_acquire. destruct (0 <? v); cbn; split; try lia; try discriminate; reflexivity.
  - destruct (wait_for_connect env w) as [[a|e|] w1]; cbn; split; try lia; discriminate.
  - destruct (call_body_gate_neutral c env w) as (Hnp & _).
    destruct (call_body c env w) as [[a|e|] w1]; cbn in *; try congruence;
      split; try lia; discriminate.
  - destruct (close_fails env); cbn; split; try lia; discriminate.
  - cbn. split; [lia|reflexivity].
  - cbn. split; [lia|reflexivity].
Qed.

(** A task that holds a slot and has not ended can always be resumed
    with effect, and so can a task at the gate while a slot is free. *)
Lemma resume_enabled (t : Task) (w : World) (value : Z) :
  _semaphore (manager w) = Some value ->
  in_flight t = true \/ (phase t = AtAcquire /\ 0 < value) ->
  (remaining (fst (resume t w)) < remaining t)%nat.
Proof.
  intros Hs H. destruct t as [c env ph].
  destruct ph; unfold resume, remaining, in_flight in *;
    cbn [phase task_call task_env at_phase] in *.
  - destruct H as [H|[_ H]]; [discriminate|].
    destruct (valid_call c); [|cbn; lia]. rewrite Hs.
    unfold semaphore_acquire. rewrite (proj2 (Z.ltb_lt _ _) H). cbn. lia.
  - destruct (wait_for_connect env w) as [[a|e|] w1]; cbn; lia.
  - destruct (call_body_gate_neutral c env w) as (Hnp & _).
    destruct (call_body c env w) as [[a|e|] w1]; cbn in *; try congruence; lia.
  - destruct (close_fails env); cbn; lia.
  - destruct H as [H|[H _]]; discriminate.
  - destruct H as [H|[H _]]; discriminate.
Qed.

Lemma step_measure (i : nat) (s : System) :
  (work_left (tasks (step i s)) <= work_left (tasks s))%nat /\
  (work_left (tasks (step i s)) = work_left (tasks s) -> step i s = s).
Proof.
  unfold step. destruct (nth_error (tasks s) i) as [t|] eqn:Hi; [|split; auto].
  destruct (resume_measure t (world s)) as [Hle Heq].
  pose proof (work_left_set_nth _ i t (fst (resume t (world s))) Hi) as Hw.
  destruct (resume t (world s)) as [t' w']. cbn [fst snd tasks] in *.
  split; [lia|]. intros E.
  assert (E' : remaining t' = remaining t) by lia.
  specialize (Heq E'). injection Heq as -> ->.
  rewrite (set_nth_same _ _ _ Hi). destruct s; reflexivity.
Qed.

Lemma exec_measure (schedule : list nat) :
  forall s, (work_left (tasks (exec schedule s)) <= work_left (tasks s))%nat.
Proof.
  induction schedule as [|i l IH]; intros s; [simpl; lia|].
  rewrite exec_cons.
  specialize (IH (step i s)). pose proof (proj1 (step_measure i s)). lia.
Qed.

Lemma exec_stuck (schedule : list nat) :
  forall s,
    work_left (tasks (exec schedule s)) = work_left (tasks s) ->
    forall i, In i schedule -> step i s = s.
Proof.
  induction schedule as [|j l IH]; intros s H i Hin; [contradiction|].
  rewrite exec_cons in H.
  pose proof (exec_measure l (step j s)) as H1.
  destruct (step_measure j s) as [H2 H3].
  assert (Hj : step j s = s) by (apply H3; lia).
  destruct Hin as [->|Hin]; [exact Hj|].
  apply IH; [rewrite Hj in H; exact H | exact Hin].
Qed.

Lemma step_length (i : nat) (s : System) :
  List.length (tasks (step i s)) = List.length (tasks s).
Proof.
  unfold step. destruct (nth_error (tasks s) i) as [t|]; [|reflexivity].
  destruct (resume t (world s)) as [t' w']. cbn. apply length_set_nth.
Qed.

Lemma exec_length (schedule : list nat) :
  forall s, List.length (tasks (exec schedule s)) = List.length (tasks s).
Proof.
  induction schedule as [|i l IH]; intros s; [reflexivity|].
  rewrite exec_cons, IH. apply step_length.
Qed.

Lemma count_positive (p : Task -> bool) (ts : list Task) :
  (0 < count_tasks p ts)%nat ->
  exists i t, nth_error ts i = Some t /\ p t = true.
Proof.
  unfold count_tasks. induction ts as [|y ts IH]; simpl; intros H; [lia|].
  destruct (p y) eqn:Hy.
  - exists 0%nat, y. auto.
  - destruct (IH H) as (i & t & Hi & Ht). exists (S i), t. auto.
Qed.

Lemma work_left_positive (ts : list Task) :
  (0 < work_left ts)%nat ->
  exists i t, nth_error ts i = Some t /\ is_finished t = false.
Proof.
  induction ts as [|y ts IH]; simpl; intros H; [lia|].
  destruct (is_finished y) eqn:Hy.
  - assert (remaining y = 0%nat)
      by (unfold is_finished, remaining in *; destruct (phase y); congruence).
    destruct IH as (i & t & Hi & Ht); [lia|]. exists (S i), t. auto.
  - exists 0%nat, y. auto.
Qed.

Lemma step_at (i : nat) (s : System) (t : Task) :
  nth_error (tasks s) i = Some t ->
  (work_left (tasks (step i s)) + remaining t
   = work_left (tasks s) + remaining (fst (resume t (world s))))%nat.
Proof.
  intros Hi. unfold step. rewrite Hi.
  pose proof (work_left_set_nth _ i t (fst (resume t (world s))) Hi) as Hw.
  destruct (resume t (world s)) as [t' w']. cbn [fst tasks] in *. exact Hw.
Qed.

(** The tasks whose slot is taken are those on their way and those that
    ended without the release. *)
Lemma count_holds_slot_split (ts : list Task) :
  count_tasks holds_slot ts
  = (count_tasks in_flight ts + count_tasks is_leaked ts)%nat.
Proof.
  unfold count_tasks, holds_slot, in_flight, is_leaked.
  induction ts as [|t ts IH]; simpl; [reflexivity|].
  destruct (phase t); simpl; lia.
Qed.

Lemma count_leaked_bound (ts : list Task) :
  forallb well_formed ts = true ->
  (count_tasks is_leaked ts <= count_tasks close_can_fail ts)%nat.
Proof.
  unfold count_tasks. induction ts as [|t ts IH]; simpl; intros H; [lia|].
  apply andb_true_iff in H. destruct H as [Ht Hts]. specialize (IH Hts).
  unfold well_formed in Ht. apply andb_true_iff in Ht. destruct Ht as [_ Ht].
  destruct (is_leaked t), (close_can_fail t); simpl in *; try discriminate; lia.
Qed.

(** A resumption changes neither the call nor the environment of the
    task, and keeps it well formed. *)
Lemma resume_same_call (t : Task) (w : World) :
  task_call (fst (resume t w)) = task_call t /\
  task_env (fst (resume t w)) = task_env t.
Proof.
  destruct t as [c env ph].
  destruct ph; unfold resume; cbn [phase task_call task_env at_phase].
  - destruct (valid_call c); [|auto].
    destruct (_semaphore (manager w)) as [v|]; [|auto].
    destruct (semaphore_acquire v w) as [[a|e|] w1]; auto.
  - destruct (wait_for_connect env w) as [[a|e|] w1]; auto.
  - destruct (call_body c env w) as [[a|e|] w1]; auto.
  - destruct (conn_close (close_fails env) w) as [[a|e|] w1]; auto.
  - auto.
  - auto.
Qed.

Lemma resume_well_formed (t : Task) (w : World) :
  well_formed t = true -> well_formed (fst (resume t w)) = true.
Proof.
  destruct t as [c env ph]. unfold well_formed, holds_slot, is_leaked,
    close_can_fail.
  destruct ph; unfold resume; cbn [phase task_call task_env at_phase]; intros H.
  - destruct (valid_call c) eqn:V; [|reflexivity].
    destruct (_semaphore (manager w)) as [v|]; [|reflexivity].
    destruct (semaphore_acquire v w) as [[a|e|] w1]; cbn; rewrite ?V; auto.
  - destruct (wait_for_connect env w) as [[a|e|] w1]; cbn in *; auto.
  - destruct (call_body c env w) as [[a|e|] w1]; cbn in *; auto.
  - unfold conn_close. destruct (close_fails env) eqn:E; cbn in *;
      rewrite ?E, ?andb_true_r in *; auto.
  - exact H.
  - exact H.
Qed.

(** What a resumption adds to the trace: an acquire when the task
    passes the gate, a release when it ends after one. *)
Lemma resume_trace (t : Task) (w : World) (value : Z) :
  _semaphore (manager w) = Some value ->
  well_formed t = true ->
  (acquires (snd (resume t w)) + Nat.b2n (passed_gate t)
   = acquires w + Nat.b2n (passed_gate (fst (resume t w))))%nat /\
  (releases (snd (resume t w)) + Nat.b2n (gave_back t)
   = releases w + Nat.b2n (gave_back (fst (resume t w))))%nat.
Proof.
  intros Hs Hwf. destruct t as [c env ph].
  unfold well_formed, holds_slot, is_leaked, close_can_fail in Hwf.
  unfold passed_gate, gave_back, at_acquire.
  destruct ph; unfold resume; cbn [phase task_call task_env at_phase] in *.
  - (* AtAcquire *)
    destruct (valid_call c) eqn:V; [|cbn; rewrite V; cbn; lia].
    rewrite Hs. unfold semaphore_acquire.
    destruct (0 <? value); [|cbn; rewrite V; cbn; lia].
    open_world w. cbn. rewrite V. split; count_events.
  - (* AtConnect *)
    cbn in Hwf. rewrite andb_true_r in Hwf. rewrite Hwf.
    open_world w. cbn in Hs. subst. unfold wait_for_connect.
    destruct (connect env); cbn; rewrite ?Hwf; split; count_events.
  - (* InBody *)
    cbn in Hwf. rewrite andb_true_r in Hwf. rewrite Hwf.
    destruct (call_body_trace c env w) as [Ha Hr].
    destruct (call_body c env w) as [[a|e|] w1]; cbn [fst snd] in *;
      cbn; rewrite ?Hwf; cbn; lia.
  - (* AtClose *)
    cbn in Hwf. rewrite andb_true_r in Hwf. rewrite Hwf.
    open_world w. cbn in Hs. subst. unfold conn_close.
    destruct (close_fails env); cbn; rewrite ?Hwf; split; count_events.
  - cbn. lia.
  - cbn. lia.
Qed.

Lemma forallb_nth_error {A} (p : A -> bool) (l : list A) : forall i x,
  forallb p l = true -> nth_error l i = Some x -> p x = true.
Proof.
  induction l as [|y l IH]; intros [|i] x H Hi; simpl in *; try discriminate;
    apply andb_true_iff in H; destruct H as [Hy Hl].
  - congruence.
  - eapply IH; eassumption.
Qed.

Lemma forallb_set_nth {A} (p : A -> bool) (l : list A) : forall i x,
  forallb p l = true -> p x = true -> forallb p (set_nth i x l) = true.
Proof.
  induction l as [|y l IH]; intros [|i] x H Hx; simpl in *; try reflexivity;
    apply andb_true_iff in H; destruct H as [Hy Hl].
  - rewrite Hx, Hl. reflexivity.
  - rewrite Hy, IH by assumption. reflexivity.
Qed.

Lemma step_trace_invariant (capacity : Z) (w0 : World) (i : nat) (s : System) :
  gate_invariant capacity s ->
  trace_invariant w0 s -> trace_invariant w0 (step i s).
Proof.
  intros (v & Hs & _) (Ha & Hr & Hwf). unfold step.
  destruct (nth_error (tasks s) i) as [t|] eqn:Hi; [|repeat split; assumption].
  pose proof (forallb_nth_error _ _ _ _ Hwf Hi) as Ht.
  destruct (resume_trace t (world s) v Hs Ht) as [Ta Tr].
  pose proof (resume_well_formed t (world s) Ht) as Tw.
  pose proof (count_set_nth passed_gate _ i t (fst (resume t (world s))) Hi) as C1.
  pose proof (count_set_nth gave_back _ i t (fst (resume t (world s))) Hi) as C2.
  destruct (resume t (world s)) as [t' w']. cbn [fst snd world tasks] in *.
  unfold trace_invariant. cbn [world tasks].
  split; [lia|]. split; [lia|]. apply forallb_set_nth; assumption.
Qed.

Lemma exec_trace_invariant (capacity : Z) (w0 : World) (schedule : list nat) :
  forall s, gate_invariant capacity s ->
            trace_invariant w0 s -> trace_invariant w0 (exec schedule s).
Proof.
  induction schedule as [|i l IH]; intros s Hg Ht; [exact Ht|].
  rewrite exec_cons. apply IH.
  - apply step_invariant. exact Hg.
  - apply (step_trace_invariant capacity); assumption.
Qed.

(** A count that looks at the call and the environment of the tasks
    only is the same in every state of a run. *)
Lemma step_count_fixed (p : Task -> bool) (i : nat) (s : System) :
  (forall t w, p (fst (resume t w)) = p t) ->
  count_tasks p (tasks (step i s)) = count_tasks p (tasks s).
Proof.
  intros Hp. unfold step.
  destruct (nth_error (tasks s) i) as [t|] eqn:Hi; [|reflexivity].
  pose proof (count_set_nth p _ i t (fst (resume t (world s))) Hi) as C.
  rewrite Hp in C.
  destruct (resume t (world s)) as [t' w']. cbn [fst tasks] in *. lia.
Qed.

Lemma exec_count_fixed (p : Task -> bool) (schedule : list nat) :
  (forall t w, p (fst (resume t w)) = p t) ->
  forall s, count_tasks p (tasks (exec schedule s)) = count_tasks p (tasks s).
Proof.
  intros Hp. induction schedule as [|i l IH]; intros s; [reflexivity|].
  rewrite exec_cons, IH. apply step_count_fixed. exact Hp.
Qed.

Lemma close_can_fail_fixed (t : Task) (w : World) :
  close_can_fail (fst (resume t w)) = close_can_fail t.
Proof.
  unfold close_can_fail. rewrite (proj2 (resume_same_call t w)). reflexivity.
Qed.

Lemma valid_call_fixed (t : Task) (w : World) :
  valid_call (task_call (fst (resume t w))) = valid_call (task_call t).
Proof. rewrite (proj1 (resume_same_call t w)). reflexivity. Qed.

(** While an operation is unfinished and fewer slots can be lost than
    the gate has, some task can be resumed with effect. *)
Lemma gate_progress (capacity : Z) (s : System) :
  gate_invariant capacity s ->
  forallb well_formed (tasks s) = true ->
  Z.of_nat (count_tasks close_can_fail (tasks s)) < capacity ->
  (0 < work_left (tasks s))%nat ->
  exists i,
    (i < List.length (tasks s))%nat /\
    (work_left (tasks (step i s)) < work_left (tasks s))%nat.
Proof.
  intros (v & Hs & Hv & Hsum & Hopen) Hwf Hleak Hwork.
  destruct (Nat.eq_dec (count_tasks in_flight (tasks s)) 0) as [Hnone|Hsome].
  - destruct (work_left_positive _ Hwork) as (i & t & Hi & Ht).
    exists i. split; [apply nth_error_Some; congruence|].
    pose proof (count_member in_flight _ _ _ Hi) as Hm.
    assert (Hph : phase t = AtAcquire).
    { unfold is_finished, in_flight in *.
      destruct (phase t); simpl in *; try lia; congruence. }
    pose proof (count_holds_slot_split (tasks s)) as Hsplit.
    pose proof (count_leaked_bound _ Hwf) as Hbound.
    assert (Hfree : 0 < v) by lia.
    pose proof (resume_enabled t (world s) v Hs (or_intror (conj Hph Hfree))).
    pose proof (step_at i s t Hi). lia.
  - destruct (count_positive in_flight (tasks s)) as (i & t & Hi & Ht); [lia|].
    exists i. split; [apply nth_error_Some; congruence|].
    pose proof (resume_enabled t (world s) v Hs (or_introl Ht)).
    pose proof (step_at i s t Hi). lia.
Qed.

(** One turn of the round-robin schedule brings an unfinished system
    forward. *)
Lemma round_makes_progress (capacity : Z) (s : System) :
  gate_invariant capacity s ->
  forallb well_formed (tasks s) = true ->
  Z.of_nat (count_tasks close_can_fail (tasks s)) < capacity ->
  (0 < work_left (tasks s))%nat ->
  (work_left (tasks (exec (seq 0 (List.length (tasks s))) s))
   < work_left (tasks s))%nat.
Proof.
  intros Hinv Hwf Hleak Hwork.
  pose proof (exec_measure (seq 0 (List.length (tasks s))) s) as Hle.
  destruct (Nat.eq_dec
              (work_left (tasks (exec (seq 0 (List.length (tasks s))) s)))
              (work_left (tasks s))) as [Heq|Hne]; [|lia].
  exfalso.
  destruct (gate_progress capacity s Hinv Hwf Hleak Hwork) as (i & Hi & Hlt).
  rewrite (exec_stuck _ s Heq i) in Hlt; [lia|].
  apply in_seq. lia.
Qed.

Lemma round_robin_finishes (capacity : Z) (w0 : World) (k : nat) :
  forall s,
    gate_invariant capacity s ->
    trace_invariant w0 s ->
    Z.of_nat (count_tasks close_can_fail (tasks s)) < capacity ->
    (work_left (tasks (exec (round_robin k (List.length (tasks s))) s))
     <= work_left (tasks s) - k)%nat.
Proof.
  induction k as [|k IH]; intros s Hinv Htr Hleak; cbn [round_robin].
  - simpl. lia.
  - rewrite exec_app.
    set (s1 := exec (seq 0 (List.length (tasks s))) s).
    assert (Hlen : List.length (tasks s1) = List.length (tasks s))
      by apply exec_length.
    assert (Hinv1 : gate_invariant capacity s1)
      by (apply exec_invariant; exact Hinv).
    assert (Htr1 : trace_invariant w0 s1)
      by (apply (exec_trace_invariant capacity); assumption).
    assert (Hleak1 : Z.of_nat (count_tasks close_can_fail (tasks s1)) < capacity).
    { unfold s1. rewrite exec_count_fixed by apply close_can_fail_fixed.
      exact Hleak. }
    specialize (IH s1 Hinv1 Htr1 Hleak1). rewrite Hlen in IH.
    destruct (Nat.eq_dec (work_left (tasks s)) 0) as [Hz|Hnz].
    + pose proof (exec_measure (seq 0 (List.length (tasks s))) s) as H.
      fold s1 in H. lia.
    + assert (Hpos : (0 < work_left (tasks s))%nat) by lia.
      pose proof (round_makes_progress capacity s Hinv (proj2 (proj2 Htr))
                    Hleak Hpos) as H.
      fold s1 in H. lia.
Qed.

Lemma no_work_left (ts : list Task) :
  work_left ts = 0%nat -> forallb is_finished ts = true.
Proof.
  induction ts as [|t ts IH]; simpl; intros H; [reflexivity|].
  rewrite IH by lia.
  unfold is_finished, remaining in *.
  destruct (phase t); simpl in *; try lia; reflexivity.
Qed.

(** Once every operation has ended, the slots still taken and the
    connections still open are those of the operations that ended
    without the release; every valid call has passed the gate, and has
    given its slot back unless it is one of those. *)
Lemma finished_counts (ts : list Task) :
  forallb is_finished ts = true ->
  forallb well_formed ts = true ->
  count_tasks holds_slot ts = count_tasks is_leaked ts /\
  count_tasks holds_connection ts = count_tasks is_leaked ts /\
  count_tasks passed_gate ts
  = count_tasks (fun t => valid_call (task_call t)) ts /\
  (count_tasks gave_back ts + count_tasks is_leaked ts
   = count_tasks (fun t => valid_call (task_call t)) ts)%nat.
Proof.
  unfold count_tasks.
  induction ts as [|t ts IH]; simpl; intros H Hwf; [auto|].
  apply andb_true_iff in H. destruct H as [Ht Hts].
  apply andb_true_iff in Hwf. destruct Hwf as [Wt Wts].
  destruct (IH Hts Wts) as (I1 & I2 & I3 & I4).
  destruct t as [c env ph].
  unfold is_finished, well_formed, holds_slot, holds_connection, is_leaked,
    passed_gate, gave_back, at_acquire in *.
  cbn [phase task_call task_env] in *.
  destruct ph; try discriminate; destruct (valid_call c); simpl in *;
    try discriminate; repeat split; lia.
Qed.

Lemma start_system_work (w : World) calls :
  work_left (tasks (start_system w calls)) = (4 * List.length calls)%nat.
Proof.
  unfold start_system. cbn [tasks].
  induction calls as [|c cs IH]; simpl in *; [reflexivity|]. rewrite IH. lia.
Qed.

Lemma start_system_trace_invariant (w : World) calls :
  trace_invariant w (start_system w calls).
Proof.
  unfold trace_invariant, start_system, count_tasks. cbn [world tasks].
  assert (H : forall p,
             (forall t, phase t = AtAcquire -> p t = false) ->
             filter p (map (fun c => mkTask (fst c) (snd c) AtAcquire) calls)
             = []).
  { intros p Hp. induction calls as [|c cs IH]; simpl; [reflexivity|].
    rewrite Hp by reflexivity. exact IH. }
  rewrite !H.
  - simpl. repeat split; try lia. clear H.
    induction calls as [|c cs IH]; simpl; [reflexivity|]. exact IH.
  - intros t Ht. unfold gave_back. rewrite Ht. apply andb_false_r.
  - intros t Ht. unfold passed_gate, at_acquire. rewrite Ht. apply andb_false_r.
Qed.

Lemma start_system_counts (w : World) calls :
  count_tasks close_can_fail (tasks (start_system w calls))
  = closing_failures calls /\
  count_tasks (fun t => valid_call (task_call t)) (tasks (start_system w calls))
  = valid_calls calls.
Proof.
  unfold count_tasks, start_system, closing_failures, valid_calls,
    close_can_fail. cbn [tasks].
  induction calls as [|[c env] cs [IH1 IH2]]; simpl; [auto|].
  destruct (close_fails env), (valid_call c); simpl; rewrite IH1, IH2; auto.
Qed.



(** With no slot to take, a call with valid identifiers waits. *)
Lemma no_slot_suspends (c : Call) (env : Env) (w : World) :
  _semaphore (manager w) = Some 0 -> valid_call c = true ->
  fst (run_call c env w) = Pending.
Proof.
  intros Hs Hvalid. open_world w. cbn in Hs. subst.
  destruct c as [uid|uid tid|tid|uid]; cbn in Hvalid;
    [ apply negb_true_iff in Hvalid
    | apply andb_true_iff in Hvalid;
      rewrite !negb_true_iff in Hvalid
    | apply negb_true_iff in Hvalid
    | apply negb_true_iff in Hvalid ];
    unfold run_call, get_user_topic, create_user_topic, get_user_by_topic,
      delete_user_topic;
    match type of Hvalid with
    | _ /\ _ => destruct Hvalid as [Hu Ht]; rewrite Hu, Ht
    | _ => rewrite Hvalid
    end;
    run_any; reflexivity.
Qed.

Ltac gate_cases env tbl fin :=
  run_any;
  match goal with
  | H : (0 <? _) = true |- _ => rewrite H
  end;
  destruct (connect env); cbn; rewrite ?succ_pred_slot; try solve [fin];
  destruct (close_fails env) as [closing|];
  destruct (driver_fails_at env) as [[[|[|j]] msg]|]; cbn;
    rewrite ?succ_pred_slot; try solve [fin];
    destruct tbl as [rows|]; cbn; rewrite ?succ_pred_slot;
    try solve [fin].

(** What a call does to the gate of a store that has a free slot: it
    ends, and every way out gives the slot back and closes the
    connection, except the one through an exception of [conn.close()],
    which leaves the slot taken and the connection open. *)
Lemma run_call_gate (c : Call) (env : Env) (w : World) (value : Z) :
  _semaphore (manager w) = Some value -> 0 < value ->
  let w' := snd (run_call c env w) in
  fst (run_call c env w) <> Pending /\
  _initialized (manager w') = _initialized (manager w) /\
  if close_will_fail c env
  then _semaphore (manager w') = Some (value - 1) /\
       open_connections w' = S (open_connections w)
  else manager w' = manager w /\
       open_connections w' = open_connections w.
Proof.
  intros Hs Hv. apply Z.ltb_lt in Hv. open_world w. cbn in Hs. subst sem.
  unfold close_will_fail, closing_fails. cbv zeta.
  destruct c as [uid|uid tid|tid|uid];
    unfold run_call, get_user_topic, create_user_topic, get_user_by_topic,
      delete_user_topic, valid_call.
  - destruct (invalid_id uid); [cbn; repeat split; discriminate|].
    unfold get_user_topic_body.
    gate_cases env tbl ltac:(repeat split; discriminate).
  - destruct (invalid_id uid); [cbn; repeat split; discriminate|].
    destruct (invalid_id tid); [cbn; repeat split; discriminate|].
    unfold create_user_topic_body.
    gate_cases env tbl ltac:(repeat split; discriminate).
  - destruct (invalid_id tid); [cbn; repeat split; discriminate|].
    unfold get_user_by_topic_body.
    gate_cases env tbl ltac:(repeat split; discriminate).
  - destruct (invalid_id uid); [cbn; repeat split; discriminate|].
    unfold delete_user_topic_body.
    gate_cases env tbl ltac:(repeat split; discriminate).
    all: unfold try_finally, bind; cbn;
      destruct (0 <? rowcount_delete (int_value uid) rows); cbn;
      rewrite ?succ_pred_slot; repeat split; discriminate.
Qed.

(** A task resumed four times with no other task around does what
    [_get_connection] does around the block of its call. *)
Lemma lone_task_is_get_connection (c : Call) (env : Env) (w : World) :
  valid_call c = true ->
  (exists value, _semaphore (manager w) = Some value /\ 0 < value) ->
  world (exec [0; 0; 0; 0]%nat (start_system w [(c, env)]))
  = snd (_get_connection env (call_body c env) w).
Proof.
  intros Hvalid (v & Hs & Hv). apply Z.ltb_lt in Hv.
  open_world w. cbn in Hs. subst.
  unfold exec, start_system. cbn [map fst snd fold_left].
  unfold step at 4. cbn [tasks nth_error world].
  unfold resume at 1. cbn [phase task_call task_env at_phase].
  rewrite Hvalid. cbn [manager _semaphore].
  unfold _get_connection, bind at 1. cbn [get_manager manager _semaphore fst snd].
  unfold semaphore_acquire. rewrite Hv.
  cbn. unfold wait_for_connect.
  destruct (connect env); cbn; try reflexivity.
  unfold try_finally, step, resume; cbn.
  match goal with
  | |- context [call_body c env ?w1] =>
      destruct (call_body_gate_neutral c env w1) as (Hnp & Hm & Ho);
      destruct (call_body c env w1) as [[a|e|] w2] eqn:Hbody
  end; cbn in *; try (exfalso; apply Hnp; reflexivity);
    destruct (close_fails env); reflexivity.
Qed.


(** * Further properties of the code *)

(** ** What the operations leave alone *)

Lemma find_filter_keep (p q : Row -> bool) (l : list Row) (r : Row) :
  find p l = Some r -> q r = true -> find p (filter q l) = Some r.
Proof.
  induction l as [|x l IH]; simpl; intros H Hq; [discriminate|].
  destruct (p x) eqn:Hp.
  - injection H as ->. rewrite Hq. simpl. rewrite Hp. reflexivity.
  - destruct (q x); simpl; rewrite ?Hp; auto.
Qed.

Lemma find_filter_none (p q : Row -> bool) (l : list Row) :
  find p l = None -> find p (filter q l) = None.
Proof.
  induction l as [|x l IH]; simpl; intros H; [reflexivity|].
  destruct (p x) eqn:Hp; [discriminate|].
  destruct (q x); simpl; rewrite ?Hp; auto.
Qed.

(** The upsert of [(u, t)] keeps the row found for another user, unless
    that row holds [t]. *)
Lemma select_other_user_after_insert u t clock rows u' :
  u' <> u ->
  option_map topic_id (select_by_user u' rows) <> Some t ->
  select_by_user u' (insert_or_replace u t clock rows)
  = select_by_user u' rows.
Proof.
  intros Hne Hnot. unfold select_by_user, insert_or_replace in *.
  rewrite find_app_split.
  destruct (find (fun r => user_id r =? u') rows) as [r|] eqn:Hf.
  - rewrite (find_filter_keep _ _ _ r Hf); [reflexivity|].
    apply find_some in Hf. destruct Hf as [_ Hu].
    apply Z.eqb_eq in Hu. unfold conflicts.
    apply negb_true_iff, orb_false_iff. split; apply Z.eqb_neq.
    + congruence.
    + intros Ht. apply Hnot. simpl. congruence.
  - rewrite (find_filter_none _ _ _ Hf). simpl.
    destruct (Z.eqb_spec u u'); [congruence | reflexivity].
Qed.

Lemma select_other_topic_after_insert u t clock rows t' :
  t' <> t ->
  option_map user_id (select_by_topic t' rows) <> Some u ->
  select_by_topic t' (insert_or_replace u t clock rows)
  = select_by_topic t' rows.
Proof.
  intros Hne Hnot. unfold select_by_topic, insert_or_replace in *.
  rewrite find_app_split.
  destruct (find (fun r => topic_id r =? t') rows) as [r|] eqn:Hf.
  - rewrite (find_filter_keep _ _ _ r Hf); [reflexivity|].
    apply find_some in Hf. destruct Hf as [_ Ht].
    apply Z.eqb_eq in Ht. unfold conflicts.
    apply negb_true_iff, orb_false_iff. split; apply Z.eqb_neq.
    + intros Hu. apply Hnot. simpl. congruence.
    + congruence.
  - rewrite (find_filter_none _ _ _ Hf). simpl.
    destruct (Z.eqb_spec t t'); [congruence | reflexivity].
Qed.

Lemma select_other_user_after_delete u rows u' :
  u' <> u ->
  select_by_user u' (delete_by_user u rows) = select_by_user u' rows.
Proof.
  intros Hne. unfold select_by_user, delete_by_user.
  destruct (find (fun r => user_id r =? u') rows) as [r|] eqn:Hf.
  - apply find_filter_keep; [exact Hf|].
    apply find_some in Hf. destruct Hf as [_ Hu]. apply Z.eqb_eq in Hu.
    apply negb_true_iff, Z.eqb_neq. congruence.
  - apply find_filter_none. exact Hf.
Qed.

Lemma select_other_topic_after_delete u rows t' :
  option_map user_id (select_by_topic t' rows) <> Some u ->
  select_by_topic t' (delete_by_user u rows) = select_by_topic t' rows.
Proof.
  intros Hnot. unfold select_by_topic, delete_by_user in *.
  destruct (find (fun r => topic_id r =? t') rows) as [r|] eqn:Hf.
  - apply find_filter_keep; [exact Hf|].
    apply negb_true_iff, Z.eqb_neq. intros Hu. apply Hnot. simpl. congruence.
  - apply find_filter_none. exact Hf.
Qed.

(** X1.  On a ready store, when the connections open and the driver
    does not fail, [create_user_topic(u, t)] changes the answer of
    neither lookup for anybody else: [get_user_topic(u')] for another
    user [u'] answers as before unless it answered [t], and
    [get_user_by_topic(t')] for another topic [t'] answers as before
    unless it answered [u]. *)
Theorem create_leaves_others_alone
    (w : World) (u t u' t' : Z) (e0 e1 e2 : Env) :
  Ready w -> 0 < u -> 0 < t -> 0 < u' -> 0 < t' ->
  env_ok e0 -> env_ok e1 -> env_ok e2 ->
  let w1 := snd (create_user_topic (PyInt u) (PyInt t) e1 w) in
  (u' <> u ->
   fst (get_user_topic (PyInt u') e0 w) <> Return (Some t) ->
   fst (get_user_topic (PyInt u') e2 w1) = fst (get_user_topic (PyInt u') e0 w)) /\
  (t' <> t ->
   fst (get_user_by_topic (PyInt t') e0 w) <> Return (Some u) ->
   fst (get_user_by_topic (PyInt t') e2 w1)
   = fst (get_user_by_topic (PyInt t') e0 w)).
Proof.
  intros Hw Hu Ht Hu' Ht' H0 H1 H2 w1.
  pose proof (positive_id_valid u Hu) as Vu.
  pose proof (positive_id_valid t Ht) as Vt.
  pose proof (positive_id_valid u' Hu') as Vu'.
  pose proof (positive_id_valid t' Ht') as Vt'.
  destruct (create_user_topic_ready w e1 Hw H1 _ _ Vu Vt) as (_ & Hw1 & Hrows1).
  fold w1 in Hw1, Hrows1. cbn [int_value] in Hrows1.
  destruct (get_user_topic_ready w e0 Hw H0 _ Vu') as (Ha & _).
  destruct (get_user_topic_ready w1 e2 Hw1 H2 _ Vu') as (Hb & _).
  destruct (get_user_by_topic_ready w e0 Hw H0 _ Vt') as (Hc & _).
  destruct (get_user_by_topic_ready w1 e2 Hw1 H2 _ Vt') as (Hd & _).
  rewrite Ha, Hb, Hc, Hd, Hrows1. cbn [int_value].
  split; intros Hne Hnot.
  - rewrite select_other_user_after_insert; [reflexivity | exact Hne |].
    intros E. apply Hnot. rewrite E. reflexivity.
  - rewrite select_other_topic_after_insert; [reflexivity | exact Hne |].
    intros E. apply Hnot. rewrite E. reflexivity.
Qed.

Lemma create_leaves_others_alone_witness :
  Ready sample_world_two_rows /\
  let w1 := snd (create_user_topic (PyInt 42) (PyInt 1002) sample_env
                   sample_world_two_rows) in
  (7 <> 42 ->
   fst (get_user_topic (PyInt 7) sample_env sample_world_two_rows)
   <> Return (Some 1002) ->
   fst (get_user_topic (PyInt 7) sample_env w1)
   = fst (get_user_topic (PyInt 7) sample_env sample_world_two_rows)) /\
  (1007 <> 1002 ->
   fst (get_user_by_topic (PyInt 1007) sample_env sample_world_two_rows)
   <> Return (Some 42) ->
   fst (get_user_by_topic (PyInt 1007) sample_env w1)
   = fst (get_user_by_topic (PyInt 1007) sample_env sample_world_two_rows)).
Proof.
  split; [by_evaluation|].
  apply (create_leaves_others_alone sample_world_two_rows 42 1002 7 1007
           sample_env sample_env sample_env); by_evaluation.
Defined.

(** X2.  On a ready store, when the connections open and the driver
    does not fail, [delete_user_topic(u)] changes the answer of neither
    lookup for anybody else: [get_user_topic(u')] answers as before for
    every other user, and [get_user_by_topic(t')] answers as before
    unless it answered [u]. *)
Theorem delete_leaves_others_alone
    (w : World) (u u' t' : Z) (e0 e1 e2 : Env) :
  Ready w -> 0 < u -> 0 < u' -> 0 < t' ->
  env_ok e0 -> env_ok e1 -> env_ok e2 ->
  let w1 := snd (delete_user_topic (PyInt u) e1 w) in
  (u' <> u ->
   fst (get_user_topic (PyInt u') e2 w1) = fst (get_user_topic (PyInt u') e0 w)) /\
  (fst (get_user_by_topic (PyInt t') e0 w) <> Return (Some u) ->
   fst (get_user_by_topic (PyInt t') e2 w1)
   = fst (get_user_by_topic (PyInt t') e0 w)).
Proof.
  intros Hw Hu Hu' Ht' H0 H1 H2 w1.
  pose proof (positive_id_valid u Hu) as Vu.
  pose proof (positive_id_valid u' Hu') as Vu'.
  pose proof (positive_id_valid t' Ht') as Vt'.
  destruct (delete_user_topic_ready w e1 Hw H1 _ Vu) as (_ & Hw1 & Hrows1).
  fold w1 in Hw1, Hrows1. cbn [int_value] in Hrows1.
  destruct (get_user_topic_ready w e0 Hw H0 _ Vu') as (Ha & _).
  destruct (get_user_topic_ready w1 e2 Hw1 H2 _ Vu') as (Hb & _).
  destruct (get_user_by_topic_ready w e0 Hw H0 _ Vt') as (Hc & _).
  destruct (get_user_by_topic_ready w1 e2 Hw1 H2 _ Vt') as (Hd & _).
  rewrite Ha, Hb, Hc, Hd, Hrows1. cbn [int_value].
  split.
  - intros Hne. rewrite select_other_user_after_delete by exact Hne. reflexivity.
  - intros Hnot. rewrite select_other_topic_after_delete; [reflexivity|].
    intros E. apply Hnot. rewrite E. reflexivity.
Qed.

Lemma delete_leaves_others_alone_witness :
  Ready sample_world_two_rows /\
  let w1 := snd (delete_user_topic (PyInt 42) sample_env
                   sample_world_two_rows) in
  (7 <> 42 ->
   fst (get_user_topic (PyInt 7) sample_env w1)
   = fst (get_user_topic (PyInt 7) sample_env sample_world_two_rows)) /\
  (fst (get_user_by_topic (PyInt 1007) sample_env sample_world_two_rows)
   <> Return (Some 42) ->
   fst (get_user_by_topic (PyInt 1007) sample_env w1)
   = fst (get_user_by_topic (PyInt 1007) sample_env sample_world_two_rows)).
Proof.
  split; [by_evaluation|].
  apply (delete_leaves_others_alone sample_world_two_rows 42 7 1007
           sample_env sample_env sample_env); by_evaluation.
Defined.

Lemma select_topic_after_insert_delete u t clock rows :
  select_by_topic t (delete_by_user u (insert_or_replace u t clock rows))
  = None.
Proof.
  unfold select_by_topic. apply find_none_all. intros r Hr.
  unfold delete_by_user in Hr. apply filter_In in Hr. destruct Hr as [Hr Hu].
  apply negb_true_iff, Z.eqb_neq in Hu. apply Z.eqb_neq.
  apply In_insert_or_replace in Hr. destruct Hr as [(_ & _ & Ht) | ->].
  - exact Ht.
  - simpl in Hu. congruence.
Qed.

(** X3.  On a ready store, when the connections open and the driver
    does not fail: [create_user_topic(u, t)] followed by
    [delete_user_topic(u)] returns true from the delete, and afterwards
    neither [get_user_topic(u)] nor [get_user_by_topic(t)] finds
    anything, even when [t] belonged to somebody else before. *)
Theorem create_then_delete (w : World) (u t : Z) (e1 e2 e3 e4 : Env) :
  Ready w -> 0 < u -> 0 < t ->
  env_ok e1 -> env_ok e2 -> env_ok e3 -> env_ok e4 ->
  let w1 := snd (create_user_topic (PyInt u) (PyInt t) e1 w) in
  let w2 := snd (delete_user_topic (PyInt u) e2 w1) in
  fst (delete_user_topic (PyInt u) e2 w1) = Return true /\
  fst (get_user_topic (PyInt u) e3 w2) = Return None /\
  fst (get_user_by_topic (PyInt t) e4 w2) = Return None.
Proof.
  intros Hw Hu Ht H1 H2 H3 H4 w1 w2.
  pose proof (positive_id_valid u Hu) as Vu.
  pose proof (positive_id_valid t Ht) as Vt.
  destruct (create_user_topic_ready w e1 Hw H1 _ _ Vu Vt) as (_ & Hw1 & Hrows1).
  fold w1 in Hw1, Hrows1. cbn [int_value] in Hrows1.
  destruct (delete_user_topic_ready w1 e2 Hw1 H2 _ Vu) as (Hr2 & Hw2 & Hrows2).
  fold w2 in Hw2, Hrows2. cbn [int_value] in Hrows2, Hr2.
  destruct (get_user_topic_ready w2 e3 Hw2 H3 _ Vu) as (Hr3 & _).
  destruct (get_user_by_topic_ready w2 e4 Hw2 H4 _ Vt) as (Hr4 & _).
  rewrite Hr2, Hr3, Hr4, Hrows2, Hrows1. cbn [int_value].
  repeat split.
  - f_equal. unfold insert_or_replace. rewrite existsb_app. simpl.
    rewrite Z.eqb_refl. apply orb_true_iff. right. reflexivity.
  - unfold select_by_user. rewrite select_user_after_delete. reflexivity.
  - rewrite select_topic_after_insert_delete. reflexivity.
Qed.

Lemma create_then_delete_witness :
  Ready sample_world_two_rows /\
  let w1 := snd (create_user_topic (PyInt 3) (PyInt 1007) sample_env
                   sample_world_two_rows) in
  let w2 := snd (delete_user_topic (PyInt 3) sample_env w1) in
  fst (delete_user_topic (PyInt 3) sample_env w1) = Return true /\
  fst (get_user_topic (PyInt 3) sample_env w2) = Return None /\
  fst (get_user_by_topic (PyInt 1007) sample_env w2) = Return None.
Proof.
  split; [by_evaluation|].
  apply (create_then_delete sample_world_two_rows 3 1007
           sample_env sample_env sample_env sample_env); by_evaluation.
Defined.

(** ** How the operations end, whatever happens *)

(** Walks through an operation on an arbitrary world and environment:
    the gate, the connection, the failing driver call and the table;
    [fin] closes each leaf. *)
Ltac walk_body env sem tbl fin :=
  run_any;
  destruct sem as [v|]; [|cbn; fin];
  destruct (0 <? v) eqn:Hslot; [|cbn; fin];
  destruct (connect env); cbn; rewrite ?succ_pred_slot; try fin;
  destruct (close_fails env) as [closing|];
  destruct (driver_fails_at env) as [[[|[|j]] msg]|]; cbn;
    rewrite ?succ_pred_slot; try fin;
    destruct tbl as [rows|]; cbn; rewrite ?succ_pred_slot; try fin.

Ltac walk_call c env sem tbl fin :=
  destruct c as [uid|uid tid|tid|uid];
    unfold run_call, get_user_topic, create_user_topic, get_user_by_topic,
      delete_user_topic;
    [ destruct (invalid_id uid); [cbn; fin|];
      unfold get_user_topic_body; walk_body env sem tbl fin
    | destruct (invalid_id uid); [cbn; fin|];
      destruct (invalid_id tid); [cbn; fin|];
      unfold create_user_topic_body; walk_body env sem tbl fin
    | destruct (invalid_id tid); [cbn; fin|];
      unfold get_user_by_topic_body; walk_body env sem tbl fin
    | destruct (invalid_id uid); [cbn; fin|];
      unfold delete_user_topic_body; walk_body env sem tbl fin;
      unfold try_finally, bind; cbn;
      match goal with
      | |- context [0 <? rowcount_delete ?a ?b] =>
          destruct (0 <? rowcount_delete a b)
      end; cbn; rewrite ?succ_pred_slot; fin ].

(** X4.  Whatever its arguments and whatever the connection and the
    driver do, a call of one of the four operations raises nothing but
    [ValueError] or [DatabaseError]; a [ValueError] comes with no
    logging call, a [DatabaseError] with exactly one of level ERROR,
    and a call that returns makes at most one, of level INFO.  The
    ERROR call is the only one of a call that raises, except when a
    write went through and its [conn.close()] then failed: there the
    INFO call of the write comes before it. *)
Theorem errors_and_log_records (c : Call) (env : Env) (w : World) :
  let w' := snd (run_call c env w) in
  match fst (run_call c env w) with
  | Raise e =>
      (exc_class e = ValueError /\ log w' = log w) \/
      (exc_class e = DatabaseError /\
       exists msg,
         log w' = log w ++ [mkLog ERROR msg] \/
         exists closing done,
           close_fails env = Some closing /\ is_write c = true /\
           log w' = log w ++ [mkLog INFO done; mkLog ERROR msg])
  | Return _ =>
      log w' = log w \/ exists msg, log w' = log w ++ [mkLog INFO msg]
  | Pending => log w' = log w
  end.
Proof.
  open_world w. cbv zeta.
  walk_call c env sem tbl
    ltac:(solve [ auto
                | left; split; reflexivity
                | right; split; [reflexivity | eexists; left; reflexivity]
                | right; split; [reflexivity|]; eexists; right;
                  eexists; eexists; split; [reflexivity|];
                  split; [reflexivity|];
                  rewrite <- app_assoc; reflexivity
                | right; eexists; reflexivity ]).
Qed.

(** What a call can do to the database file: nothing, or, for a write
    whose commit went through, replace the rows of the table that
    exists; such a write returns, unless its [conn.close()] then
    fails. *)
Lemma run_call_database (c : Call) (env : Env) (w : World) :
  database (snd (run_call c env w)) = database w \/
  (is_write c = true /\
   (fst (run_call c env w) = Return tt \/
    exists msg,
      close_fails env = Some msg /\
      fst (run_call c env w) = Raise (wrapped_error (mkExc DriverError msg))) /\
   exists rows', database (snd (run_call c env w))
                 = with_users (database w) (Some rows')).
Proof.
  open_world w.
  walk_call c env sem tbl
    ltac:(solve [ auto
                | right; split; [reflexivity|]; split;
                  [ left; reflexivity | eexists; reflexivity ]
                | right; split; [reflexivity|]; split;
                  [ right; eexists; split; reflexivity
                  | eexists; reflexivity ] ]).
Qed.

(** X5.  The database file changes only through a [create_user_topic]
    or [delete_user_topic] whose commit went through: the two lookups
    never change it, and a write that raises for a bad argument, a
    timeout, a connection failure or a driver failure at the statement
    or at the commit leaves it as it was.  A write that changes the
    file returns normally, unless its [conn.close()] then fails: that
    call raises although its change is committed. *)
Theorem only_returning_writes_change_the_file
    (c : Call) (env : Env) (w : World) :
  database (snd (run_call c env w)) = database w \/
  (is_write c = true /\
   (fst (run_call c env w) = Return tt \/
    exists msg,
      close_fails env = Some msg /\
      fst (run_call c env w)
      = Raise (mkExc DatabaseError ("Ошибка БД: " +++ msg)))).
Proof.
  destruct (run_call_database c env w) as [H | (Hw & Hr & _)]; auto.
Qed.

(** X6.  A call leaves a ready store as ready as it found it, however
    it ends, unless its [conn.close()] raises.  The call always ends;
    the flag and the table stay; after a bad argument, a timeout, a
    connection failure or a driver failure in the block the manager and
    the number of open connections are what they were, so the store is
    ready for the next call.  When the call was let through and
    connected and the close then fails, the semaphore has one slot less
    and one more connection is open. *)
Theorem ready_unless_close_fails
    (c : Call) (env : Env) (w : World) (value : Z) :
  Ready w -> _semaphore (manager w) = Some value ->
  let w' := snd (run_call c env w) in
  fst (run_call c env w) <> Pending /\
  _initialized (manager w') = true /\
  (exists rows, users (database w') = Some rows) /\
  if close_will_fail c env
  then _semaphore (manager w') = Some (value - 1) /\
       open_connections w' = S (open_connections w)
  else manager w' = manager w /\
       open_connections w' = open_connections w /\
       Ready w'.
Proof.
  intros (Hi & (v & Hs & Hv) & (rows & Hr)) Hsem w'.
  assert (v = value) by congruence. subst v.
  destruct (run_call_gate c env w value Hsem Hv) as (Hend & Hflag & Hgate).
  fold w' in Hend, Hflag, Hgate |- *.
  assert (Htable : exists rows', users (database w') = Some rows').
  { unfold w'.
    destruct (run_call_database c env w) as [H | (_ & _ & rows' & H)];
      rewrite H; [eauto | exists rows'; reflexivity]. }
  split; [exact Hend|]. split; [congruence|]. split; [exact Htable|].
  destruct (close_will_fail c env); [exact Hgate|].
  destruct Hgate as [Hm Ho]. split; [exact Hm|]. split; [exact Ho|].
  unfold Ready. rewrite Hm. eauto.
Qed.

Lemma ready_unless_close_fails_witness :
  Ready sample_world_with_row /\
  let c := CallDeleteUserTopic (PyInt 42) in
  let w' := snd (run_call c close_failure sample_world_with_row) in
  fst (run_call c close_failure sample_world_with_row) <> Pending /\
  _initialized (manager w') = true /\
  (exists rows, users (database w') = Some rows) /\
  if close_will_fail c close_failure
  then _semaphore (manager w') = Some (5 - 1) /\
       open_connections w' = S (open_connections sample_world_with_row)
  else manager w' = manager sample_world_with_row /\
       open_connections w' = open_connections sample_world_with_row /\
       Ready w'.
Proof.
  split; [by_evaluation|].
  apply (ready_unless_close_fails (CallDeleteUserTopic (PyInt 42))
           close_failure sample_world_with_row 5).
  - by_evaluation.
  - reflexivity.
Defined.

(** ** [initialize] and [close] *)

(** [initialize] on a manager whose flag is clear and that has room for
    a connection: with a good environment it returns, the store is
    ready, the semaphore is new and full, the schema is in place and the
    rows are those of the file. *)
Lemma initialize_from_clear (w : World) (env : Env) :
  _initialized (manager w) = false ->
  0 < max_connections (manager w) ->
  env_ok env ->
  fst (initialize env w) = Return tt /\
  Ready (snd (initialize env w)) /\
  rows_of (snd (initialize env w)) = rows_of w /\
  _semaphore (manager (snd (initialize env w)))
  = Some (max_connections (manager w)) /\
  open_connections (snd (initialize env w)) = open_connections w /\
  journal_mode_wal (database (snd (initialize env w))) = true /\
  idx_topic_id (database (snd (initialize env w))) = true /\
  update_users_timestamp (database (snd (initialize env w))) = true.
Proof.
  intros Hi Hn (Hc & Hd & Hx). open_world w. cbn in Hi, Hn. subst.
  unfold initialize, new_semaphore.
  unfold bind at 1. cbn [get_manager manager _initialized].
  assert (Hneg : (cap <? 0) = false) by (apply Z.ltb_ge; lia).
  unfold bind at 1. unfold get_manager, set_semaphore.
  cbn. rewrite Hneg. cbn.
  run_ready Hn Hc Hd Hx.
  destruct tbl as [rows|]; cbn; rewrite ?succ_pred_slot;
    repeat split; cbn; eauto.
Qed.

(** X7.  A mapping written through one manager is found through the
    next: when a new manager, with room for at least one connection, is
    initialized on the file a ready store has written [(u, t)] to, it
    returns, the store is ready with a full semaphore, and
    [get_user_topic(u)] returns [t]. *)
Theorem mapping_survives_restart
    (w : World) (u t : Z) (path : string) (capacity : Z) (tmo : Q)
    (e1 e2 e3 : Env) :
  Ready w -> 0 < u -> 0 < t -> 0 < capacity ->
  env_ok e1 -> env_ok e2 -> env_ok e3 ->
  let file := database (snd (create_user_topic (PyInt u) (PyInt t) e1 w)) in
  let restarted := start_world (new_manager path capacity tmo) file in
  fst (initialize e2 restarted) = Return tt /\
  Ready (snd (initialize e2 restarted)) /\
  _semaphore (manager (snd (initialize e2 restarted))) = Some capacity /\
  fst (get_user_topic (PyInt u) e3 (snd (initialize e2 restarted)))
  = Return (Some t).
Proof.
  intros Hw Hu Ht Hcap H1 H2 H3 file restarted.
  pose proof (positive_id_valid u Hu) as Vu.
  pose proof (positive_id_valid t Ht) as Vt.
  destruct (create_user_topic_ready w e1 Hw H1 _ _ Vu Vt) as (_ & _ & Hrows1).
  cbn [int_value] in Hrows1.
  destruct (initialize_from_clear restarted e2 eq_refl Hcap H2)
    as (Hr & Hready & Hrows & Hsem & _).
  destruct (get_user_topic_ready _ e3 Hready H3 _ Vu) as (Hget & _).
  split; [exact Hr|]. split; [exact Hready|]. split; [exact Hsem|].
  rewrite Hget, Hrows. cbn [int_value].
  replace (rows_of restarted)
    with (insert_or_replace u t (now e1) (rows_of w)) by (symmetry; exact Hrows1).
  unfold select_by_user. rewrite select_user_after_insert. reflexivity.
Qed.

Lemma mapping_survives_restart_witness :
  Ready sample_world /\
  let file := database (snd (create_user_topic (PyInt 42) (PyInt 1001)
                               sample_env sample_world)) in
  let restarted := start_world (new_manager "data/database.db" 3 (10 # 1)%Q)
                               file in
  fst (initialize sample_env restarted) = Return tt /\
  Ready (snd (initialize sample_env restarted)) /\
  _semaphore (manager (snd (initialize sample_env restarted))) = Some 3 /\
  fst (get_user_topic (PyInt 42) sample_env
         (snd (initialize sample_env restarted)))
  = Return (Some 1001).
Proof.
  split; [by_evaluation|].
  apply (mapping_survives_restart sample_world 42 1001 "data/database.db" 3
           (10 # 1)%Q sample_env sample_env sample_env); by_evaluation.
Defined.

(** How [initialize] ends on a manager whose flag is clear and that
    has room for a connection: it never suspends; when it raises, the
    exception is the raw one of the connection or of the driver, the
    flag stays clear and no row is lost; the slot is back and no
    connection is left open, unless it is [conn.close()] that raised. *)
Lemma initialize_failure (w : World) (env : Env) :
  _initialized (manager w) = false ->
  0 < max_connections (manager w) ->
  match fst (initialize env w) with
  | Return _ => True
  | Raise e =>
      (exc_class e = TimeoutError \/ exc_class e = DriverError) /\
      _initialized (manager (snd (initialize env w))) = false /\
      max_connections (manager (snd (initialize env w)))
      = max_connections (manager w) /\
      (if closing_fails env
       then _semaphore (manager (snd (initialize env w)))
            = Some (max_connections (manager w) - 1) /\
            open_connections (snd (initialize env w))
            = S (open_connections w)
       else _semaphore (manager (snd (initialize env w)))
            = Some (max_connections (manager w)) /\
            open_connections (snd (initialize env w)) = open_connections w) /\
      rows_of (snd (initialize env w)) = rows_of w /\
      log (snd (initialize env w)) = log w
  | Pending => False
  end.
Proof.
  intros Hi Hn. open_world w. cbn in Hi, Hn. subst.
  unfold initialize, new_semaphore, closing_fails.
  unfold bind at 1. cbn [get_manager manager _initialized].
  assert (Hneg : (cap <? 0) = false) by (apply Z.ltb_ge; lia).
  unfold bind at 1. unfold get_manager, set_semaphore.
  cbn. rewrite Hneg. cbn.
  run_any. cbn. rewrite (proj2 (Z.ltb_lt _ _) Hn).
  destruct (connect env); cbn; rewrite ?succ_pred_slot;
    try solve [repeat split; auto].
  destruct (close_fails env) as [closing|];
  destruct (driver_fails_at env) as [[[|[|[|[|[|[|j]]]]]] msg]|]; cbn;
    rewrite ?succ_pred_slot; try solve [repeat split; auto];
    destruct tbl as [rows|]; cbn; rewrite ?succ_pred_slot;
    solve [repeat split; auto].
Qed.

Lemma initialize_sets_flag (w : World) (env : Env) :
  fst (initialize env w) = Return tt ->
  _initialized (manager (snd (initialize env w))) = true.
Proof.
  open_world w. unfold initialize, new_semaphore.
  unfold bind at 1. cbn [get_manager manager _initialized].
  destruct ini; [reflexivity|].
  unfold bind at 1. unfold get_manager, set_semaphore. cbn.
  destruct (cap <? 0); [discriminate|]. cbn.
  run_any. cbn.
  destruct (0 <? cap); [|discriminate].
  destruct (connect env); cbn; try discriminate.
  destruct (close_fails env) as [closing|];
  destruct (driver_fails_at env) as [[[|[|[|[|[|[|j]]]]]] msg]|]; cbn;
    try discriminate; destruct tbl as [rows|]; cbn; try discriminate;
    reflexivity.
Qed.

(** X8.  Once [initialize] has returned, calling it again returns at
    once and changes nothing, whatever the connection and the driver
    would do: no semaphore is made, no connection is opened, no schema
    statement is sent. *)
Theorem initialize_twice (w : World) (e1 e2 : Env) :
  fst (initialize e1 w) = Return tt ->
  initialize e2 (snd (initialize e1 w)) = (Return tt, snd (initialize e1 w)).
Proof.
  intros H. apply initialize_sets_flag in H.
  destruct (snd (initialize e1 w)) as [m d oc tr lg].
  cbn in H. unfold initialize, bind, get_manager. cbn. rewrite H. reflexivity.
Qed.

Lemma initialize_twice_witness :
  fst (initialize sample_env (start_world sample_manager empty_database))
  = Return tt /\
  initialize (mkEnv ConnectTimeout None 0 None) sample_world
  = (Return tt, sample_world).
Proof.
  split; [by_evaluation|].
  apply (initialize_twice (start_world sample_manager empty_database)
           sample_env (mkEnv ConnectTimeout None 0 None)).
  by_evaluation.
Defined.

(** X9.  [initialize] does not wrap what goes wrong: on a manager with
    room for a connection, a failure surfaces as the raw [TimeoutError]
    of the connection or the raw error of the driver, never as
    [DatabaseError].  The flag then stays clear and no row is lost.  The
    slot is given back and no connection stays open, unless it is
    [conn.close()] that raised: then the semaphore has one slot less and
    the connection stays open.  Either way, calling [initialize] again
    with a connection that opens and a driver that works returns: it
    makes a new, full semaphore and the store is ready with the same
    rows. *)
Theorem initialize_fails_raw_and_can_be_retried
    (w : World) (e1 e2 : Env) (e : Exc) :
  _initialized (manager w) = false ->
  0 < max_connections (manager w) ->
  fst (initialize e1 w) = Raise e ->
  env_ok e2 ->
  let w1 := snd (initialize e1 w) in
  (exc_class e = TimeoutError \/ exc_class e = DriverError) /\
  _initialized (manager w1) = false /\
  (if closing_fails e1
   then _semaphore (manager w1) = Some (max_connections (manager w) - 1) /\
        open_connections w1 = S (open_connections w)
   else _semaphore (manager w1) = Some (max_connections (manager w)) /\
        open_connections w1 = open_connections w) /\
  fst (initialize e2 w1) = Return tt /\
  Ready (snd (initialize e2 w1)) /\
  _semaphore (manager (snd (initialize e2 w1)))
  = Some (max_connections (manager w)) /\
  rows_of (snd (initialize e2 w1)) = rows_of w.
Proof.
  intros Hi Hn Hraise Hok w1.
  pose proof (initialize_failure w e1 Hi Hn) as H. rewrite Hraise in H.
  destruct H as (Hclass & Hflag & Hmax & Hgate & Hrows & _).
  fold w1 in Hflag, Hmax, Hgate, Hrows.
  assert (Hn1 : 0 < max_connections (manager w1)) by (rewrite Hmax; exact Hn).
  destruct (initialize_from_clear w1 e2 Hflag Hn1 Hok)
    as (Hr & Hready & Hrows2 & Hsem2 & _).
  split; [exact Hclass|]. split; [exact Hflag|]. split; [exact Hgate|].
  split; [exact Hr|]. split; [exact Hready|].
  split; [rewrite Hsem2, Hmax; reflexivity|].
  rewrite Hrows2. exact Hrows.
Qed.

Lemma initialize_fails_raw_and_can_be_retried_witness :
  let w := start_world sample_manager empty_database in
  fst (initialize close_failure w)
  = Raise (mkExc DriverError
             "unable to close due to unfinalized statements or unfinished backups") /\
  let w1 := snd (initialize close_failure w) in
  (DriverError = TimeoutError \/ DriverError = DriverError) /\
  _initialized (manager w1) = false /\
  (if closing_fails close_failure
   then _semaphore (manager w1) = Some (max_connections (manager w) - 1) /\
        open_connections w1 = S (open_connections w)
   else _semaphore (manager w1) = Some (max_connections (manager w)) /\
        open_connections w1 = open_connections w) /\
  fst (initialize sample_env w1) = Return tt /\
  Ready (snd (initialize sample_env w1)) /\
  _semaphore (manager (snd (initialize sample_env w1)))
  = Some (max_connections (manager w)) /\
  rows_of (snd (initialize sample_env w1)) = rows_of w.
Proof.
  cbv zeta. split; [by_evaluation|].
  apply (initialize_fails_raw_and_can_be_retried
           (start_world sample_manager empty_database)
           close_failure sample_env
           (mkExc DriverError
              "unable to close due to unfinalized statements or unfinished backups"));
    by_evaluation.
Defined.

(** X10.  A manager built with a capacity that is not positive cannot
    be brought up.  With a negative [max_connections], [initialize]
    raises [ValueError] when it makes the semaphore and leaves the
    manager as it was.  With [max_connections] 0 it never completes: it
    waits for a slot of a semaphore that has none, and so does every
    operation called afterwards. *)
Theorem initialize_without_capacity
    (path : string) (capacity : Z) (tmo : Q) (d : Database) (env : Env) :
  capacity <= 0 ->
  let w := start_world (new_manager path capacity tmo) d in
  if capacity <? 0
  then initialize env w
       = (Raise (mkExc ValueError "Semaphore initial value must be >= 0"), w)
  else fst (initialize env w) = Pending /\
       _initialized (manager (snd (initialize env w))) = false /\
       forall c env',
         valid_call c = true ->
         fst (run_call c env' (snd (initialize env w))) = Pending.
Proof.
  intros Hcap w. unfold w, initialize, start_world, new_manager, new_semaphore.
  unfold bind at 1. cbn [get_manager manager _initialized].
  unfold bind at 1. unfold get_manager, set_semaphore. cbn.
  destruct (Z.ltb_spec capacity 0) as [Hneg|Hnn]; [reflexivity|].
  assert (capacity = 0) by lia. subst capacity.
  cbn. repeat split.
  intros c env' Hvalid. apply no_slot_suspends; [reflexivity | exact Hvalid].
Qed.

Lemma initialize_without_capacity_witness :
  let w := start_world (new_manager "data/database.db" 0 (10 # 1)%Q)
                       empty_database in
  fst (initialize sample_env w) = Pending /\
  _initialized (manager (snd (initialize sample_env w))) = false /\
  forall c env',
    valid_call c = true ->
    fst (run_call c env' (snd (initialize sample_env w))) = Pending.
Proof.
  apply (initialize_without_capacity "data/database.db" 0 (10 # 1)%Q
           empty_database sample_env).
  by_evaluation.
Defined.

Lemma close_pool_effect (pool : list nat) :
  forall w,
    fst (close_pool pool w) = Return tt /\
    manager (snd (close_pool pool w)) = manager w /\
    database (snd (close_pool pool w)) = database w /\
    log (snd (close_pool pool w)) = log w.
Proof.
  induction pool as [|c pool IH]; intros w; [cbn; auto|].
  cbn [close_pool]. unfold bind at 1.
  destruct w as [m d oc tr lg]. cbn.
  specialize (IH (mkWorld m d (Nat.pred oc) (tr ++ [EvClose]) lg)).
  cbn in IH. exact IH.
Qed.

(** What [close] does to the manager and the file. *)
Lemma close_effect (w : World) :
  fst (close w) = Return tt /\
  manager (snd (close w))
  = mkManager (db_path (manager w)) (max_connections (manager w))
              (timeout (manager w)) [] (_semaphore (manager w)) false /\
  database (snd (close w)) = database w /\
  log (snd (close w)) = log w ++ [mkLog INFO "База данных закрыта"].
Proof.
  destruct (close_pool_effect (_pool (manager w)) w) as (Hr & Hm & Hd & Hl).
  unfold close, bind, get_manager.
  destruct (close_pool (_pool (manager w)) w) as [r w1].
  cbn [fst snd] in Hr, Hm, Hd, Hl. subst r.
  destruct w1 as [m1 d1 oc1 tr1 lg1]. cbn in *. subst. auto.
Qed.

(** X11.  [close] can be repeated and undone: a second [close] right
    after the first changes neither the manager nor the file, and
    [initialize] on the closed manager, with a connection that opens and
    a driver that works, makes the store ready again with a new, full
    semaphore and the rows it had. *)
Theorem close_then_initialize (w : World) (env : Env) :
  0 < max_connections (manager w) -> env_ok env ->
  let closed := snd (close w) in
  fst (close closed) = Return tt /\
  manager (snd (close closed)) = manager closed /\
  database (snd (close closed)) = database closed /\
  fst (initialize env closed) = Return tt /\
  Ready (snd (initialize env closed)) /\
  _semaphore (manager (snd (initialize env closed)))
  = Some (max_connections (manager w)) /\
  rows_of (snd (initialize env closed)) = rows_of w.
Proof.
  intros Hn Hok closed.
  destruct (close_effect w) as (_ & Hm & Hd & _). fold closed in Hm, Hd.
  destruct (close_effect closed) as (Hr2 & Hm2 & Hd2 & _).
  assert (Hflag : _initialized (manager closed) = false) by (rewrite Hm; reflexivity).
  assert (Hmax : max_connections (manager closed) = max_connections (manager w))
    by (rewrite Hm; reflexivity).
  destruct (initialize_from_clear closed env Hflag ltac:(rewrite Hmax; exact Hn) Hok)
    as (Hr & Hready & Hrows & Hsem & _).
  split; [exact Hr2|]. split; [rewrite Hm2, Hm; reflexivity|].
  split; [exact Hd2|]. split; [exact Hr|]. split; [exact Hready|].
  split; [rewrite Hsem, Hmax; reflexivity|].
  rewrite Hrows. unfold rows_of. rewrite Hd. reflexivity.
Qed.

Lemma close_then_initialize_witness :
  let closed := snd (close sample_world_with_row) in
  fst (close closed) = Return tt /\
  manager (snd (close closed)) = manager closed /\
  database (snd (close closed)) = database closed /\
  fst (initialize sample_env closed) = Return tt /\
  Ready (snd (initialize sample_env closed)) /\
  _semaphore (manager (snd (initialize sample_env closed)))
  = Some (max_connections (manager sample_world_with_row)) /\
  rows_of (snd (initialize sample_env closed)) = rows_of sample_world_with_row.
Proof.
  apply (close_then_initialize sample_world_with_row sample_env); by_evaluation.
Defined.

(** ** The coordinator *)



(** X13.  When awaiting the cancelled polling task raises something
    else than [CancelledError], [run_bot] lets that exception out at
    once: closing the session is not attempted, whatever it would do,
    and the closing log line is not written. *)
Theorem run_bot_cancellation_failure
    (e : Exc) (closing : option Exc) (w : World) :
  exc_class e <> CancelledError ->
  run_bot (mkRunEnv None StillPending true (Some e) closing) w
  = (Raise e,
     mkWorld (manager w) (database w) (open_connections w)
             (trace w ++ [EvCancel "polling_task"])
             (log w ++ [mkLog INFO "Бот запущен и готов к работе"])).
Proof.
  intros H. destruct w as [m d oc tr lg]. destruct e as [cls msg].
  destruct cls; cbn in H; try congruence; reflexivity.
Qed.

Lemma run_bot_cancellation_failure_witness :
  RuntimeError <> CancelledError /\
  run_bot (mkRunEnv None StillPending true (Some (mkExc RuntimeError "boom")) None)
          sample_world
  = (Raise (mkExc RuntimeError "boom"),
     mkWorld (manager sample_world) (database sample_world)
             (open_connections sample_world)
             (trace sample_world ++ [EvCancel "polling_task"])
             (log sample_world ++ [mkLog INFO "Бот запущен и готов к работе"])).
Proof.
  split; [by_evaluation|].
  apply (run_bot_cancellation_failure (mkExc RuntimeError "boom") None
           sample_world).
  by_evaluation.
Defined.

(** ** [main] *)

(** How [run_bot] ends, and that it leaves manager, file and
    connections alone. *)
Lemma run_bot_effect (renv : RunEnv) (w : World) :
  manager (snd (run_bot renv w)) = manager w /\
  database (snd (run_bot renv w)) = database w /\
  open_connections (snd (run_bot renv w)) = open_connections w /\
  match fst (run_bot renv w) with
  | Pending => run_bot_waits renv = true
  | Return _ => run_bot_waits renv = false /\ run_bot_raises renv = false
  | Raise _ => run_bot_waits renv = false /\ run_bot_raises renv = true
  end.
Proof.
  destruct w as [m d oc tr lg]. destruct renv as [su pt stop cp sc].
  unfold run_bot, run_bot_waits, run_bot_raises, nothing_happens,
    cancellation_fails, session_close, bind, logger, emit, cancel_and_await,
    ret, suspend, raise.
  cbn [setup_raises polling_task shutdown_set cancelled_polling
       session_close_raises].
  destruct su as [e0|]; [cbn; auto|].
  destruct pt, stop; try destruct cp as [[cls msg]|]; try destruct cls;
    destruct sc as [e1|]; cbn; auto.
Qed.

Lemma try_finally_returning {A} (body : M A) (fin : M unit) (w : World) :
  fst (body w) <> Pending ->
  fst (fin (snd (body w))) = Return tt ->
  try_finally body fin w = (fst (body w), snd (fin (snd (body w)))).
Proof.
  intros Hnp Hfin. unfold try_finally.
  destruct (body w) as [[a|e|] w1]; cbn in *; try congruence;
    destruct (fin w1) as [[[]|e'|] w2]; cbn in *; congruence.
Qed.

Lemma close_and_log (s : string) (w : World) :
  fst ((close ;; logger INFO s) w) = Return tt /\
  manager (snd ((close ;; logger INFO s) w))
  = mkManager (db_path (manager w)) (max_connections (manager w))
              (timeout (manager w)) [] (_semaphore (manager w)) false /\
  database (snd ((close ;; logger INFO s) w)) = database w.
Proof.
  destruct (close_effect w) as (Hr & Hm & Hd & Hl).
  unfold bind. destruct (close w) as [r w1]. cbn [fst snd] in *. subst r.
  destruct w1 as [m1 d1 oc1 tr1 lg1]. cbn in *. subst. auto.
Qed.

(** The [try] of [main]: it ends when [run_bot] does, the process
    status says whether [run_bot] raised, and [close] has run. *)
Lemma guarded_run_effect (renv : RunEnv) (w : World) :
  if run_bot_waits renv
  then fst (guarded_run renv w) = Pending /\
       manager (snd (guarded_run renv w)) = manager w
  else
    exit_status (fst (guarded_run renv w))
    = Some (if run_bot_raises renv then 1 else 0) /\
    manager (snd (guarded_run renv w))
    = mkManager (db_path (manager w)) (max_connections (manager w))
                (timeout (manager w)) [] (_semaphore (manager w)) false /\
    database (snd (guarded_run renv w)) = database w.
Proof.
  pose proof (run_bot_effect renv w) as (Hm & Hd & _ & Hres).
  unfold guarded_run.
  set (handler := fun e : Exc =>
         logger ERROR ("Критическая ошибка: " +++ exc_msg e) ;; raise e).
  set (body := try_except_Exception (run_bot renv) handler).
  assert (Hbody :
    manager (snd (body w)) = manager w /\
    database (snd (body w)) = database w /\
    match fst (body w) with
    | Pending => run_bot_waits renv = true
    | Return _ => run_bot_waits renv = false /\ run_bot_raises renv = false
    | Raise _ => run_bot_waits renv = false /\ run_bot_raises renv = true
    end).
  { unfold body, try_except_Exception.
    destruct (run_bot renv w) as [[a|e|] w1]; cbn [fst snd] in *.
    - auto.
    - destruct (is_Exception (exc_class e)); [|auto].
      unfold handler, bind, logger, raise. destruct w1 as [m1 d1 oc1 tr1 lg1].
      cbn in *. subst. auto.
    - auto. }
  destruct Hbody as (Hbm & Hbd & Hbres).
  destruct (run_bot_waits renv) eqn:Hwaits.
  - unfold try_finally. destruct (body w) as [[a|e|] w1]; cbn in *;
      try (split; [reflexivity | assumption]); destruct Hbres; discriminate.
  - destruct (close_and_log "Бот остановлен" (snd (body w)))
      as (Hfr & Hfm & Hfd).
    rewrite try_finally_returning; [|
      destruct (fst (body w)); [discriminate | discriminate |
                                 discriminate Hbres]
      | exact Hfr].
    cbn [fst snd]. rewrite Hfm, Hfd, Hbm, Hbd.
    split; [|auto].
    destruct (fst (body w)); cbn.
    + destruct Hbres as [_ ->]. reflexivity.
    + destruct Hbres as [_ ->]. reflexivity.
    + discriminate Hbres.
Qed.

Lemma initialize_keeps_settings (w : World) (env : Env) :
  db_path (manager (snd (initialize env w))) = db_path (manager w) /\
  max_connections (manager (snd (initialize env w)))
  = max_connections (manager w) /\
  timeout (manager (snd (initialize env w))) = timeout (manager w).
Proof.
  open_world w. unfold initialize, new_semaphore.
  unfold bind at 1. cbn [get_manager manager _initialized].
  destruct ini; [cbn; auto|].
  unfold bind at 1. unfold get_manager, set_semaphore. cbn.
  destruct (cap <? 0); [cbn; auto|]. cbn.
  run_any. cbn.
  destruct (0 <? cap); [|cbn; auto].
  destruct (connect env); cbn; auto.
  destruct (close_fails env) as [closing|];
  destruct (driver_fails_at env) as [[[|[|[|[|[|[|j]]]]]] msg]|]; cbn; auto;
    destruct tbl as [rows|]; cbn; auto.
Qed.

Lemma main_unfold (cfg : Config) (ienv : Env) (renv : RunEnv) (w : World) :
  main cfg ienv renv w
  = match initialize ienv (main_start cfg w) with
    | (Return _, w1) =>
        guarded_run renv
          (mkWorld (manager w1) (database w1) (open_connections w1) (trace w1)
                   (log w1 ++ [mkLog INFO "Запуск бота технической поддержки..."]))
    | (Raise e, w1) => (Raise e, w1)
    | (Pending, w1) => (Pending, w1)
    end.
Proof.
  unfold main. unfold bind at 1. cbn [set_manager].
  fold (main_start cfg w). unfold bind at 1.
  destruct (initialize ienv (main_start cfg w)) as [[[]|e|] w1]; try reflexivity.
Qed.



(** X15.  When [initialize] fails, [main] raises that raw exception and
    the process exits with status 1 without anything else having run:
    the coordinator is not started, the store is not closed and nothing
    is logged, the call being outside the [try] of [main]. *)
Theorem main_startup_failure
    (cfg : Config) (ienv : Env) (renv : RunEnv) (w : World) (e : Exc) :
  fst (initialize ienv (main_start cfg w)) = Raise e ->
  let run := main cfg ienv renv w in
  fst run = Raise e /\
  (exc_class e = TimeoutError \/ exc_class e = DriverError) /\
  exit_status (fst run) = Some 1 /\
  snd run = snd (initialize ienv (main_start cfg w)) /\
  log (snd run) = log w /\
  rows_of (snd run) = rows_of w.
Proof.
  intros Hraise run. unfold run. rewrite main_unfold.
  pose proof (initialize_failure (main_start cfg w) ienv eq_refl
                ltac:(reflexivity)) as H.
  rewrite Hraise in H. destruct H as (Hclass & _ & _ & _ & Hrows & Hlog).
  destruct (initialize ienv (main_start cfg w)) as [r w1].
  cbn [fst snd] in *. subst r.
  unfold rows_of, main_start in *. cbn in *. repeat split; auto.
Qed.

Lemma main_startup_failure_witness :
  let ienv := mkEnv ConnectTimeout None 0 None in
  let w := start_world sample_manager empty_database in
  fst (initialize ienv (main_start sample_config w))
  = Raise (mkExc TimeoutError "") /\
  let run := main sample_config ienv polling_failure w in
  fst run = Raise (mkExc TimeoutError "") /\
  (TimeoutError = TimeoutError \/ TimeoutError = DriverError) /\
  exit_status (fst run) = Some 1 /\
  snd run = snd (initialize ienv (main_start sample_config w)) /\
  log (snd run) = log w /\
  rows_of (snd run) = rows_of w.
Proof.
  cbv zeta. split; [by_evaluation|].
  apply (main_startup_failure sample_config (mkEnv ConnectTimeout None 0 None)
           polling_failure (start_world sample_manager empty_database)
           (mkExc TimeoutError "")).
  by_evaluation.
Defined.

(** [os.path.join] on a plain directory, on one written with its
    separator, on an empty one, and with a name that is absolute. *)
Example os_path_join_cases :
  os_path_join "data" "database.db" = "data/database.db" /\
  os_path_join "data/" "database.db" = "data/database.db" /\
  os_path_join "" "database.db" = "database.db" /\
  os_path_join "data" "/var/lib/bot.db" = "/var/lib/bot.db".
Proof. repeat split. Qed.

(** X16.  [main] builds the manager from the path alone: whatever the
    configuration says about the number of connections and the timeout,
    and however the run goes, the manager has the 5 slots and the 10
    seconds of the constructor's defaults, on the file
    [os.path.join(data_dir, db_name)]. *)
Theorem main_ignores_configured_limits
    (cfg : Config) (ienv : Env) (renv : RunEnv) (w : World) :
  let m := manager (snd (main cfg ienv renv w)) in
  max_connections m = 5 /\
  timeout m = (10 # 1)%Q /\
  db_path m = os_path_join (data_dir cfg) (db_name cfg).
Proof.
  cbv zeta. rewrite main_unfold.
  destruct (initialize_keeps_settings (main_start cfg w) ienv) as (Hp & Hc & Ht).
  destruct (initialize ienv (main_start cfg w)) as [[[]|e|] w1];
    cbn [fst snd] in *; try (cbn in *; auto; fail).
  set (w2 := mkWorld (manager w1) (database w1) (open_connections w1)
                     (trace w1) (log w1 ++ _)).
  pose proof (guarded_run_effect renv w2) as H.
  destruct (run_bot_waits renv).
  - destruct H as [_ ->]. cbn in *. auto.
  - destruct H as (_ & -> & _). cbn in *. auto.
Qed.

(** ** The configuration loader *)

Section ConfigProperties.

Variable py_int : string -> option Z.
Variable py_float : string -> option Q.

Lemma required_env_missing (environ : Environ) (key : string) :
  getenv environ key = None \/ getenv environ key = Some "" ->
  _get_required_env environ key
  = inl (mkConfigError (key +++ " не найден в переменных окружения")).
Proof.
  unfold _get_required_env. intros [-> | ->]; reflexivity.
Qed.

Lemma required_env_present (environ : Environ) (key value : string) :
  getenv environ key = Some value -> value <> "" ->
  _get_required_env environ key = inr value.
Proof.
  unfold _get_required_env. intros -> Hne.
  destruct value; [congruence | reflexivity].
Qed.

Lemma required_env_inversion (environ : Environ) (key value : string) :
  _get_required_env environ key = inr value ->
  getenv environ key = Some value /\ value <> "".
Proof.
  unfold _get_required_env.
  destruct (getenv environ key) as [[|c s]|]; intros H; try discriminate.
  injection H as <-. split; [reflexivity | discriminate].
Qed.

(** X17.  The configuration is read once: after a call of [get_config]
    that returned a configuration, every later call returns that same
    configuration, whatever the environment has become, and reads
    nothing. *)
Theorem get_config_reads_once
    (environ environ' : Environ) (config : Config) (cached : option Config) :
  get_config py_int py_float None environ = (inr config, cached) ->
  get_config py_int py_float cached environ' = (inr config, cached).
Proof.
  unfold get_config. destruct (load_config py_int py_float environ) as [e|c];
    intros H; [discriminate|].
  injection H as <- <-. reflexivity.
Qed.

(** X18.  A required variable that is unset, or set to the empty
    string, stops the loading with an error that names it: [BOT_TOKEN]
    whatever else is set, [SUPPORT_GROUP_ID] when the token is there.
    Nothing is kept, so the next call reads the environment again. *)
Theorem missing_required_variable (environ : Environ) (key : string) :
  key = "BOT_TOKEN" \/
  (key = "SUPPORT_GROUP_ID" /\
   exists token, getenv environ "BOT_TOKEN" = Some token /\ token <> "") ->
  getenv environ key = None \/ getenv environ key = Some "" ->
  get_config py_int py_float None environ
  = (inl (mkConfigError (key +++ " не найден в переменных окружения")), None).
Proof.
  intros [-> | (-> & token & Htok & Hne)] Hmiss;
    unfold get_config, load_config.
  - rewrite (required_env_missing _ _ Hmiss). reflexivity.
  - rewrite (required_env_present _ _ _ Htok Hne).
    rewrite (required_env_missing _ _ Hmiss). reflexivity.
Qed.

(** X19.  A configuration that [get_config] returns from the
    environment is kept as the instance and holds what the environment
    says: a token that is not empty, the integer read from
    [SUPPORT_GROUP_ID], the directory and file name that are set or else
    "data" and "database.db", and the numbers read from
    [MAX_DB_CONNECTIONS] and [DB_TIMEOUT] or else from "5" and "10.0". *)
Theorem loaded_config_comes_from_environment
    (environ : Environ) (config : Config) (cached : option Config) :
  get_config py_int py_float None environ = (inr config, cached) ->
  cached = Some config /\
  getenv environ "BOT_TOKEN" = Some (bot_token config) /\
  bot_token config <> "" /\
  (exists group_str,
     getenv environ "SUPPORT_GROUP_ID" = Some group_str /\
     group_str <> "" /\
     py_int group_str = Some (support_group_id config)) /\
  data_dir config = _get_optional_env environ "DATA_DIR" "data" /\
  db_name config = _get_optional_env environ "DB_NAME" "database.db" /\
  py_int (_get_optional_env environ "MAX_DB_CONNECTIONS" "5")
  = Some (max_db_connections config) /\
  py_float (_get_optional_env environ "DB_TIMEOUT" "10.0")
  = Some (db_timeout config).
Proof.
  unfold get_config, load_config, _parse_int, _parse_float.
  destruct (_get_required_env environ "BOT_TOKEN") as [e|token] eqn:Htok;
    [discriminate|].
  destruct (_get_required_env environ "SUPPORT_GROUP_ID") as [e|gs] eqn:Hgs;
    [discriminate|].
  destruct (py_int gs) as [group|] eqn:Hgroup; [|discriminate].
  destruct (py_int (_get_optional_env environ "MAX_DB_CONNECTIONS" "5"))
    as [mx|] eqn:Hmax; [|discriminate].
  destruct (py_float (_get_optional_env environ "DB_TIMEOUT" "10.0"))
    as [tm|] eqn:Htm; [|discriminate].
  intros H. injection H as <- <-. cbn.
  apply required_env_inversion in Htok, Hgs.
  destruct Htok as [Htok Hne], Hgs as [Hgs Hgne].
  repeat split; try assumption. exists gs. auto.
Qed.

(** X20.  An optional variable that is set is used as it is, never
    replaced by its default: when [MAX_DB_CONNECTIONS] is set to a
    string [int] does not read, the empty string for one, the loading
    fails with an error that quotes it, although the default "5" would
    have been read. *)
Theorem set_but_unreadable_limit
    (environ : Environ) (token group_str value : string) (group : Z) :
  getenv environ "BOT_TOKEN" = Some token -> token <> "" ->
  getenv environ "SUPPORT_GROUP_ID" = Some group_str -> group_str <> "" ->
  py_int group_str = Some group ->
  getenv environ "MAX_DB_CONNECTIONS" = Some value ->
  py_int value = None ->
  get_config py_int py_float None environ
  = (inl (mkConfigError
            ("MAX_DB_CONNECTIONS должен быть числом, получено: " +++ value)),
     None).
Proof.
  intros Htok Hne Hgs Hgne Hgroup Hmax Hbad.
  unfold get_config, load_config, _parse_int, _get_optional_env.
  rewrite (required_env_present _ _ _ Htok Hne).
  rewrite (required_env_present _ _ _ Hgs Hgne).
  rewrite Hgroup, Hmax, Hbad. reflexivity.
Qed.

(** X21.  With only the two required variables set, and [int] and
    [float] reading "5" and "10.0" as five and ten, the configuration
    has the directory "data", the file "database.db", 5 connections and
    a timeout of 10 seconds. *)
Theorem defaults_of_config
    (environ : Environ) (token group_str : string) (group : Z) :
  getenv environ "BOT_TOKEN" = Some token -> token <> "" ->
  getenv environ "SUPPORT_GROUP_ID" = Some group_str -> group_str <> "" ->
  py_int group_str = Some group ->
  getenv environ "DATA_DIR" = None ->
  getenv environ "DB_NAME" = None ->
  getenv environ "MAX_DB_CONNECTIONS" = None ->
  getenv environ "DB_TIMEOUT" = None ->
  py_int "5" = Some 5 ->
  py_float "10.0" = Some (10 # 1)%Q ->
  fst (get_config py_int py_float None environ)
  = inr (mkConfig token group "data" "database.db" 5 (10 # 1)%Q).
Proof.
  intros Htok Hne Hgs Hgne Hgroup Hdir Hname Hmax Htmo Hfive Hten.
  unfold get_config, load_config, _parse_int, _parse_float, _get_optional_env.
  rewrite (required_env_present _ _ _ Htok Hne).
  rewrite (required_env_present _ _ _ Hgs Hgne).
  rewrite Hgroup, Hdir, Hname, Hmax, Htmo, Hfive, Hten. reflexivity.
Qed.

End ConfigProperties.

Lemma get_config_reads_once_witness :
  get_config read_decimal read_float None sample_environ
  = (inr sample_config, Some sample_config) /\
  get_config read_decimal read_float (Some sample_config) []
  = (inr sample_config, Some sample_config).
Proof.
  split; [by_evaluation|].
  apply (get_config_reads_once read_decimal read_float sample_environ []
           sample_config (Some sample_config)).
  by_evaluation.
Defined.

Lemma missing_required_variable_witness :
  getenv (("SUPPORT_GROUP_ID", "") :: sample_environ) "SUPPORT_GROUP_ID"
  = Some "" /\
  get_config read_decimal read_float None
    (("SUPPORT_GROUP_ID", "") :: sample_environ)
  = (inl (mkConfigError
            ("SUPPORT_GROUP_ID" +++ " не найден в переменных окружения")),
     None).
Proof.
  split; [by_evaluation|].
  apply (missing_required_variable read_decimal read_float
           (("SUPPORT_GROUP_ID", "") :: sample_environ) "SUPPORT_GROUP_ID").
  - right. split; [reflexivity|]. exists "123456:token".
    split; [reflexivity | discriminate].
  - right. reflexivity.
Defined.

Lemma loaded_config_comes_from_environment_witness :
  get_config read_decimal read_float None sample_environ
  = (inr sample_config, Some sample_config) /\
  bot_token sample_config <> "" /\
  read_decimal (_get_optional_env sample_environ "MAX_DB_CONNECTIONS" "5")
  = Some (max_db_connections sample_config).
Proof.
  split; [by_evaluation|].
  pose proof (loaded_config_comes_from_environment read_decimal read_float
                sample_environ sample_config (Some sample_config)
                ltac:(by_evaluation)) as H.
  split; [apply H | apply H].
Defined.

Lemma set_but_unreadable_limit_witness :
  read_decimal "" = None /\
  get_config read_decimal read_float None
    (("MAX_DB_CONNECTIONS", "") :: sample_environ)
  = (inl (mkConfigError
            ("MAX_DB_CONNECTIONS должен быть числом, получено: " +++ "")),
     None).
Proof.
  split; [by_evaluation|].
  apply (set_but_unreadable_limit read_decimal read_float
           (("MAX_DB_CONNECTIONS", "") :: sample_environ)
           "123456:token" "-1001234567890" "" (-1001234567890));
    by_evaluation.
Defined.

Lemma defaults_of_config_witness :
  read_decimal "5" = Some 5 /\
  read_float "10.0" = Some (10 # 1)%Q /\
  fst (get_config read_decimal read_float None sample_environ)
  = inr (mkConfig "123456:token" (-1001234567890) "data" "database.db" 5
                  (10 # 1)%Q).
Proof.
  split; [by_evaluation|]. split; [by_evaluation|].
  apply (defaults_of_config read_decimal read_float sample_environ
           "123456:token" "-1001234567890" (-1001234567890)); by_evaluation.
Defined.

(** ** The table under interleaving *)

(** What the block of a call does to the rows. *)
Lemma call_body_rows (c : Call) (env : Env) (w : World) :
  rows_of (snd (call_body c env w)) = rows_of w \/
  (exists u t,
     rows_of (snd (call_body c env w))
     = insert_or_replace u t (now env) (rows_of w)) \/
  (exists u,
     rows_of (snd (call_body c env w)) = delete_by_user u (rows_of w)).
Proof.
  open_world w.
  destruct c as [uid|uid tid|tid|uid]; unfold call_body, discard,
    get_user_topic_body, create_user_topic_body, get_user_by_topic_body,
    delete_user_topic_body, driver_call, bind;
    destruct (close_fails env) as [closing|];
  destruct (driver_fails_at env) as [[[|[|j]] msg]|]; cbn; auto;
    destruct tbl as [rows|]; cbn; auto;
    try (right; left; eexists; eexists; reflexivity);
    destruct (0 <? rowcount_delete (int_value uid) rows); cbn;
    right; right; eexists; reflexivity.
Qed.

Lemma resume_rows (t : Task) (w : World) :
  rows_of (snd (resume t w)) = rows_of w \/
  (exists u tp clock,
     rows_of (snd (resume t w)) = insert_or_replace u tp clock (rows_of w)) \/
  (exists u, rows_of (snd (resume t w)) = delete_by_user u (rows_of w)).
Proof.
  destruct t as [c env ph].
  destruct ph; unfold resume; cbn [phase task_call task_env at_phase].
  - destruct (valid_call c); [|auto].
    destruct (_semaphore (manager w)) as [v|]; [|auto].
    unfold semaphore_acquire. destruct (0 <? v); [|auto].
    open_world w. cbn. auto.
  - open_world w. unfold wait_for_connect.
    destruct (connect env); cbn; auto.
  - pose proof (call_body_rows c env w) as H.
    destruct (call_body c env w) as [[a|e|] w1]; cbn [fst snd] in *; auto.
    + destruct H as [H | [(u & tp & H) | H]]; eauto 6.
    + destruct H as [H | [(u & tp & H) | H]]; eauto 6.
  - open_world w. unfold conn_close. destruct (close_fails env); cbn; auto.
  - auto.
  - auto.
Qed.

Lemma step_bijective (i : nat) (s : System) :
  bijective (rows_of (world s)) -> bijective (rows_of (world (step i s))).
Proof.
  intros Hb. unfold step.
  destruct (nth_error (tasks s) i) as [t|]; [|exact Hb].
  pose proof (resume_rows t (world s)) as H.
  destruct (resume t (world s)) as [t' w']. cbn [snd world] in *.
  destruct H as [-> | [(u & tp & clock & ->) | (u & ->)]].
  - exact Hb.
  - apply bijective_insert_or_replace. exact Hb.
  - apply bijective_delete_by_user. exact Hb.
Qed.

(** X22.  Operations that overlap keep the table a bijection: however
    the event loop interleaves the tasks, each block under
    [async with] being one transaction, no [user_id] and no [topic_id]
    ever is in two rows. *)
Theorem interleaving_keeps_bijection (schedule : list nat) (s : System) :
  bijective (rows_of (world s)) ->
  bijective (rows_of (world (exec schedule s))).
Proof.
  revert s. induction schedule as [|i l IH]; intros s Hb; [exact Hb|].
  rewrite exec_cons. apply IH. apply step_bijective. exact Hb.
Qed.

Lemma interleaving_keeps_bijection_witness :
  bijective (rows_of sample_world) /\
  bijective
    (rows_of (world (exec [0; 1; 0; 1; 6; 0; 1; 6; 6; 0; 6]%nat
                          (start_system sample_world sample_calls)))).
Proof.
  assert (H : bijective (rows_of sample_world)) by (cbn; split; constructor).
  split; [exact H|].
  apply (interleaving_keeps_bijection [0; 1; 0; 1; 6; 0; 1; 6; 6; 0; 6]%nat
           (start_system sample_world sample_calls)).
  exact H.
Defined.

(** ** Identifiers *)

Ltac same_value_cases env sem tbl :=
  run_any;
  destruct sem as [v|]; [|cbn; auto];
  destruct (0 <? v); [|cbn; auto];
  destruct (connect env); cbn; auto;
  destruct (close_fails env) as [closing|];
  destruct (driver_fails_at env) as [[[|[|j]] msg]|]; cbn; auto;
  destruct tbl as [rows|]; cbn; auto.

Lemma get_user_topic_by_value (a b : PyVal) (env : Env) (w : World) :
  invalid_id a = false -> invalid_id b = false ->
  int_value a = int_value b ->
  fst (get_user_topic a env w) = fst (get_user_topic b env w) /\
  database (snd (get_user_topic a env w))
  = database (snd (get_user_topic b env w)).
Proof.
  intros Va Vb Hab. open_world w. unfold get_user_topic.
  rewrite Va, Vb. unfold get_user_topic_body. rewrite Hab.
  same_value_cases env sem tbl.
Qed.

Lemma get_user_by_topic_by_value (a b : PyVal) (env : Env) (w : World) :
  invalid_id a = false -> invalid_id b = false ->
  int_value a = int_value b ->
  fst (get_user_by_topic a env w) = fst (get_user_by_topic b env w) /\
  database (snd (get_user_by_topic a env w))
  = database (snd (get_user_by_topic b env w)).
Proof.
  intros Va Vb Hab. open_world w. unfold get_user_by_topic.
  rewrite Va, Vb. unfold get_user_by_topic_body. rewrite Hab.
  same_value_cases env sem tbl.
Qed.

Lemma delete_user_topic_by_value (a b : PyVal) (env : Env) (w : World) :
  invalid_id a = false -> invalid_id b = false ->
  int_value a = int_value b ->
  fst (delete_user_topic a env w) = fst (delete_user_topic b env w) /\
  database (snd (delete_user_topic a env w))
  = database (snd (delete_user_topic b env w)).
Proof.
  intros Va Vb Hab. open_world w. unfold delete_user_topic.
  rewrite Va, Vb. unfold delete_user_topic_body. rewrite Hab.
  same_value_cases env sem tbl.
  all: unfold try_finally, bind; cbn;
    destruct (0 <? rowcount_delete (int_value b) rows); cbn; auto.
Qed.

Lemma create_user_topic_by_value
    (a b a' b' : PyVal) (env : Env) (w : World) :
  invalid_id a = false -> invalid_id b = false ->
  invalid_id a' = false -> invalid_id b' = false ->
  int_value a = int_value b -> int_value a' = int_value b' ->
  fst (create_user_topic a a' env w) = fst (create_user_topic b b' env w) /\
  database (snd (create_user_topic a a' env w))
  = database (snd (create_user_topic b b' env w)).
Proof.
  intros Va Vb Va' Vb' Hab Hab'. open_world w. unfold create_user_topic.
  rewrite Va, Vb, Va', Vb'. unfold create_user_topic_body. rewrite Hab, Hab'.
  same_value_cases env sem tbl.
Qed.

(** X23.  An operation looks at a valid identifier only through the
    integer it stands for: two valid identifiers with the same integer
    value, such as [True] and [1], give the same result and the same
    database, in every operation and whatever the environment does. *)
Theorem identifiers_act_by_value
    (a b a' b' : PyVal) (env : Env) (w : World) :
  invalid_id a = false -> invalid_id b = false ->
  invalid_id a' = false -> invalid_id b' = false ->
  int_value a = int_value b -> int_value a' = int_value b' ->
  (fst (get_user_topic a env w) = fst (get_user_topic b env w) /\
   database (snd (get_user_topic a env w))
   = database (snd (get_user_topic b env w))) /\
  (fst (get_user_by_topic a env w) = fst (get_user_by_topic b env w) /\
   database (snd (get_user_by_topic a env w))
   = database (snd (get_user_by_topic b env w))) /\
  (fst (delete_user_topic a env w) = fst (delete_user_topic b env w) /\
   database (snd (delete_user_topic a env w))
   = database (snd (delete_user_topic b env w))) /\
  (fst (create_user_topic a a' env w) = fst (create_user_topic b b' env w) /\
   database (snd (create_user_topic a a' env w))
   = database (snd (create_user_topic b b' env w))).
Proof.
  intros Va Vb Va' Vb' Hab Hab'.
  split; [apply get_user_topic_by_value; assumption|].
  split; [apply get_user_by_topic_by_value; assumption|].
  split; [apply delete_user_topic_by_value; assumption|].
  apply create_user_topic_by_value; assumption.
Qed.

Lemma identifiers_act_by_value_witness :
  let w := sample_world_with_row in
  let a := PyBool true in
  let b := PyInt 1 in
  let a' := PyInt 5 in
  let b' := PyInt 5 in
  invalid_id a = false /\
  int_value a = int_value b /\
  (fst (get_user_topic a sample_env w) = fst (get_user_topic b sample_env w) /\
   database (snd (get_user_topic a sample_env w))
   = database (snd (get_user_topic b sample_env w))) /\
  (fst (get_user_by_topic a sample_env w)
   = fst (get_user_by_topic b sample_env w) /\
   database (snd (get_user_by_topic a sample_env w))
   = database (snd (get_user_by_topic b sample_env w))) /\
  (fst (delete_user_topic a sample_env w)
   = fst (delete_user_topic b sample_env w) /\
   database (snd (delete_user_topic a sample_env w))
   = database (snd (delete_user_topic b sample_env w))) /\
  (fst (create_user_topic a a' sample_env w)
   = fst (create_user_topic b b' sample_env w) /\
   database (snd (create_user_topic a a' sample_env w))
   = database (snd (create_user_topic b b' sample_env w))).
Proof.
  intros w a b a' b'.
  split; [reflexivity|]. split; [reflexivity|].
  apply (identifiers_act_by_value a b a' b' sample_env w); reflexivity.
Defined.

(** ** The two lookups agree *)

Lemma select_directions_agree (rows : list Row) (u t : Z) :
  bijective rows ->
  option_map topic_id (select_by_user u rows) = Some t <->
  option_map user_id (select_by_topic t rows) = Some u.
Proof.
  intros [Hu Ht]. unfold select_by_user, select_by_topic. split; intros H.
  - destruct (find (fun r => user_id r =? u) rows) as [r|] eqn:Hf;
      [|discriminate].
    injection H as Hrt. apply find_some in Hf. destruct Hf as [Hin Hru].
    apply Z.eqb_eq in Hru.
    destruct (find (fun r => topic_id r =? t) rows) as [r'|] eqn:Hf'.
    + apply find_some in Hf'. destruct Hf' as [Hin' Hrt'].
      apply Z.eqb_eq in Hrt'.
      rewrite (same_key_same_row topic_id rows r' r Ht Hin' Hin) by congruence.
      simpl. congruence.
    + exfalso. pose proof (find_none _ _ Hf' r Hin) as Hno.
      apply Z.eqb_neq in Hno. contradiction.
  - destruct (find (fun r => topic_id r =? t) rows) as [r|] eqn:Hf;
      [|discriminate].
    injection H as Hru. apply find_some in Hf. destruct Hf as [Hin Hrt].
    apply Z.eqb_eq in Hrt.
    destruct (find (fun r => user_id r =? u) rows) as [r'|] eqn:Hf'.
    + apply find_some in Hf'. destruct Hf' as [Hin' Hru'].
      apply Z.eqb_eq in Hru'.
      rewrite (same_key_same_row user_id rows r' r Hu Hin' Hin) by congruence.
      simpl. congruence.
    + exfalso. pose proof (find_none _ _ Hf' r Hin) as Hno.
      apply Z.eqb_neq in Hno. contradiction.
Qed.

(** X26.  On a ready store whose table is a bijection, when the
    connections open and the driver does not fail, the two lookups are
    inverse to each other: [get_user_topic(u)] returns [t] exactly when
    [get_user_by_topic(t)] returns [u]. *)
Theorem lookups_are_inverse (w : World) (u t : Z) (e1 e2 : Env) :
  Ready w -> bijective (rows_of w) -> 0 < u -> 0 < t ->
  env_ok e1 -> env_ok e2 ->
  fst (get_user_topic (PyInt u) e1 w) = Return (Some t) <->
  fst (get_user_by_topic (PyInt t) e2 w) = Return (Some u).
Proof.
  intros Hw Hb Hu Ht H1 H2.
  destruct (get_user_topic_ready w e1 Hw H1 _ (positive_id_valid u Hu))
    as (Ha & _).
  destruct (get_user_by_topic_ready w e2 Hw H2 _ (positive_id_valid t Ht))
    as (Hc & _).
  rewrite Ha, Hc. cbn [int_value].
  pose proof (select_directions_agree (rows_of w) u t Hb) as Hiff.
  split; intros H; injection H as H; f_equal; apply Hiff; exact H.
Qed.

Lemma lookups_are_inverse_witness :
  Ready sample_world_two_rows /\
  bijective (rows_of sample_world_two_rows) /\
  (fst (get_user_topic (PyInt 7) sample_env sample_world_two_rows)
   = Return (Some 1007) <->
   fst (get_user_by_topic (PyInt 1007) sample_env sample_world_two_rows)
   = Return (Some 7)).
Proof.
  assert (Hb : bijective (rows_of sample_world_two_rows)).
  { cbn. split; repeat constructor; simpl; intuition discriminate. }
  split; [by_evaluation|]. split; [exact Hb|].
  apply (lookups_are_inverse sample_world_two_rows 7 1007
           sample_env sample_env); try by_evaluation.
  exact Hb.
Defined.

Lemma invalid_identifier_messages_witness :
  invalid_id (PyStr "abc") = true /\
  create_user_topic (PyInt 7) (PyStr "abc") sample_env sample_world
  = (Raise (mkExc ValueError ("Некорректный topic_id: " +++ "abc")),
     sample_world).
Proof.
  split; [reflexivity|].
  apply (invalid_identifier_messages (PyStr "abc") (PyInt 7) sample_env
           sample_world eq_refl).
  reflexivity.
Defined.

Lemma uninitialized_store_refuses_witness :
  let w := start_world sample_manager empty_database in
  _semaphore (manager w) = None /\
  fst (run_call (CallCreateUserTopic (PyInt 42) (PyInt 1001)) sample_env w)
  = Raise not_initialized_error /\
  manager (snd (run_call (CallCreateUserTopic (PyInt 42) (PyInt 1001))
                         sample_env w)) = manager w /\
  database (snd (run_call (CallCreateUserTopic (PyInt 42) (PyInt 1001))
                          sample_env w)) = database w /\
  trace (snd (run_call (CallCreateUserTopic (PyInt 42) (PyInt 1001))
                       sample_env w)) = trace w.
Proof.
  cbv zeta. split; [reflexivity|].
  apply (uninitialized_store_refuses
           (start_world sample_manager empty_database)
           (CallCreateUserTopic (PyInt 42) (PyInt 1001)) sample_env);
    reflexivity.
Defined.

(** ** The gate under interleaving *)

(** X27.  The gate under interleaving.  With a semaphore of [capacity]
    slots, operations called together and resumed by the event loop in
    any order never have more than [capacity] connections open, whether
    or not a [conn.close()] fails.  When fewer of the operations have a
    close that fails than the gate has slots, then from any state such
    a run can reach, resuming the tasks in turn ends every operation:
    each call with valid identifiers has taken a slot once, each has
    given it back but those that ended in a failing close, and the
    slots and connections still taken at the end are theirs. *)
Theorem gate_bound_and_progress
    (capacity : Z) (w : World) (calls : list (Call * Env)) :
  0 < capacity ->
  _semaphore (manager w) = Some capacity ->
  open_connections w = 0%nat ->
  (forall schedule,
     Z.of_nat (open_connections (world (exec schedule (start_system w calls))))
     <= capacity) /\
  (Z.of_nat (closing_failures calls) < capacity ->
   forall schedule,
     let s := exec schedule (start_system w calls) in
     let final :=
       exec (round_robin (work_left (tasks s)) (List.length calls)) s in
     all_finished final = true /\
     acquires (world final) = (acquires w + valid_calls calls)%nat /\
     (releases (world final) + leaked_tasks final
      = releases w + valid_calls calls)%nat /\
     (leaked_tasks final <= closing_failures calls)%nat /\
     _semaphore (manager (world final))
     = Some (capacity - Z.of_nat (leaked_tasks final)) /\
     open_connections (world final) = leaked_tasks final).
Proof.
  intros Hcap Hs Ho.
  assert (Hstart : gate_invariant capacity (start_system w calls))
    by (apply start_system_invariant; [assumption | lia | assumption]).
  pose proof (start_system_trace_invariant w calls) as Tstart.
  destruct (start_system_counts w calls) as [Cfail Cvalid].
  split.
  - intros schedule. apply invariant_bounds_connections.
    apply exec_invariant. exact Hstart.
  - intros Hleak schedule s final.
    assert (Hinv : gate_invariant capacity s)
      by (apply exec_invariant; exact Hstart).
    assert (Htr : trace_invariant w s)
      by (apply (exec_trace_invariant capacity); assumption).
    assert (Hlen : List.length (tasks s) = List.length calls).
    { unfold s. rewrite exec_length. unfold start_system. cbn [tasks].
      apply length_map. }
    assert (Hfail : count_tasks close_can_fail (tasks s)
                    = closing_failures calls).
    { unfold s. rewrite exec_count_fixed by apply close_can_fail_fixed.
      exact Cfail. }
    assert (Hfin : all_finished final = true).
    { unfold all_finished. apply no_work_left.
      pose proof (round_robin_finishes capacity w (work_left (tasks s)) s
                    Hinv Htr ltac:(rewrite Hfail; exact Hleak)) as H.
      rewrite Hlen in H. fold final in H. lia. }
    assert (Hfinal : gate_invariant capacity final)
      by (unfold final; apply exec_invariant; exact Hinv).
    assert (Tfinal : trace_invariant w final)
      by (unfold final; apply (exec_trace_invariant capacity); assumption).
    assert (Vfinal : count_tasks (fun t => valid_call (task_call t))
                                 (tasks final) = valid_calls calls).
    { unfold final, s. rewrite !exec_count_fixed by apply valid_call_fixed.
      exact Cvalid. }
    assert (Ffinal : count_tasks close_can_fail (tasks final)
                     = closing_failures calls).
    { unfold final. rewrite exec_count_fixed by apply close_can_fail_fixed.
      exact Hfail. }
    destruct Hfinal as (v & Hv1 & Hv2 & Hv3 & Hv4).
    destruct Tfinal as (Ta & Tr & Twf).
    destruct (finished_counts _ Hfin Twf) as (F1 & F2 & F3 & F4).
    pose proof (count_leaked_bound _ Twf) as Hbound.
    unfold leaked_tasks.
    split; [exact Hfin|].
    split; [lia|]. split; [lia|]. split; [lia|].
    split; [rewrite Hv1; f_equal; lia | lia].
Qed.

Lemma gate_bound_and_progress_witness :
  _semaphore (manager sample_world) = Some 5 /\
  Z.of_nat (closing_failures sample_calls_leaking) < 5 /\
  (forall schedule,
     Z.of_nat (open_connections
                 (world (exec schedule
                           (start_system sample_world sample_calls_leaking))))
     <= 5) /\
  (forall schedule,
     let s := exec schedule (start_system sample_world sample_calls_leaking) in
     let final :=
       exec (round_robin (work_left (tasks s))
                         (List.length sample_calls_leaking)) s in
     all_finished final = true /\
     acquires (world final)
     = (acquires sample_world + valid_calls sample_calls_leaking)%nat /\
     (releases (world final) + leaked_tasks final
      = releases sample_world + valid_calls sample_calls_leaking)%nat /\
     (leaked_tasks final <= closing_failures sample_calls_leaking)%nat /\
     _semaphore (manager (world final))
     = Some (5 - Z.of_nat (leaked_tasks final)) /\
     open_connections (world final) = leaked_tasks final).
Proof.
  split; [reflexivity|]. split; [vm_compute; reflexivity|].
  destruct (gate_bound_and_progress 5 sample_world sample_calls_leaking)
    as [Hbound Hrun]; [lia | reflexivity | reflexivity |].
  split; [exact Hbound|]. apply Hrun. vm_compute. reflexivity.
Defined.
